(** * OpenCNPJ ETL (ETL_Python): identifier codec, JSON canonicalizer,
    hash catalog, NDJSON processor and document projector

  A shallow embedding of the parts of the Python sources that the
  specification's testable properties are about:

  - [utils/cnpj_utils.py]            -> [Module CnpjUtils]
  - [processors/parquet_ingestor.py] (the projection query, the
    partitions, the partner aggregate)
                                     -> [Module ParquetIngestor]
  - [utils/hash_cache_manager.py]    -> [Module HashCacheManager]
  - [utils/json_cleanup_utils.py]    -> [Module JsonCleanupUtils]
  - [processors/ndjson_processor.py] -> [Module NdjsonProcessor]
  - [processors/integrity_tester.py] (the comparison of one sample)
                                     -> [Module IntegrityTester]

  and of what they stand on: Python strings ([Module PyStr],
  [Module PyUnicode]), the coroutines of one asyncio task
  ([Module Task]), JSON values and the interface of the [json] module
  ([Module Json]), with one instance of that interface
  ([Module PyJson]).

  Conventions.  The identifier codec is embedded on Python's [str] as it
  is, a list of Unicode code points ([list N]) with Python's own
  character classes and case mapping; [ulit "abc"] writes an ASCII
  literal.  The JSON lines, the files and the SQL text are ASCII text
  ([list ascii]; characters above 127 are opaque there: neither
  letters, digits nor white space); [lit "abc"] writes a literal.
  [None] arguments and SQL [NULL] are [option].  Part I holds the
  definitions, Part II the properties. *)

From Stdlib Require Import ZArith NArith Ascii String List Lia Bool.
From Stdlib Require Import DecimalFacts DecimalPos DecimalZ DecimalString.
From stdpp Require Import base tactics option list gmap strings.

Set Warnings "-abstract-large-number,-register-all".
Local Open Scope nat_scope.

(* ===================================================================== *)
(** * Python strings                                                     *)
(* ===================================================================== *)

Module PyStr.

Abbreviation str := (list ascii) (only parsing).

Definition lit (s : string) : str := list_ascii_of_string s.
Arguments lit : simpl never.

Definition code (c : ascii) : nat := nat_of_ascii c.

Definition in_range (lo hi : nat) (c : ascii) : bool :=
  (lo <=? code c) && (code c <=? hi).

(** [str.isspace] on one character, which is also the regex class [\s]
    of a [str] pattern: TAB, LF, VT, FF, CR, the four separators
    FS, GS, RS, US and the space. *)
Definition isspace (c : ascii) : bool :=
  in_range 9 13 c || in_range 28 32 c.

Definition isdigit (c : ascii) : bool := in_range 48 57 c.   (* [0-9] *)
Definition isupper (c : ascii) : bool := in_range 65 90 c.   (* [A-Z] *)
Definition islower (c : ascii) : bool := in_range 97 122 c.  (* [a-z] *)

(** [s.lstrip()], [s.rstrip()], [s.strip()] *)
Fixpoint lstrip (s : str) : str :=
  match s with
  | c :: s' => if isspace c then lstrip s' else s
  | [] => []
  end.

Definition rstrip (s : str) : str := rev (lstrip (rev s)).

Definition strip (s : str) : str := rstrip (lstrip s).

(** Truth value of a [str]: [not s] holds for the empty string only. *)
Definition truthy (s : str) : bool :=
  match s with [] => false | _ => true end.

End PyStr.

Import PyStr.

(* ===================================================================== *)
(** * Python strings of code points                                       *)
(* ===================================================================== *)

(** The identifier codec is read on whole [str] values: a string is the
    list of its code points, and the character classes, the case
    mapping and the white space are Python's (CPython 3.11, Unicode
    14.0). *)

Module PyUnicode.

Abbreviation ustr := (list N) (only parsing).

(** The code point of an ASCII character, and an ASCII literal. *)
Definition chr (c : ascii) : N := N_of_ascii c.

Definition ulit (s : string) : ustr := map chr (list_ascii_of_string s).
Arguments ulit : simpl never.

Definition between (lo hi c : N) : bool := ((lo <=? c) && (c <=? hi))%N.

Definition isupper (c : N) : bool := between 65 90 c.    (* [A-Z] *)
Definition islower (c : N) : bool := between 97 122 c.   (* [a-z] *)
Definition isdigit (c : N) : bool := between 48 57 c.    (* [0-9] *)

(** The decimal digits (category Nd), by ranges. *)
Definition Nd : list (N * N) :=
  [
    (48, 57); (1632, 1641); (1776, 1785); (1984, 1993); (2406, 2415);
    (2534, 2543); (2662, 2671); (2790, 2799); (2918, 2927); (3046, 3055);
    (3174, 3183); (3302, 3311); (3430, 3439); (3558, 3567); (3664, 3673);
    (3792, 3801); (3872, 3881); (4160, 4169); (4240, 4249); (6112, 6121);
    (6160, 6169); (6470, 6479); (6608, 6617); (6784, 6793); (6800, 6809);
    (6992, 7001); (7088, 7097); (7232, 7241); (7248, 7257); (42528, 42537);
    (43216, 43225); (43264, 43273); (43472, 43481); (43504, 43513);
    (43600, 43609); (44016, 44025); (65296, 65305); (66720, 66729);
    (68912, 68921); (69734, 69743); (69872, 69881); (69942, 69951);
    (70096, 70105); (70384, 70393); (70736, 70745); (70864, 70873);
    (71248, 71257); (71360, 71369); (71472, 71481); (71904, 71913);
    (72016, 72025); (72784, 72793); (73040, 73049); (73120, 73129);
    (92768, 92777); (92864, 92873); (93008, 93017); (120782, 120831);
    (123200, 123209); (123632, 123641); (125264, 125273); (130032, 130041)
  ]%N.

(** The white space: what [str.isspace] accepts. *)
Definition White_Space : list N :=
  [
    9; 10; 11; 12; 13; 28; 29; 30; 31; 32; 133; 160; 5760; 8192; 8193; 8194;
    8195; 8196; 8197; 8198; 8199; 8200; 8201; 8202; 8232; 8233; 8239; 8287;
    12288
  ]%N.

(** The characters that [str.upper] changes, each with what it becomes. *)
Definition uppercase : list (N * list N) :=
  [
    (97, [65]); (98, [66]); (99, [67]); (100, [68]); (101, [69]);
    (102, [70]); (103, [71]); (104, [72]); (105, [73]); (106, [74]);
    (107, [75]); (108, [76]); (109, [77]); (110, [78]); (111, [79]);
    (112, [80]); (113, [81]); (114, [82]); (115, [83]); (116, [84]);
    (117, [85]); (118, [86]); (119, [87]); (120, [88]); (121, [89]);
    (122, [90]); (181, [924]); (223, [83; 83]); (224, [192]); (225, [193]);
    (226, [194]); (227, [195]); (228, [196]); (229, [197]); (230, [198]);
    (231, [199]); (232, [200]); (233, [201]); (234, [202]); (235, [203]);
    (236, [204]); (237, [205]); (238, [206]); (239, [207]); (240, [208]);
    (241, [209]); (242, [210]); (243, [211]); (244, [212]); (245, [213]);
    (246, [214]); (248, [216]); (249, [217]); (250, [218]); (251, [219]);
    (252, [220]); (253, [221]); (254, [222]); (255, [376]); (257, [256]);
    (259, [258]); (261, [260]); (263, [262]); (265, [264]); (267, [266]);
    (269, [268]); (271, [270]); (273, [272]); (275, [274]); (277, [276]);
    (279, [278]); (281, [280]); (283, [282]); (285, [284]); (287, [286]);
    (289, [288]); (291, [290]); (293, [292]); (295, [294]); (297, [296]);
    (299, [298]); (301, [300]); (303, [302]); (305, [73]); (307, [306]);
    (309, [308]); (311, [310]); (314, [313]); (316, [315]); (318, [317]);
    (320, [319]); (322, [321]); (324, [323]); (326, [325]); (328, [327]);
    (329, [700; 78]); (331, [330]); (333, [332]); (335, [334]); (337, [336]);
    (339, [338]); (341, [340]); (343, [342]); (345, [344]); (347, [346]);
    (349, [348]); (351, [350]); (353, [352]); (355, [354]); (357, [356]);
    (359, [358]); (361, [360]); (363, [362]); (365, [364]); (367, [366]);
    (369, [368]); (371, [370]); (373, [372]); (375, [374]); (378, [377]);
    (380, [379]); (382, [381]); (383, [83]); (384, [579]); (387, [386]);
    (389, [388]); (392, [391]); (396, [395]); (402, [401]); (405, [502]);
    (409, [408]); (410, [573]); (414, [544]); (417, [416]); (419, [418]);
    (421, [420]); (424, [423]); (429, [428]); (432, [431]); (436, [435]);
    (438, [437]); (441, [440]); (445, [444]); (447, [503]); (453, [452]);
    (454, [452]); (456, [455]); (457, [455]); (459, [458]); (460, [458]);
    (462, [461]); (464, [463]); (466, [465]); (468, [467]); (470, [469]);
    (472, [471]); (474, [473]); (476, [475]); (477, [398]); (479, [478]);
    (481, [480]); (483, [482]); (485, [484]); (487, [486]); (489, [488]);
    (491, [490]); (493, [492]); (495, [494]); (496, [74; 780]); (498, [497]);
    (499, [497]); (501, [500]); (505, [504]); (507, [506]); (509, [508]);
    (511, [510]); (513, [512]); (515, [514]); (517, [516]); (519, [518]);
    (521, [520]); (523, [522]); (525, [524]); (527, [526]); (529, [528]);
    (531, [530]); (533, [532]); (535, [534]); (537, [536]); (539, [538]);
    (541, [540]); (543, [542]); (547, [546]); (549, [548]); (551, [550]);
    (553, [552]); (555, [554]); (557, [556]); (559, [558]); (561, [560]);
    (563, [562]); (572, [571]); (575, [11390]); (576, [11391]); (578, [577]);
    (583, [582]); (585, [584]); (587, [586]); (589, [588]); (591, [590]);
    (592, [11375]); (593, [11373]); (594, [11376]); (595, [385]);
    (596, [390]); (598, [393]); (599, [394]); (601, [399]); (603, [400]);
    (604, [42923]); (608, [403]); (609, [42924]); (611, [404]);
    (613, [42893]); (614, [42922]); (616, [407]); (617, [406]);
    (618, [42926]); (619, [11362]); (620, [42925]); (623, [412]);
    (625, [11374]); (626, [413]); (629, [415]); (637, [11364]); (640, [422]);
    (642, [42949]); (643, [425]); (647, [42929]); (648, [430]); (649, [580]);
    (650, [433]); (651, [434]); (652, [581]); (658, [439]); (669, [42930]);
    (670, [42928]); (837, [921]); (881, [880]); (883, [882]); (887, [886]);
    (891, [1021]); (892, [1022]); (893, [1023]); (912, [921; 776; 769]);
    (940, [902]); (941, [904]); (942, [905]); (943, [906]);
    (944, [933; 776; 769]); (945, [913]); (946, [914]); (947, [915]);
    (948, [916]); (949, [917]); (950, [918]); (951, [919]); (952, [920]);
    (953, [921]); (954, [922]); (955, [923]); (956, [924]); (957, [925]);
    (958, [926]); (959, [927]); (960, [928]); (961, [929]); (962, [931]);
    (963, [931]); (964, [932]); (965, [933]); (966, [934]); (967, [935]);
    (968, [936]); (969, [937]); (970, [938]); (971, [939]); (972, [908]);
    (973, [910]); (974, [911]); (976, [914]); (977, [920]); (981, [934]);
    (982, [928]); (983, [975]); (985, [984]); (987, [986]); (989, [988]);
    (991, [990]); (993, [992]); (995, [994]); (997, [996]); (999, [998]);
    (1001, [1000]); (1003, [1002]); (1005, [1004]); (1007, [1006]);
    (1008, [922]); (1009, [929]); (1010, [1017]); (1011, [895]);
    (1013, [917]); (1016, [1015]); (1019, [1018]); (1072, [1040]);
    (1073, [1041]); (1074, [1042]); (1075, [1043]); (1076, [1044]);
    (1077, [1045]); (1078, [1046]); (1079, [1047]); (1080, [1048]);
    (1081, [1049]); (1082, [1050]); (1083, [1051]); (1084, [1052]);
    (1085, [1053]); (1086, [1054]); (1087, [1055]); (1088, [1056]);
    (1089, [1057]); (1090, [1058]); (1091, [1059]); (1092, [1060]);
    (1093, [1061]); (1094, [1062]); (1095, [1063]); (1096, [1064]);
    (1097, [1065]); (1098, [1066]); (1099, [1067]); (1100, [1068]);
    (1101, [1069]); (1102, [1070]); (1103, [1071]); (1104, [1024]);
    (1105, [1025]); (1106, [1026]); (1107, [1027]); (1108, [1028]);
    (1109, [1029]); (1110, [1030]); (1111, [1031]); (1112, [1032]);
    (1113, [1033]); (1114, [1034]); (1115, [1035]); (1116, [1036]);
    (1117, [1037]); (1118, [1038]); (1119, [1039]); (1121, [1120]);
    (1123, [1122]); (1125, [1124]); (1127, [1126]); (1129, [1128]);
    (1131, [1130]); (1133, [1132]); (1135, [1134]); (1137, [1136]);
    (1139, [1138]); (1141, [1140]); (1143, [1142]); (1145, [1144]);
    (1147, [1146]); (1149, [1148]); (1151, [1150]); (1153, [1152]);
    (1163, [1162]); (1165, [1164]); (1167, [1166]); (1169, [1168]);
    (1171, [1170]); (1173, [1172]); (1175, [1174]); (1177, [1176]);
    (1179, [1178]); (1181, [1180]); (1183, [1182]); (1185, [1184]);
    (1187, [1186]); (1189, [1188]); (1191, [1190]); (1193, [1192]);
    (1195, [1194]); (1197, [1196]); (1199, [1198]); (1201, [1200]);
    (1203, [1202]); (1205, [1204]); (1207, [1206]); (1209, [1208]);
    (1211, [1210]); (1213, [1212]); (1215, [1214]); (1218, [1217]);
    (1220, [1219]); (1222, [1221]); (1224, [1223]); (1226, [1225]);
    (1228, [1227]); (1230, [1229]); (1231, [1216]); (1233, [1232]);
    (1235, [1234]); (1237, [1236]); (1239, [1238]); (1241, [1240]);
    (1243, [1242]); (1245, [1244]); (1247, [1246]); (1249, [1248]);
    (1251, [1250]); (1253, [1252]); (1255, [1254]); (1257, [1256]);
    (1259, [1258]); (1261, [1260]); (1263, [1262]); (1265, [1264]);
    (1267, [1266]); (1269, [1268]); (1271, [1270]); (1273, [1272]);
    (1275, [1274]); (1277, [1276]); (1279, [1278]); (1281, [1280]);
    (1283, [1282]); (1285, [1284]); (1287, [1286]); (1289, [1288]);
    (1291, [1290]); (1293, [1292]); (1295, [1294]); (1297, [1296]);
    (1299, [1298]); (1301, [1300]); (1303, [1302]); (1305, [1304]);
    (1307, [1306]); (1309, [1308]); (1311, [1310]); (1313, [1312]);
    (1315, [1314]); (1317, [1316]); (1319, [1318]); (1321, [1320]);
    (1323, [1322]); (1325, [1324]); (1327, [1326]); (1377, [1329]);
    (1378, [1330]); (1379, [1331]); (1380, [1332]); (1381, [1333]);
    (1382, [1334]); (1383, [1335]); (1384, [1336]); (1385, [1337]);
    (1386, [1338]); (1387, [1339]); (1388, [1340]); (1389, [1341]);
    (1390, [1342]); (1391, [1343]); (1392, [1344]); (1393, [1345]);
    (1394, [1346]); (1395, [1347]); (1396, [1348]); (1397, [1349]);
    (1398, [1350]); (1399, [1351]); (1400, [1352]); (1401, [1353]);
    (1402, [1354]); (1403, [1355]); (1404, [1356]); (1405, [1357]);
    (1406, [1358]); (1407, [1359]); (1408, [1360]); (1409, [1361]);
    (1410, [1362]); (1411, [1363]); (1412, [1364]); (1413, [1365]);
    (1414, [1366]); (1415, [1333; 1362]); (4304, [7312]); (4305, [7313]);
    (4306, [7314]); (4307, [7315]); (4308, [7316]); (4309, [7317]);
    (4310, [7318]); (4311, [7319]); (4312, [7320]); (4313, [7321]);
    (4314, [7322]); (4315, [7323]); (4316, [7324]); (4317, [7325]);
    (4318, [7326]); (4319, [7327]); (4320, [7328]); (4321, [7329]);
    (4322, [7330]); (4323, [7331]); (4324, [7332]); (4325, [7333]);
    (4326, [7334]); (4327, [7335]); (4328, [7336]); (4329, [7337]);
    (4330, [7338]); (4331, [7339]); (4332, [7340]); (4333, [7341]);
    (4334, [7342]); (4335, [7343]); (4336, [7344]); (4337, [7345]);
    (4338, [7346]); (4339, [7347]); (4340, [7348]); (4341, [7349]);
    (4342, [7350]); (4343, [7351]); (4344, [7352]); (4345, [7353]);
    (4346, [7354]); (4349, [7357]); (4350, [7358]); (4351, [7359]);
    (5112, [5104]); (5113, [5105]); (5114, [5106]); (5115, [5107]);
    (5116, [5108]); (5117, [5109]); (7296, [1042]); (7297, [1044]);
    (7298, [1054]); (7299, [1057]); (7300, [1058]); (7301, [1058]);
    (7302, [1066]); (7303, [1122]); (7304, [42570]); (7545, [42877]);
    (7549, [11363]); (7566, [42950]); (7681, [7680]); (7683, [7682]);
    (7685, [7684]); (7687, [7686]); (7689, [7688]); (7691, [7690]);
    (7693, [7692]); (7695, [7694]); (7697, [7696]); (7699, [7698]);
    (7701, [7700]); (7703, [7702]); (7705, [7704]); (7707, [7706]);
    (7709, [7708]); (7711, [7710]); (7713, [7712]); (7715, [7714]);
    (7717, [7716]); (7719, [7718]); (7721, [7720]); (7723, [7722]);
    (7725, [7724]); (7727, [7726]); (7729, [7728]); (7731, [7730]);
    (7733, [7732]); (7735, [7734]); (7737, [7736]); (7739, [7738]);
    (7741, [7740]); (7743, [7742]); (7745, [7744]); (7747, [7746]);
    (7749, [7748]); (7751, [7750]); (7753, [7752]); (7755, [7754]);
    (7757, [7756]); (7759, [7758]); (7761, [7760]); (7763, [7762]);
    (7765, [7764]); (7767, [7766]); (7769, [7768]); (7771, [7770]);
    (7773, [7772]); (7775, [7774]); (7777, [7776]); (7779, [7778]);
    (7781, [7780]); (7783, [7782]); (7785, [7784]); (7787, [7786]);
    (7789, [7788]); (7791, [7790]); (7793, [7792]); (7795, [7794]);
    (7797, [7796]); (7799, [7798]); (7801, [7800]); (7803, [7802]);
    (7805, [7804]); (7807, [7806]); (7809, [7808]); (7811, [7810]);
    (7813, [7812]); (7815, [7814]); (7817, [7816]); (7819, [7818]);
    (7821, [7820]); (7823, [7822]); (7825, [7824]); (7827, [7826]);
    (7829, [7828]); (7830, [72; 817]); (7831, [84; 776]); (7832, [87; 778]);
    (7833, [89; 778]); (7834, [65; 702]); (7835, [7776]); (7841, [7840]);
    (7843, [7842]); (7845, [7844]); (7847, [7846]); (7849, [7848]);
    (7851, [7850]); (7853, [7852]); (7855, [7854]); (7857, [7856]);
    (7859, [7858]); (7861, [7860]); (7863, [7862]); (7865, [7864]);
    (7867, [7866]); (7869, [7868]); (7871, [7870]); (7873, [7872]);
    (7875, [7874]); (7877, [7876]); (7879, [7878]); (7881, [7880]);
    (7883, [7882]); (7885, [7884]); (7887, [7886]); (7889, [7888]);
    (7891, [7890]); (7893, [7892]); (7895, [7894]); (7897, [7896]);
    (7899, [7898]); (7901, [7900]); (7903, [7902]); (7905, [7904]);
    (7907, [7906]); (7909, [7908]); (7911, [7910]); (7913, [7912]);
    (7915, [7914]); (7917, [7916]); (7919, [7918]); (7921, [7920]);
    (7923, [7922]); (7925, [7924]); (7927, [7926]); (7929, [7928]);
    (7931, [7930]); (7933, [7932]); (7935, [7934]); (7936, [7944]);
    (7937, [7945]); (7938, [7946]); (7939, [7947]); (7940, [7948]);
    (7941, [7949]); (7942, [7950]); (7943, [7951]); (7952, [7960]);
    (7953, [7961]); (7954, [7962]); (7955, [7963]); (7956, [7964]);
    (7957, [7965]); (7968, [7976]); (7969, [7977]); (7970, [7978]);
    (7971, [7979]); (7972, [7980]); (7973, [7981]); (7974, [7982]);
    (7975, [7983]); (7984, [7992]); (7985, [7993]); (7986, [7994]);
    (7987, [7995]); (7988, [7996]); (7989, [7997]); (7990, [7998]);
    (7991, [7999]); (8000, [8008]); (8001, [8009]); (8002, [8010]);
    (8003, [8011]); (8004, [8012]); (8005, [8013]); (8016, [933; 787]);
    (8017, [8025]); (8018, [933; 787; 768]); (8019, [8027]);
    (8020, [933; 787; 769]); (8021, [8029]); (8022, [933; 787; 834]);
    (8023, [8031]); (8032, [8040]); (8033, [8041]); (8034, [8042]);
    (8035, [8043]); (8036, [8044]); (8037, [8045]); (8038, [8046]);
    (8039, [8047]); (8048, [8122]); (8049, [8123]); (8050, [8136]);
    (8051, [8137]); (8052, [8138]); (8053, [8139]); (8054, [8154]);
    (8055, [8155]); (8056, [8184]); (8057, [8185]); (8058, [8170]);
    (8059, [8171]); (8060, [8186]); (8061, [8187]); (8064, [7944; 921]);
    (8065, [7945; 921]); (8066, [7946; 921]); (8067, [7947; 921]);
    (8068, [7948; 921]); (8069, [7949; 921]); (8070, [7950; 921]);
    (8071, [7951; 921]); (8072, [7944; 921]); (8073, [7945; 921]);
    (8074, [7946; 921]); (8075, [7947; 921]); (8076, [7948; 921]);
    (8077, [7949; 921]); (8078, [7950; 921]); (8079, [7951; 921]);
    (8080, [7976; 921]); (8081, [7977; 921]); (8082, [7978; 921]);
    (8083, [7979; 921]); (8084, [7980; 921]); (8085, [7981; 921]);
    (8086, [7982; 921]); (8087, [7983; 921]); (8088, [7976; 921]);
    (8089, [7977; 921]); (8090, [7978; 921]); (8091, [7979; 921]);
    (8092, [7980; 921]); (8093, [7981; 921]); (8094, [7982; 921]);
    (8095, [7983; 921]); (8096, [8040; 921]); (8097, [8041; 921]);
    (8098, [8042; 921]); (8099, [8043; 921]); (8100, [8044; 921]);
    (8101, [8045; 921]); (8102, [8046; 921]); (8103, [8047; 921]);
    (8104, [8040; 921]); (8105, [8041; 921]); (8106, [8042; 921]);
    (8107, [8043; 921]); (8108, [8044; 921]); (8109, [8045; 921]);
    (8110, [8046; 921]); (8111, [8047; 921]); (8112, [8120]); (8113, [8121]);
    (8114, [8122; 921]); (8115, [913; 921]); (8116, [902; 921]);
    (8118, [913; 834]); (8119, [913; 834; 921]); (8124, [913; 921]);
    (8126, [921]); (8130, [8138; 921]); (8131, [919; 921]);
    (8132, [905; 921]); (8134, [919; 834]); (8135, [919; 834; 921]);
    (8140, [919; 921]); (8144, [8152]); (8145, [8153]);
    (8146, [921; 776; 768]); (8147, [921; 776; 769]); (8150, [921; 834]);
    (8151, [921; 776; 834]); (8160, [8168]); (8161, [8169]);
    (8162, [933; 776; 768]); (8163, [933; 776; 769]); (8164, [929; 787]);
    (8165, [8172]); (8166, [933; 834]); (8167, [933; 776; 834]);
    (8178, [8186; 921]); (8179, [937; 921]); (8180, [911; 921]);
    (8182, [937; 834]); (8183, [937; 834; 921]); (8188, [937; 921]);
    (8526, [8498]); (8560, [8544]); (8561, [8545]); (8562, [8546]);
    (8563, [8547]); (8564, [8548]); (8565, [8549]); (8566, [8550]);
    (8567, [8551]); (8568, [8552]); (8569, [8553]); (8570, [8554]);
    (8571, [8555]); (8572, [8556]); (8573, [8557]); (8574, [8558]);
    (8575, [8559]); (8580, [8579]); (9424, [9398]); (9425, [9399]);
    (9426, [9400]); (9427, [9401]); (9428, [9402]); (9429, [9403]);
    (9430, [9404]); (9431, [9405]); (9432, [9406]); (9433, [9407]);
    (9434, [9408]); (9435, [9409]); (9436, [9410]); (9437, [9411]);
    (9438, [9412]); (9439, [9413]); (9440, [9414]); (9441, [9415]);
    (9442, [9416]); (9443, [9417]); (9444, [9418]); (9445, [9419]);
    (9446, [9420]); (9447, [9421]); (9448, [9422]); (9449, [9423]);
    (11312, [11264]); (11313, [11265]); (11314, [11266]); (11315, [11267]);
    (11316, [11268]); (11317, [11269]); (11318, [11270]); (11319, [11271]);
    (11320, [11272]); (11321, [11273]); (11322, [11274]); (11323, [11275]);
    (11324, [11276]); (11325, [11277]); (11326, [11278]); (11327, [11279]);
    (11328, [11280]); (11329, [11281]); (11330, [11282]); (11331, [11283]);
    (11332, [11284]); (11333, [11285]); (11334, [11286]); (11335, [11287]);
    (11336, [11288]); (11337, [11289]); (11338, [11290]); (11339, [11291]);
    (11340, [11292]); (11341, [11293]); (11342, [11294]); (11343, [11295]);
    (11344, [11296]); (11345, [11297]); (11346, [11298]); (11347, [11299]);
    (11348, [11300]); (11349, [11301]); (11350, [11302]); (11351, [11303]);
    (11352, [11304]); (11353, [11305]); (11354, [11306]); (11355, [11307]);
    (11356, [11308]); (11357, [11309]); (11358, [11310]); (11359, [11311]);
    (11361, [11360]); (11365, [570]); (11366, [574]); (11368, [11367]);
    (11370, [11369]); (11372, [11371]); (11379, [11378]); (11382, [11381]);
    (11393, [11392]); (11395, [11394]); (11397, [11396]); (11399, [11398]);
    (11401, [11400]); (11403, [11402]); (11405, [11404]); (11407, [11406]);
    (11409, [11408]); (11411, [11410]); (11413, [11412]); (11415, [11414]);
    (11417, [11416]); (11419, [11418]); (11421, [11420]); (11423, [11422]);
    (11425, [11424]); (11427, [11426]); (11429, [11428]); (11431, [11430]);
    (11433, [11432]); (11435, [11434]); (11437, [11436]); (11439, [11438]);
    (11441, [11440]); (11443, [11442]); (11445, [11444]); (11447, [11446]);
    (11449, [11448]); (11451, [11450]); (11453, [11452]); (11455, [11454]);
    (11457, [11456]); (11459, [11458]); (11461, [11460]); (11463, [11462]);
    (11465, [11464]); (11467, [11466]); (11469, [11468]); (11471, [11470]);
    (11473, [11472]); (11475, [11474]); (11477, [11476]); (11479, [11478]);
    (11481, [11480]); (11483, [11482]); (11485, [11484]); (11487, [11486]);
    (11489, [11488]); (11491, [11490]); (11500, [11499]); (11502, [11501]);
    (11507, [11506]); (11520, [4256]); (11521, [4257]); (11522, [4258]);
    (11523, [4259]); (11524, [4260]); (11525, [4261]); (11526, [4262]);
    (11527, [4263]); (11528, [4264]); (11529, [4265]); (11530, [4266]);
    (11531, [4267]); (11532, [4268]); (11533, [4269]); (11534, [4270]);
    (11535, [4271]); (11536, [4272]); (11537, [4273]); (11538, [4274]);
    (11539, [4275]); (11540, [4276]); (11541, [4277]); (11542, [4278]);
    (11543, [4279]); (11544, [4280]); (11545, [4281]); (11546, [4282]);
    (11547, [4283]); (11548, [4284]); (11549, [4285]); (11550, [4286]);
    (11551, [4287]); (11552, [4288]); (11553, [4289]); (11554, [4290]);
    (11555, [4291]); (11556, [4292]); (11557, [4293]); (11559, [4295]);
    (11565, [4301]); (42561, [42560]); (42563, [42562]); (42565, [42564]);
    (42567, [42566]); (42569, [42568]); (42571, [42570]); (42573, [42572]);
    (42575, [42574]); (42577, [42576]); (42579, [42578]); (42581, [42580]);
    (42583, [42582]); (42585, [42584]); (42587, [42586]); (42589, [42588]);
    (42591, [42590]); (42593, [42592]); (42595, [42594]); (42597, [42596]);
    (42599, [42598]); (42601, [42600]); (42603, [42602]); (42605, [42604]);
    (42625, [42624]); (42627, [42626]); (42629, [42628]); (42631, [42630]);
    (42633, [42632]); (42635, [42634]); (42637, [42636]); (42639, [42638]);
    (42641, [42640]); (42643, [42642]); (42645, [42644]); (42647, [42646]);
    (42649, [42648]); (42651, [42650]); (42787, [42786]); (42789, [42788]);
    (42791, [42790]); (42793, [42792]); (42795, [42794]); (42797, [42796]);
    (42799, [42798]); (42803, [42802]); (42805, [42804]); (42807, [42806]);
    (42809, [42808]); (42811, [42810]); (42813, [42812]); (42815, [42814]);
    (42817, [42816]); (42819, [42818]); (42821, [42820]); (42823, [42822]);
    (42825, [42824]); (42827, [42826]); (42829, [42828]); (42831, [42830]);
    (42833, [42832]); (42835, [42834]); (42837, [42836]); (42839, [42838]);
    (42841, [42840]); (42843, [42842]); (42845, [42844]); (42847, [42846]);
    (42849, [42848]); (42851, [42850]); (42853, [42852]); (42855, [42854]);
    (42857, [42856]); (42859, [42858]); (42861, [42860]); (42863, [42862]);
    (42874, [42873]); (42876, [42875]); (42879, [42878]); (42881, [42880]);
    (42883, [42882]); (42885, [42884]); (42887, [42886]); (42892, [42891]);
    (42897, [42896]); (42899, [42898]); (42900, [42948]); (42903, [42902]);
    (42905, [42904]); (42907, [42906]); (42909, [42908]); (42911, [42910]);
    (42913, [42912]); (42915, [42914]); (42917, [42916]); (42919, [42918]);
    (42921, [42920]); (42933, [42932]); (42935, [42934]); (42937, [42936]);
    (42939, [42938]); (42941, [42940]); (42943, [42942]); (42945, [42944]);
    (42947, [42946]); (42952, [42951]); (42954, [42953]); (42961, [42960]);
    (42967, [42966]); (42969, [42968]); (42998, [42997]); (43859, [42931]);
    (43888, [5024]); (43889, [5025]); (43890, [5026]); (43891, [5027]);
    (43892, [5028]); (43893, [5029]); (43894, [5030]); (43895, [5031]);
    (43896, [5032]); (43897, [5033]); (43898, [5034]); (43899, [5035]);
    (43900, [5036]); (43901, [5037]); (43902, [5038]); (43903, [5039]);
    (43904, [5040]); (43905, [5041]); (43906, [5042]); (43907, [5043]);
    (43908, [5044]); (43909, [5045]); (43910, [5046]); (43911, [5047]);
    (43912, [5048]); (43913, [5049]); (43914, [5050]); (43915, [5051]);
    (43916, [5052]); (43917, [5053]); (43918, [5054]); (43919, [5055]);
    (43920, [5056]); (43921, [5057]); (43922, [5058]); (43923, [5059]);
    (43924, [5060]); (43925, [5061]); (43926, [5062]); (43927, [5063]);
    (43928, [5064]); (43929, [5065]); (43930, [5066]); (43931, [5067]);
    (43932, [5068]); (43933, [5069]); (43934, [5070]); (43935, [5071]);
    (43936, [5072]); (43937, [5073]); (43938, [5074]); (43939, [5075]);
    (43940, [5076]); (43941, [5077]); (43942, [5078]); (43943, [5079]);
    (43944, [5080]); (43945, [5081]); (43946, [5082]); (43947, [5083]);
    (43948, [5084]); (43949, [5085]); (43950, [5086]); (43951, [5087]);
    (43952, [5088]); (43953, [5089]); (43954, [5090]); (43955, [5091]);
    (43956, [5092]); (43957, [5093]); (43958, [5094]); (43959, [5095]);
    (43960, [5096]); (43961, [5097]); (43962, [5098]); (43963, [5099]);
    (43964, [5100]); (43965, [5101]); (43966, [5102]); (43967, [5103]);
    (64256, [70; 70]); (64257, [70; 73]); (64258, [70; 76]);
    (64259, [70; 70; 73]); (64260, [70; 70; 76]); (64261, [83; 84]);
    (64262, [83; 84]); (64275, [1348; 1350]); (64276, [1348; 1333]);
    (64277, [1348; 1339]); (64278, [1358; 1350]); (64279, [1348; 1341]);
    (65345, [65313]); (65346, [65314]); (65347, [65315]); (65348, [65316]);
    (65349, [65317]); (65350, [65318]); (65351, [65319]); (65352, [65320]);
    (65353, [65321]); (65354, [65322]); (65355, [65323]); (65356, [65324]);
    (65357, [65325]); (65358, [65326]); (65359, [65327]); (65360, [65328]);
    (65361, [65329]); (65362, [65330]); (65363, [65331]); (65364, [65332]);
    (65365, [65333]); (65366, [65334]); (65367, [65335]); (65368, [65336]);
    (65369, [65337]); (65370, [65338]); (66600, [66560]); (66601, [66561]);
    (66602, [66562]); (66603, [66563]); (66604, [66564]); (66605, [66565]);
    (66606, [66566]); (66607, [66567]); (66608, [66568]); (66609, [66569]);
    (66610, [66570]); (66611, [66571]); (66612, [66572]); (66613, [66573]);
    (66614, [66574]); (66615, [66575]); (66616, [66576]); (66617, [66577]);
    (66618, [66578]); (66619, [66579]); (66620, [66580]); (66621, [66581]);
    (66622, [66582]); (66623, [66583]); (66624, [66584]); (66625, [66585]);
    (66626, [66586]); (66627, [66587]); (66628, [66588]); (66629, [66589]);
    (66630, [66590]); (66631, [66591]); (66632, [66592]); (66633, [66593]);
    (66634, [66594]); (66635, [66595]); (66636, [66596]); (66637, [66597]);
    (66638, [66598]); (66639, [66599]); (66776, [66736]); (66777, [66737]);
    (66778, [66738]); (66779, [66739]); (66780, [66740]); (66781, [66741]);
    (66782, [66742]); (66783, [66743]); (66784, [66744]); (66785, [66745]);
    (66786, [66746]); (66787, [66747]); (66788, [66748]); (66789, [66749]);
    (66790, [66750]); (66791, [66751]); (66792, [66752]); (66793, [66753]);
    (66794, [66754]); (66795, [66755]); (66796, [66756]); (66797, [66757]);
    (66798, [66758]); (66799, [66759]); (66800, [66760]); (66801, [66761]);
    (66802, [66762]); (66803, [66763]); (66804, [66764]); (66805, [66765]);
    (66806, [66766]); (66807, [66767]); (66808, [66768]); (66809, [66769]);
    (66810, [66770]); (66811, [66771]); (66967, [66928]); (66968, [66929]);
    (66969, [66930]); (66970, [66931]); (66971, [66932]); (66972, [66933]);
    (66973, [66934]); (66974, [66935]); (66975, [66936]); (66976, [66937]);
    (66977, [66938]); (66979, [66940]); (66980, [66941]); (66981, [66942]);
    (66982, [66943]); (66983, [66944]); (66984, [66945]); (66985, [66946]);
    (66986, [66947]); (66987, [66948]); (66988, [66949]); (66989, [66950]);
    (66990, [66951]); (66991, [66952]); (66992, [66953]); (66993, [66954]);
    (66995, [66956]); (66996, [66957]); (66997, [66958]); (66998, [66959]);
    (66999, [66960]); (67000, [66961]); (67001, [66962]); (67003, [66964]);
    (67004, [66965]); (68800, [68736]); (68801, [68737]); (68802, [68738]);
    (68803, [68739]); (68804, [68740]); (68805, [68741]); (68806, [68742]);
    (68807, [68743]); (68808, [68744]); (68809, [68745]); (68810, [68746]);
    (68811, [68747]); (68812, [68748]); (68813, [68749]); (68814, [68750]);
    (68815, [68751]); (68816, [68752]); (68817, [68753]); (68818, [68754]);
    (68819, [68755]); (68820, [68756]); (68821, [68757]); (68822, [68758]);
    (68823, [68759]); (68824, [68760]); (68825, [68761]); (68826, [68762]);
    (68827, [68763]); (68828, [68764]); (68829, [68765]); (68830, [68766]);
    (68831, [68767]); (68832, [68768]); (68833, [68769]); (68834, [68770]);
    (68835, [68771]); (68836, [68772]); (68837, [68773]); (68838, [68774]);
    (68839, [68775]); (68840, [68776]); (68841, [68777]); (68842, [68778]);
    (68843, [68779]); (68844, [68780]); (68845, [68781]); (68846, [68782]);
    (68847, [68783]); (68848, [68784]); (68849, [68785]); (68850, [68786]);
    (71872, [71840]); (71873, [71841]); (71874, [71842]); (71875, [71843]);
    (71876, [71844]); (71877, [71845]); (71878, [71846]); (71879, [71847]);
    (71880, [71848]); (71881, [71849]); (71882, [71850]); (71883, [71851]);
    (71884, [71852]); (71885, [71853]); (71886, [71854]); (71887, [71855]);
    (71888, [71856]); (71889, [71857]); (71890, [71858]); (71891, [71859]);
    (71892, [71860]); (71893, [71861]); (71894, [71862]); (71895, [71863]);
    (71896, [71864]); (71897, [71865]); (71898, [71866]); (71899, [71867]);
    (71900, [71868]); (71901, [71869]); (71902, [71870]); (71903, [71871]);
    (93792, [93760]); (93793, [93761]); (93794, [93762]); (93795, [93763]);
    (93796, [93764]); (93797, [93765]); (93798, [93766]); (93799, [93767]);
    (93800, [93768]); (93801, [93769]); (93802, [93770]); (93803, [93771]);
    (93804, [93772]); (93805, [93773]); (93806, [93774]); (93807, [93775]);
    (93808, [93776]); (93809, [93777]); (93810, [93778]); (93811, [93779]);
    (93812, [93780]); (93813, [93781]); (93814, [93782]); (93815, [93783]);
    (93816, [93784]); (93817, [93785]); (93818, [93786]); (93819, [93787]);
    (93820, [93788]); (93821, [93789]); (93822, [93790]); (93823, [93791]);
    (125218, [125184]); (125219, [125185]); (125220, [125186]);
    (125221, [125187]); (125222, [125188]); (125223, [125189]);
    (125224, [125190]); (125225, [125191]); (125226, [125192]);
    (125227, [125193]); (125228, [125194]); (125229, [125195]);
    (125230, [125196]); (125231, [125197]); (125232, [125198]);
    (125233, [125199]); (125234, [125200]); (125235, [125201]);
    (125236, [125202]); (125237, [125203]); (125238, [125204]);
    (125239, [125205]); (125240, [125206]); (125241, [125207]);
    (125242, [125208]); (125243, [125209]); (125244, [125210]);
    (125245, [125211]); (125246, [125212]); (125247, [125213]);
    (125248, [125214]); (125249, [125215]); (125250, [125216]);
    (125251, [125217])
  ]%N.

(** [\d] of a [str] pattern: a decimal digit of any script. *)
Definition isdecimal (c : N) : bool :=
  existsb (fun r => between r.1 r.2 c) Nd.

(** [str.isspace] on one character, which is also [\s] of a [str]
    pattern and what [str.strip] removes. *)
Definition isspace (c : N) : bool := existsb (N.eqb c) White_Space.

(** [[A-Z]] under [re.IGNORECASE]: the letters of both cases and the
    four characters whose case folding is an ASCII letter (capital I
    with dot above, dotless i, long s, the Kelvin sign). *)
Definition isalpha_ignorecase (c : N) : bool :=
  isupper c || islower c || existsb (N.eqb c) [304; 305; 383; 8490]%N.

Fixpoint assoc {A} (c : N) (table : list (N * A)) : option A :=
  match table with
  | (k, v) :: rest => if (c =? k)%N then Some v else assoc c rest
  | [] => None
  end.

(** [c.upper()] for one character: the full case mapping, which may give
    several characters. *)
Definition upper_char (c : N) : ustr :=
  match assoc c uppercase with
  | Some v => v
  | None => [c]
  end.

(** [s.upper()] *)
Definition upper (s : ustr) : ustr := flat_map upper_char s.

(** [s.lstrip()], [s.rstrip()], [s.strip()] *)
Fixpoint lstrip (s : ustr) : ustr :=
  match s with
  | c :: s' => if isspace c then lstrip s' else s
  | [] => []
  end.

Definition rstrip (s : ustr) : ustr := rev (lstrip (rev s)).

Definition strip (s : ustr) : ustr := rstrip (lstrip s).

(** Truth value of a [str]. *)
Definition truthy (s : ustr) : bool :=
  match s with [] => false | _ => true end.

End PyUnicode.

(* ===================================================================== *)
(** * utils/cnpj_utils.py                                                *)
(* ===================================================================== *)

Module CnpjUtils.
Import PyUnicode.

(** [MASK_CHARACTERS = re.compile(r"[./-]")] *)
Definition MASK_CHARACTERS (c : N) : bool :=
  bool_decide (c = chr ".") || bool_decide (c = chr "/")
  || bool_decide (c = chr "-").

(** [INVALID_CHARACTERS = re.compile(r"[^A-Z\d./-]", re.IGNORECASE)] *)
Definition INVALID_CHARACTERS (c : N) : bool :=
  negb (isalpha_ignorecase c || isdecimal c || MASK_CHARACTERS c).

Definition BASE_LENGTH : nat := 12.

(** [pattern.search(s)] for a one-character class. *)
Definition search (cls : N -> bool) (s : ustr) : bool := existsb cls s.

(** [pattern.sub(empty, s)] for a one-character class: the matches are
    removed. *)
Definition sub_empty (cls : N -> bool) (s : ustr) : ustr :=
  filter (fun c => cls c = false) s.

(** Regex fragment [cls{n}]: consume exactly [n] characters of the class. *)
Fixpoint match_n (cls : N -> bool) (n : nat) (s : ustr) : option ustr :=
  match n with
  | O => Some s
  | S n' =>
      match s with
      | c :: s' => if cls c then match_n cls n' s' else None
      | [] => None
      end
  end.

(** Regex anchor [$] (no MULTILINE): at the end of the string, or just
    before a newline that ends the string. *)
Definition at_dollar (s : ustr) : bool :=
  match s with
  | [] => true
  | [c] => bool_decide (c = 10%N)
  | _ => false
  end.

(** [FULL_CNPJ_PATTERN = re.compile(r"^[A-Z\d]{12}\d{2}$")], [.match] *)
Definition FULL_CNPJ_PATTERN (s : ustr) : bool :=
  match match_n (fun c => isupper c || isdecimal c) 12 s with
  | Some s1 =>
      match match_n isdecimal 2 s1 with
      | Some s2 => at_dollar s2
      | None => false
      end
  | None => false
  end.

(** [BASE_CNPJ_PATTERN = re.compile(r"^[A-Z\d]{12}$")], [.match] *)
Definition BASE_CNPJ_PATTERN (s : ustr) : bool :=
  match match_n (fun c => isupper c || isdecimal c) 12 s with
  | Some s1 => at_dollar s1
  | None => false
  end.

(** [not cnpj or not cnpj.strip()] for [cnpj : Optional[str]] *)
Definition blank (cnpj : option ustr) : bool :=
  match cnpj with
  | None => true
  | Some s => negb (truthy s) || negb (truthy (strip s))
  end.

Definition remove_mask (cnpj : option ustr) : ustr :=
  match cnpj with
  | None => []
  | Some s =>
      if blank cnpj then []
      else upper (sub_empty MASK_CHARACTERS s)
  end.

Definition _is_repeated_sequence (cnpj : ustr) : bool :=
  match cnpj with
  | first_char :: _ =>
      if length cnpj <? 2 then false
      else forallb (fun c => bool_decide (c = first_char)) cnpj
  | [] => false
  end.

Definition is_valid_format (cnpj : option ustr) : bool :=
  if blank cnpj then false
  else if search INVALID_CHARACTERS (default [] cnpj) then false
  else
    let raw := remove_mask cnpj in
    if negb (length raw =? 14) then false
    else if negb (FULL_CNPJ_PATTERN raw) then false
    else if _is_repeated_sequence raw then false
    else true.

Inductive parse_result :=
| Parsed (basico ordem dv : ustr)
| ValueError (received : nat).

Definition parse_cnpj (cnpj : ustr) : parse_result :=
  let raw := remove_mask (Some cnpj) in
  if negb (length raw =? 14) then ValueError (length raw)
  else Parsed (take 8 raw) (take 4 (drop 8 raw)) (take 2 (drop 12 raw)).

(** ** The specification's wording of the codec (section 4.1) *)

(** [strip(s)]: removes [./-], uppercases. *)
Definition spec_strip (s : ustr) : ustr :=
  upper (filter (fun c => c <> chr "." /\ c <> chr "/" /\ c <> chr "-") s).

(** [matches [A-Z0-9]{12}[0-9]{2}] *)
Definition spec_matches (r : ustr) : Prop :=
  exists a b, r = a ++ b
    /\ length a = 12 /\ Forall (fun c => isupper c || isdigit c = true) a
    /\ length b = 2 /\ Forall (fun c => isdigit c = true) b.

(** [matches [A-Z\d]{12}\d{2}], with the classes as the patterns of the
    code read them: [\d] is a decimal digit of any script. *)
Definition pattern_matches (r : ustr) : Prop :=
  exists a b, r = a ++ b
    /\ length a = 12 /\ Forall (fun c => isupper c || isdecimal c = true) a
    /\ length b = 2 /\ Forall (fun c => isdecimal c = true) b.

(** a run of one character *)
Definition spec_run (r : ustr) : Prop := exists c n, r = replicate n c.

(** [valid(s)]: after strip, length = 14, matches the pattern, not a
    run of one character. *)
Definition spec_valid (s : ustr) : Prop :=
  let r := spec_strip s in
  length r = 14 /\ spec_matches r /\ ~ spec_run r.

(** Text of ASCII characters only. *)
Definition isascii (s : ustr) : Prop := Forall (fun c => (c < 128)%N) s.

End CnpjUtils.

(* ===================================================================== *)
(** * processors/parquet_ingestor.py: the projection query                *)
(* ===================================================================== *)

(** The document is built inside the engine by the SQL text that
    [_get_json_struct_fields] returns.  The embedding gives each SQL
    expression of that text its value on one row of the join: a
    [VARCHAR] is an [option str] ([None] is [NULL]), a struct is a
    record, a list is a list. *)

Module ParquetIngestor.

Abbreviation varchar := (option (list ascii)) (only parsing).

(** [COALESCE(x, d)] with a literal [d] *)
Definition COALESCE (x : varchar) (d : str) : varchar :=
  match x with Some v => Some v | None => Some d end.

(** [x IS NOT NULL] *)
Definition IS_NOT_NULL {A} (x : option A) : bool :=
  match x with Some _ => true | None => false end.

(** [a || b] *)
Definition concat (a b : varchar) : varchar :=
  match a, b with Some x, Some y => Some (x ++ y) | _, _ => None end.

(** [SUBSTRING(x, start, len)], positions from 1 *)
Definition SUBSTRING (x : varchar) (start len : nat) : varchar :=
  match x with Some v => Some (take len (drop (start - 1) v)) | None => None end.

(** [LPAD(x, count, pad)]: pads on the left with [pad] (repeated) up to
    [count] characters; a longer string is cut to its first [count]
    characters. *)
Definition LPAD (x : varchar) (count : nat) (pad : str) : varchar :=
  match x with
  | Some v =>
      if count <=? length v then Some (take count v)
      else
        let missing := count - length v in
        Some (take missing (List.concat (replicate missing pad)) ++ v)
  | None => None
  end.

(** [x ~ '^[0-9]{8}$'] *)
Definition matches_8_digits (x : varchar) : option bool :=
  match x with
  | Some v => Some ((length v =? 8) && forallb isdigit v)
  | None => None
  end.

(** [CASE x WHEN k1 THEN v1 ... ELSE e END]: the first [k] equal to [x];
    a [NULL] subject equals nothing. *)
Fixpoint CASE (x : varchar) (whens : list (str * str)) (els : varchar) : varchar :=
  match whens with
  | (k, v) :: rest =>
      match x with
      | Some s => if bool_decide (s = k) then Some v else CASE x rest els
      | None => CASE x rest els
      end
  | [] => els
  end.

(** [string_split(x, ',')] on a non-empty string *)
Fixpoint string_split_aux (sep : ascii) (cur : str) (s : str) : list str :=
  match s with
  | c :: s' =>
      if bool_decide (c = sep) then rev cur :: string_split_aux sep [] s'
      else string_split_aux sep (c :: cur) s'
  | [] => [rev cur]
  end.

Definition string_split (s : str) (sep : ascii) : list str :=
  string_split_aux sep [] s.

(** The columns of one row of
    [estabelecimento e LEFT JOIN empresa emp LEFT JOIN simples s
     LEFT JOIN natureza nat LEFT JOIN municipio mun LEFT JOIN socios_data sd]
    that the struct reads.  A side of a LEFT JOIN without a match has
    all its columns [NULL]. *)
Record telefone := {
  ddd : varchar;
  tel_numero : varchar;
  is_fax : bool }.

Record socio := {
  nome_socio : varchar;
  cnpj_cpf_socio : varchar;
  qualificacao_socio : varchar;
  data_entrada_sociedade : varchar;
  identificador_socio : varchar;
  faixa_etaria : varchar }.

Record joined_row := {
  e_cnpj_basico : varchar;
  e_cnpj_ordem : varchar;
  e_cnpj_dv : varchar;
  e_identificador_matriz_filial : varchar;
  e_nome_fantasia : varchar;
  e_situacao_cadastral : varchar;
  e_data_situacao_cadastral : varchar;
  e_data_inicio_atividade : varchar;
  e_cnae_principal : varchar;
  e_cnaes_secundarios : varchar;
  e_tipo_logradouro : varchar;
  e_logradouro : varchar;
  e_numero : varchar;
  e_complemento : varchar;
  e_bairro : varchar;
  e_cep : varchar;
  e_uf : varchar;
  e_ddd1 : varchar;
  e_telefone1 : varchar;
  e_ddd2 : varchar;
  e_telefone2 : varchar;
  e_ddd_fax : varchar;
  e_fax : varchar;
  e_correio_eletronico : varchar;
  emp_razao_social : varchar;
  emp_capital_social : varchar;
  emp_porte_empresa : varchar;
  s_opcao_simples : varchar;
  s_data_opcao_simples : varchar;
  s_opcao_mei : varchar;
  s_data_opcao_mei : varchar;
  nat_descricao : varchar;
  mun_descricao : varchar;
  sd_qsa_data : option (list socio) }.

(** The struct that [to_json(struct_pack(...))] serializes. *)
Record document := {
  cnpj : varchar;
  razao_social : varchar;
  nome_fantasia : varchar;
  situacao_cadastral : varchar;
  data_situacao_cadastral : varchar;
  matriz_filial : varchar;
  data_inicio_atividade : varchar;
  cnae_principal : varchar;
  cnaes_secundarios : list (list ascii);
  natureza_juridica : varchar;
  tipo_logradouro : varchar;
  logradouro : varchar;
  numero : varchar;
  complemento : varchar;
  bairro : varchar;
  cep : varchar;
  uf : varchar;
  municipio : varchar;
  email : varchar;
  telefones : list telefone;
  capital_social : varchar;
  porte_empresa : varchar;
  opcao_simples : varchar;
  data_opcao_simples : varchar;
  opcao_mei : varchar;
  data_opcao_mei : varchar;
  QSA : list socio }.

(** [CASE WHEN x ~ '^[0-9]{8}$'
         THEN SUBSTRING(x,1,4) || '-' || SUBSTRING(x,5,2) || '-' || SUBSTRING(x,7,2)
         ELSE COALESCE(x, '') END] *)
Definition iso_date (x : varchar) : varchar :=
  match matches_8_digits x with
  | Some true =>
      concat (concat (concat (concat (SUBSTRING x 1 4) (Some (lit "-")))
                             (SUBSTRING x 5 2)) (Some (lit "-")))
             (SUBSTRING x 7 2)
  | _ => COALESCE x []
  end.

(** [CASE WHEN d IS NOT NULL OR t IS NOT NULL
         THEN struct_pack(ddd := COALESCE(d,''), numero := COALESCE(t,''), is_fax := f)
         ELSE NULL END] *)
Definition phone_slot (d t : varchar) (f : bool) : option telefone :=
  if IS_NOT_NULL d || IS_NOT_NULL t
  then Some {| ddd := COALESCE d []; tel_numero := COALESCE t []; is_fax := f |}
  else None.

(** The status table of the query. *)
Definition status_table : list (str * str) :=
  [ (lit "01", lit "Nula"); (lit "02", lit "Ativa"); (lit "03", lit "Suspensa");
    (lit "04", lit "Inapta"); (lit "08", lit "Baixada") ].

(** [CASE LPAD(e.situacao_cadastral, 2, '0') WHEN '01' THEN 'Nula' ...
     ELSE e.situacao_cadastral END] *)
Definition situacao_cadastral_expr (x : varchar) : varchar :=
  CASE (LPAD x 2 (lit "0")) status_table x.

(** [CASE e.identificador_matriz_filial WHEN '1' THEN 'Matriz'
     WHEN '2' THEN 'Filial' ELSE e.identificador_matriz_filial END] *)
Definition matriz_filial_expr (x : varchar) : varchar :=
  CASE x [ (lit "1", lit "Matriz"); (lit "2", lit "Filial") ] x.

(** [CASE emp.porte_empresa WHEN '00' THEN ... ELSE COALESCE(emp.porte_empresa, '') END]
    (a letter outside ASCII stands as its UTF-8 bytes) *)
Definition porte_empresa_expr (x : varchar) : varchar :=
  CASE x [ (lit "00", lit "Não informado"); (lit "01", lit "Microempresa (ME)");
           (lit "03", lit "Empresa de Pequeno Porte (EPP)"); (lit "05", lit "Demais") ]
       (COALESCE x []).

Definition _get_json_struct_fields (r : joined_row) : document :=
  {| cnpj := concat (concat (e_cnpj_basico r) (e_cnpj_ordem r)) (e_cnpj_dv r);
     razao_social := COALESCE (emp_razao_social r) [];
     nome_fantasia := COALESCE (e_nome_fantasia r) [];
     situacao_cadastral := situacao_cadastral_expr (e_situacao_cadastral r);
     data_situacao_cadastral := iso_date (e_data_situacao_cadastral r);
     matriz_filial := matriz_filial_expr (e_identificador_matriz_filial r);
     data_inicio_atividade := iso_date (e_data_inicio_atividade r);
     cnae_principal := COALESCE (e_cnae_principal r) [];
     cnaes_secundarios :=
       match e_cnaes_secundarios r with
       | Some (c :: s) => string_split (c :: s) ","%char
       | _ => []
       end;
     natureza_juridica := COALESCE (nat_descricao r) [];
     tipo_logradouro := COALESCE (e_tipo_logradouro r) [];
     logradouro := COALESCE (e_logradouro r) [];
     numero := COALESCE (e_numero r) [];
     complemento := COALESCE (e_complemento r) [];
     bairro := COALESCE (e_bairro r) [];
     cep := COALESCE (e_cep r) [];
     uf := COALESCE (e_uf r) [];
     municipio := COALESCE (mun_descricao r) [];
     email := COALESCE (e_correio_eletronico r) [];
     telefones :=
       omap id [ phone_slot (e_ddd1 r) (e_telefone1 r) false;
                 phone_slot (e_ddd2 r) (e_telefone2 r) false;
                 phone_slot (e_ddd_fax r) (e_fax r) true ];
     capital_social := COALESCE (emp_capital_social r) [];
     porte_empresa := porte_empresa_expr (emp_porte_empresa r);
     opcao_simples := COALESCE (s_opcao_simples r) [];
     data_opcao_simples := iso_date (s_data_opcao_simples r);
     opcao_mei := COALESCE (s_opcao_mei r) [];
     data_opcao_mei := iso_date (s_data_opcao_mei r);
     QSA := default [] (sd_qsa_data r) |}.

(** The string-typed fields of the document, by name. *)
Definition string_fields (d : document) : list (string * varchar) :=
  [ ("cnpj", cnpj d); ("razao_social", razao_social d);
    ("nome_fantasia", nome_fantasia d);
    ("situacao_cadastral", situacao_cadastral d);
    ("data_situacao_cadastral", data_situacao_cadastral d);
    ("matriz_filial", matriz_filial d);
    ("data_inicio_atividade", data_inicio_atividade d);
    ("cnae_principal", cnae_principal d);
    ("natureza_juridica", natureza_juridica d);
    ("tipo_logradouro", tipo_logradouro d); ("logradouro", logradouro d);
    ("numero", numero d); ("complemento", complemento d);
    ("bairro", bairro d); ("cep", cep d); ("uf", uf d);
    ("municipio", municipio d); ("email", email d);
    ("capital_social", capital_social d); ("porte_empresa", porte_empresa d);
    ("opcao_simples", opcao_simples d);
    ("data_opcao_simples", data_opcao_simples d);
    ("opcao_mei", opcao_mei d); ("data_opcao_mei", data_opcao_mei d) ]%string.

(** An establishment row of which only the identifier is known: every
    other column is [NULL] (a CSV field left empty, a LEFT JOIN without
    a match). *)
Definition bare_row (basico ordem dv : str) : joined_row :=
  {| e_cnpj_basico := Some basico; e_cnpj_ordem := Some ordem; e_cnpj_dv := Some dv;
     e_identificador_matriz_filial := None; e_nome_fantasia := None;
     e_situacao_cadastral := None; e_data_situacao_cadastral := None;
     e_data_inicio_atividade := None; e_cnae_principal := None;
     e_cnaes_secundarios := None; e_tipo_logradouro := None; e_logradouro := None;
     e_numero := None; e_complemento := None; e_bairro := None; e_cep := None;
     e_uf := None; e_ddd1 := None; e_telefone1 := None; e_ddd2 := None;
     e_telefone2 := None; e_ddd_fax := None; e_fax := None;
     e_correio_eletronico := None; emp_razao_social := None;
     emp_capital_social := None; emp_porte_empresa := None;
     s_opcao_simples := None; s_data_opcao_simples := None; s_opcao_mei := None;
     s_data_opcao_mei := None; nat_descricao := None; mun_descricao := None;
     sd_qsa_data := None |}.

(** ** The specification's wording of the status translation (section 6) *)

(** Status: [01 -> Nula, 02 -> Ativa, 03 -> Suspensa, 04 -> Inapta,
    08 -> Baixada]; no other code is translated. *)
Definition spec_status (code : str) : option str :=
  if bool_decide (code = lit "01") then Some (lit "Nula")
  else if bool_decide (code = lit "02") then Some (lit "Ativa")
  else if bool_decide (code = lit "03") then Some (lit "Suspensa")
  else if bool_decide (code = lit "04") then Some (lit "Inapta")
  else if bool_decide (code = lit "08") then Some (lit "Baixada")
  else None.

(** A code brought to two characters: zeros are put in front of a
    shorter code, a longer code keeps its first two characters. *)
Definition two_chars (code : str) : str :=
  match code with
  | [] => lit "00"
  | [c] => ["0"%char; c]
  | c1 :: c2 :: _ => [c1; c2]
  end.

(** ** The partitions, the single-identifier query and the partner
    aggregate *)

(** [f"{i:02d}"]: the decimal digits of [i], with zeros in front up to
    two characters. *)
Definition format_02d (i : nat) : str :=
  let ds := lit (NilZero.string_of_uint (Nat.to_uint i)) in
  replicate (2 - length ds) "0"%char ++ ds.

(** [prefixes = [f"{i:02d}" for i in range(100)]] *)
Definition prefixes : list str := map format_02d (seq 0 100).

(** [SUBSTRING(cnpj_basico, 1, 2) as cnpj_prefix], the column the
    partitioned tables are written by. *)
Definition cnpj_prefix (cnpj_basico : varchar) : varchar :=
  SUBSTRING cnpj_basico 1 2.

(** [WHERE e.cnpj_prefix = '{prefix}'], for a [prefix] of the partition
    loop (two digits, which between the quotes are the SQL literal of
    that text): the comparison of two texts; a [NULL] prefix equals
    nothing. *)
Definition in_partition (prefix : str) (r : joined_row) : bool :=
  match cnpj_prefix (e_cnpj_basico r) with
  | Some p => bool_decide (p = prefix)
  | None => false
  end.

(** The text ['{part}'] of an f-string, for a Python [str] [part]
    pasted as it is between two quotes.  The text is the SQL string
    literal of [part] when [part] holds no quote.  A quote in [part]
    ends the literal there: what follows is read as SQL, the text is
    another query, and the embedding does not read it ([None]).  The SQL
    text of the embedding is ASCII, without NUL: a part with another
    character is not read either. *)
Definition quoted (part : PyUnicode.ustr) : option str :=
  if forallb (fun c => (0 <? c)%N && (c <? 128)%N && negb (c =? 39)%N) part
  then Some (map ascii_of_N part)
  else None.

(** [WHERE e.cnpj_basico = '{cnpj_basico}' AND e.cnpj_ordem = '{cnpj_ordem}'
     AND e.cnpj_dv = '{cnpj_dv}'], with the three parts pasted into the
    text of the query: whether the clause selects [r], when the text is
    the comparison with three literals. *)
Definition is_cnpj (cnpj_basico cnpj_ordem cnpj_dv : PyUnicode.ustr) (r : joined_row)
  : option bool :=
  match quoted cnpj_basico, quoted cnpj_ordem, quoted cnpj_dv with
  | Some basico, Some ordem, Some dv =>
      Some (bool_decide (e_cnpj_basico r = Some basico)
            && bool_decide (e_cnpj_ordem r = Some ordem)
            && bool_decide (e_cnpj_dv r = Some dv))
  | _, _, _ => None
  end.

(** One row of [socio s LEFT JOIN qualificacao qs ON
    s.qualificacao_socio = qs.codigo]: the columns the aggregate reads. *)
Record socio_row := {
  s_cnpj_basico : varchar;
  s_nome_socio : varchar;
  s_cnpj_cpf_socio : varchar;
  qs_descricao : varchar;
  s_data_entrada_sociedade : varchar;
  s_identificador_socio : varchar;
  s_faixa_etaria : varchar }.

(** [CASE s.identificador_socio WHEN '1' THEN ... ELSE
     COALESCE(s.identificador_socio, '') END] *)
Definition identificador_socio_expr (x : varchar) : varchar :=
  CASE x [ (lit "1", lit "Pessoa Jurídica"); (lit "2", lit "Pessoa Física");
           (lit "3", lit "Estrangeiro") ]
       (COALESCE x []).

(** [CASE s.faixa_etaria WHEN '0' THEN ... ELSE COALESCE(s.faixa_etaria, '') END] *)
Definition faixa_etaria_expr (x : varchar) : varchar :=
  CASE x [ (lit "0", lit "Não se aplica"); (lit "1", lit "0 a 12 anos");
           (lit "2", lit "13 a 20 anos"); (lit "3", lit "21 a 30 anos");
           (lit "4", lit "31 a 40 anos"); (lit "5", lit "41 a 50 anos");
           (lit "6", lit "51 a 60 anos"); (lit "7", lit "61 a 70 anos");
           (lit "8", lit "71 a 80 anos"); (lit "9", lit "Mais de 80 anos") ]
       (COALESCE x []).

(** The [struct_pack] of the aggregate. *)
Definition socio_struct (s : socio_row) : socio :=
  {| nome_socio := COALESCE (s_nome_socio s) [];
     cnpj_cpf_socio := COALESCE (s_cnpj_cpf_socio s) [];
     qualificacao_socio := COALESCE (qs_descricao s) [];
     data_entrada_sociedade := iso_date (s_data_entrada_sociedade s);
     identificador_socio := identificador_socio_expr (s_identificador_socio s);
     faixa_etaria := faixa_etaria_expr (s_faixa_etaria s) |}.

(** [SELECT s.cnpj_basico, array_agg(struct_pack(...)) as qsa_data ...
     GROUP BY s.cnpj_basico] over the [selected] partner rows, read
    through [LEFT JOIN socios_data sd ON e.cnpj_basico = sd.cnpj_basico]:
    the [qsa_data] joined to an establishment, [NULL] when no group has
    its [cnpj_basico].  [array_agg] has no [ORDER BY]: the order in
    which a group is listed is the engine's, one run of one query at a
    time; [arrange] is that order. *)
Definition qsa_data (arrange : list socio_row -> list socio_row)
    (selected : list socio_row) (e_cnpj_basico : varchar)
  : option (list socio) :=
  match e_cnpj_basico with
  | Some b =>
      match filter (fun s => s_cnpj_basico s = Some b) selected with
      | [] => None
      | group => Some (map socio_struct (arrange group))
      end
  | None => None
  end.

(** What is known of the engine's order: the rows of a group, each one
    once. *)
Definition arrangement (arrange : list socio_row -> list socio_row) : Prop :=
  forall group, arrange group ≡ₚ group.

(** [socios_data] of [_build_json_query_for_prefix]:
    [WHERE s.cnpj_prefix = '{prefix}'], for a [prefix] of the partition
    loop *)
Definition socios_data_for_prefix (arrange : list socio_row -> list socio_row)
    (socios : list socio_row) (prefix : str)
  : varchar -> option (list socio) :=
  qsa_data arrange
    (filter (fun s => cnpj_prefix (s_cnpj_basico s) = Some prefix) socios).

(** [socios_data] of [_build_json_query_for_cnpj]:
    [WHERE s.cnpj_basico = '{cnpj_basico}'], with the base pasted into
    the text of the query *)
Definition socios_data_for_cnpj (arrange : list socio_row -> list socio_row)
    (socios : list socio_row) (cnpj_basico : PyUnicode.ustr)
  : option (varchar -> option (list socio)) :=
  match quoted cnpj_basico with
  | Some basico =>
      Some (qsa_data arrange
              (filter (fun s => s_cnpj_basico s = Some basico) socios))
  | None => None
  end.

End ParquetIngestor.

(* ===================================================================== *)
(** * Coroutines of one asyncio task                                      *)
(* ===================================================================== *)

(** An [async def] body is a state transformer that returns, raises, or
    stays suspended on an [await] that nothing can resume ([Blocked]):
    the run of one task, with no other task to hand it a lock.  A run
    that goes on through a part of the machine that the state does not
    describe (a file opened through a path that leads out of the scratch
    directory) is [Outside]: the embedding does not follow it. *)

Module Task.

(** [OSError] stands for the class and its subclasses
    ([FileNotFoundError], [NotADirectoryError]). *)
Inductive exn :=
| RuntimeError (msg : string)
| AttributeError (msg : string)
| ValueError (msg : string)
| OSError.

Inductive outcome (S A : Type) : Type :=
| Returned (a : A) (s : S)
| Raised (e : exn) (s : S)
| Blocked (s : S)
| Outside (s : S).
Arguments Returned {S A} a s.
Arguments Raised {S A} e s.
Arguments Blocked {S A} s.
Arguments Outside {S A} s.

Definition task (S A : Type) : Type := S -> outcome S A.

Definition ret {S A} (a : A) : task S A := fun s => Returned a s.

Definition bind {S A B} (m : task S A) (k : A -> task S B) : task S B :=
  fun s =>
    match m s with
    | Returned a s' => k a s'
    | Raised e s' => Raised e s'
    | Blocked s' => Blocked s'
    | Outside s' => Outside s'
    end.

Definition raise {S A} (e : exn) : task S A := fun s => Raised e s.

Definition get_state {S} : task S S := fun s => Returned s s.

Definition modify {S} (f : S -> S) : task S unit := fun s => Returned tt (f s).

(** [try: m finally: fin] *)
Definition try_finally {S A} (m : task S A) (fin : task S unit) : task S A :=
  fun s =>
    match m s with
    | Returned a s' =>
        match fin s' with
        | Returned _ s'' => Returned a s''
        | Raised e s'' => Raised e s''
        | Blocked s'' => Blocked s''
        | Outside s'' => Outside s''
        end
    | Raised e s' =>
        match fin s' with
        | Returned _ s'' => Raised e s''
        | Raised e' s'' => Raised e' s''
        | Blocked s'' => Blocked s''
        | Outside s'' => Outside s''
        end
    | Blocked s' => Blocked s'
    | Outside s' => Outside s'
    end.

(** [for x in l: body(x)] *)
Fixpoint for_each {S A} (l : list A) (body : A -> task S unit) : task S unit :=
  match l with
  | [] => ret tt
  | x :: l' => bind (body x) (fun _ => for_each l' body)
  end.

(** [range(0, stop, step)] *)
Definition range_step (stop step : nat) : list nat :=
  map (fun k => k * step) (seq 0 ((stop + step - 1) / step)).

End Task.

Import Task.

Notation "x <- m ;; k" := (bind m (fun x => k))
  (at level 100, m at next level, right associativity).
Notation "m ;;; k" := (bind m (fun _ => k))
  (at level 100, right associativity).

(* ===================================================================== *)
(** * utils/hash_cache_manager.py                                        *)
(* ===================================================================== *)

Module HashCacheManager.

Record ProcessedItem := {
  cnpj : list ascii;
  json : list ascii;
  hash : list ascii }.

(** The [hashes] table behind the sqlite3 connection: [cnpj] is the
    primary key, so the table is a finite map from [cnpj] to [hash]
    ([created_at] is filled by the engine and never read).  [rows] is
    what the connection sees, [committed] what the last [commit()] made
    durable. *)
Record connection := {
  rows : gmap (list ascii) (list ascii);
  committed : gmap (list ascii) (list ascii) }.

(** The class attributes. *)
Record state := {
  _connection : option connection;
  _current_transaction : bool;          (* [None] / [True] *)
  _pending_inserts : nat;
  _initialized : bool;
  _lock : bool }.                       (* [asyncio.Lock]: is it locked *)

Definition BATCH_SIZE : nat := 10000.

Definition set_connection (c : option connection) (st : state) : state :=
  {| _connection := c; _current_transaction := _current_transaction st;
     _pending_inserts := _pending_inserts st; _initialized := _initialized st;
     _lock := _lock st |}.

Definition set_current_transaction (b : bool) (st : state) : state :=
  {| _connection := _connection st; _current_transaction := b;
     _pending_inserts := _pending_inserts st; _initialized := _initialized st;
     _lock := _lock st |}.

Definition set_pending_inserts (n : nat) (st : state) : state :=
  {| _connection := _connection st; _current_transaction := _current_transaction st;
     _pending_inserts := n; _initialized := _initialized st; _lock := _lock st |}.

Definition set_initialized (b : bool) (st : state) : state :=
  {| _connection := _connection st; _current_transaction := _current_transaction st;
     _pending_inserts := _pending_inserts st; _initialized := b; _lock := _lock st |}.

Definition set_lock (b : bool) (st : state) : state :=
  {| _connection := _connection st; _current_transaction := _current_transaction st;
     _pending_inserts := _pending_inserts st; _initialized := _initialized st;
     _lock := b |}.

(** The state [initialize_database] leaves when the database file holds
    the table [db]: an open connection, no transaction, the lock free. *)
Definition initialized_with (db : gmap (list ascii) (list ascii)) : state :=
  {| _connection := Some {| rows := db; committed := db |};
     _current_transaction := false; _pending_inserts := 0;
     _initialized := true; _lock := false |}.

(** [await cls._lock.acquire()].  [asyncio.Lock] is not reentrant: when
    the lock is taken the caller waits for a [release()], and the task
    that holds it is the waiting one. *)
Definition acquire : task state unit :=
  fun st => if _lock st then Blocked st else Returned tt (set_lock true st).

(** [cls._lock.release()] *)
Definition release : task state unit :=
  fun st =>
    if _lock st then Returned tt (set_lock false st)
    else Raised (RuntimeError "Lock is not acquired.") st.

(** [async with cls._lock: body] *)
Definition with_lock {A} (body : task state A) : task state A :=
  acquire ;;; try_finally body release.

(** [cls._connection.cursor()] / [cls._connection.commit()] need a connection. *)
Definition the_connection : task state connection :=
  fun st =>
    match _connection st with
    | Some c => Returned c st
    | None => Raised (AttributeError "'NoneType' object has no attribute") st
    end.

(** [SELECT cnpj, hash FROM hashes WHERE cnpj IN (...)] read into
    [{row[0]: row[1] for row in cursor.fetchall()}] *)
Definition select_in (c : connection) (cnpjs : list (list ascii))
  : gmap (list ascii) (list ascii) :=
  filter (fun kv => kv.1 ∈ cnpjs) (rows c).

Definition check_batch_size : nat := 500.

(** One turn of [for item in batch]: the items yielded so far and the
    two counters. *)
Definition check_item (existing_hashes : gmap (list ascii) (list ascii))
    (acc : list ProcessedItem * nat * nat) (item : ProcessedItem)
  : list ProcessedItem * nat * nat :=
  let '(yielded, new_count, update_count) := acc in
  match existing_hashes !! cnpj item with
  | None => (yielded ++ [item], new_count + 1, update_count)
  | Some h =>
      if bool_decide (h <> hash item)
      then (yielded ++ [item], new_count, update_count + 1)
      else acc
  end.

(** One turn of [for i in range(0, len(items), check_batch_size)] *)
Definition check_batch (c : connection) (items : list ProcessedItem)
    (acc : list ProcessedItem * nat * nat) (i : nat)
  : list ProcessedItem * nat * nat :=
  let batch := take check_batch_size (drop i items) in
  let cnpjs := map cnpj batch in
  let existing_hashes := select_in c cnpjs in
  foldl (check_item existing_hashes) acc batch.

(** The async generator, with the items it yields collected in order
    (its consumer appends each one to a list); the counters are what the
    final message prints. *)
Definition get_items_to_process_async (items : list ProcessedItem)
  : task state (list ProcessedItem * nat * nat) :=
  st <- get_state ;;
  if negb (_initialized st) || negb (bool_decide (is_Some (_connection st)))
  then raise (RuntimeError "Database not initialized")
  else
    with_lock (
      cursor <- the_connection ;;
      ret (foldl (check_batch cursor items) ([], 0, 0)
                 (range_step (length items) check_batch_size))).

Definition _commit_batch_async : task state unit :=
  st <- get_state ;;
  if _current_transaction st then
    c <- the_connection ;;
    modify (set_connection (Some {| rows := rows c; committed := rows c |})) ;;;
    modify (set_current_transaction false) ;;;
    modify (set_pending_inserts 0)
  else ret tt.

Definition add_async (cnpj hash_value : list ascii) : task state unit :=
  acquire ;;;
  try_finally (
    st <- get_state ;;
    (if _current_transaction st then ret tt
     else modify (set_current_transaction true)) ;;;
    c <- the_connection ;;
    (* INSERT OR REPLACE INTO hashes (cnpj, hash) VALUES (?, ?) *)
    modify (set_connection
              (Some {| rows := <[cnpj := hash_value]> (rows c);
                       committed := committed c |})) ;;;
    modify (fun st => set_pending_inserts (_pending_inserts st + 1) st) ;;;
    st <- get_state ;;
    if BATCH_SIZE <=? _pending_inserts st then _commit_batch_async else ret tt)
  release.

Definition add_batch_async (items : list ProcessedItem) : task state unit :=
  with_lock (
    for_each items (fun item => add_async (cnpj item) (hash item)) ;;;
    _commit_batch_async).

Definition close_connections : task state unit :=
  modify (set_connection None) ;;;
  modify (set_initialized false).

(** ** The specification's wording of [diff] (section 4.3) *)

(** An input is kept when it is (a) absent, or (b) present with a
    different hash. *)
Definition spec_changed (catalog : gmap (list ascii) (list ascii))
    (item : ProcessedItem) : Prop :=
  catalog !! cnpj item = None \/
  exists h, catalog !! cnpj item = Some h /\ h <> hash item.

#[global] Instance spec_changed_dec catalog item : Decision (spec_changed catalog item).
Proof.
  unfold spec_changed. destruct (catalog !! cnpj item) as [h|].
  - destruct (decide (h = hash item)) as [E|N].
    + right. intros [H|(h' & [= <-] & H)]; [discriminate|contradiction].
    + left. right. exists h. split; [reflexivity|exact N].
  - left. left. reflexivity.
Defined.

(** (a) absent: counted as new; (b) present with a different hash:
    counted as an update. *)
Definition absent (catalog : gmap (list ascii) (list ascii))
    (item : ProcessedItem) : Prop :=
  catalog !! cnpj item = None.

Definition outdated (catalog : gmap (list ascii) (list ascii))
    (item : ProcessedItem) : Prop :=
  exists h, catalog !! cnpj item = Some h /\ h <> hash item.

#[global] Instance outdated_dec catalog item : Decision (outdated catalog item).
Proof.
  unfold outdated. destruct (catalog !! cnpj item) as [h|].
  - destruct (decide (h = hash item)) as [E|N].
    + right. intros (h' & [= <-] & H). contradiction.
    + left. eauto.
  - right. intros (h & H & _). discriminate.
Defined.

(** A catalog of two rows and three inputs: one unchanged, one with a
    new hash, one unknown. *)
Definition catalog0 : gmap (list ascii) (list ascii) :=
  <[lit "11222333000181" := lit "aaaa"]> (<[lit "11222333000262" := lit "bbbb"]> ∅).

Definition items0 : list ProcessedItem :=
  [ {| cnpj := lit "11222333000181"; json := lit "{}"; hash := lit "aaaa" |};
    {| cnpj := lit "11222333000262"; json := lit "{}"; hash := lit "cccc" |};
    {| cnpj := lit "11222333000343"; json := lit "{}"; hash := lit "dddd" |} ].

(** The [hashes] table after
    [INSERT OR REPLACE INTO hashes (cnpj, hash) VALUES (?, ?)] for each
    item, in order. *)
Definition recorded (db : gmap (list ascii) (list ascii)) (items : list ProcessedItem)
  : gmap (list ascii) (list ascii) :=
  foldl (fun db item => <[cnpj item := hash item]> db) db items.

End HashCacheManager.

(* ===================================================================== *)
(** * JSON values and the [json] module                                   *)
(* ===================================================================== *)

Module Json.

(** What [json.loads] returns: [None], [bool], [int], [float] (named by
    its [repr], the text [json.dumps] writes for it), [str], [list] and
    [dict].  A [dict] keeps its keys in insertion order. *)
Inductive JsonValue :=
| JNull
| JBool (b : bool)
| JInt (n : Z)
| JFloat (repr : list ascii)
| JStr (s : list ascii)
| JList (items : list JsonValue)
| JDict (pairs : list (list ascii * JsonValue)).

(** Truth value: [not v] holds for [None], [False], zero and the empty
    string, list and dict. *)
Definition truthy_value (v : JsonValue) : bool :=
  match v with
  | JNull => false
  | JBool b => b
  | JInt n => negb (n =? 0)%Z
  | JFloat r => negb (bool_decide (r = lit "0.0") || bool_decide (r = lit "-0.0"))
  | JStr s => truthy s
  | JList items => match items with [] => false | _ => true end
  | JDict pairs => match pairs with [] => false | _ => true end
  end.

(** [d.get(key)] on the pairs of a dict: the value, or [None]. *)
Fixpoint dict_get (key : list ascii) (pairs : list (list ascii * JsonValue))
  : option JsonValue :=
  match pairs with
  | (k, v) :: rest => if bool_decide (k = key) then Some v else dict_get key rest
  | [] => None
  end.

(** [d[key] = v]: a key already present keeps its place. *)
Fixpoint dict_set (key : list ascii) (v : JsonValue)
    (pairs : list (list ascii * JsonValue)) : list (list ascii * JsonValue) :=
  match pairs with
  | (k, x) :: rest =>
      if bool_decide (k = key) then (k, v) :: rest
      else (k, x) :: dict_set key v rest
  | [] => [(key, v)]
  end.

(** [dict(pairs)] *)
Definition dict_of_pairs (pairs : list (list ascii * JsonValue))
  : list (list ascii * JsonValue) :=
  foldl (fun d kv => dict_set kv.1 kv.2 d) [] pairs.

(** [needle in haystack] for two strings *)
Fixpoint startswith (needle s : list ascii) : bool :=
  match needle, s with
  | [], _ => true
  | c :: needle', d :: s' => bool_decide (c = d) && startswith needle' s'
  | _ :: _, [] => false
  end.

Fixpoint str_contains (needle s : list ascii) : bool :=
  startswith needle s ||
  match s with
  | _ :: s' => str_contains needle s'
  | [] => false
  end.

(** [key in data]; [None] is the [TypeError] of a value that is not a
    container. *)
Definition contains (data : JsonValue) (key : list ascii) : option bool :=
  match data with
  | JDict pairs => Some (bool_decide (is_Some (dict_get key pairs)))
  | JList items =>
      Some (existsb (fun x => match x with
                              | JStr s => bool_decide (s = key)
                              | _ => false
                              end) items)
  | JStr s => Some (str_contains key s)
  | _ => None
  end.

(** [data[key]] with a [str] key; [None] is the [KeyError] or [TypeError]. *)
Definition getitem (data : JsonValue) (key : list ascii) : option JsonValue :=
  match data with
  | JDict pairs => dict_get key pairs
  | _ => None
  end.

(** [data.get(key)]; the outer [None] is the [AttributeError] of a value
    that is not a dict, a missing key gives Python's [None]. *)
Definition get (data : JsonValue) (key : list ascii) : option JsonValue :=
  match data with
  | JDict pairs => Some (default JNull (dict_get key pairs))
  | _ => None
  end.

(** A value with its string leaves erased: the keys, their order, the
    nesting and every leaf that is not a string. *)
Fixpoint shape (v : JsonValue) : JsonValue :=
  match v with
  | JStr _ => JStr []
  | JList items => JList (map shape items)
  | JDict pairs => JDict (map (fun kv => (kv.1, shape kv.2)) pairs)
  | _ => v
  end.

(** The string leaves of a value, in document order (keys are not leaves). *)
Fixpoint strings (v : JsonValue) : list (list ascii) :=
  match v with
  | JStr s => [s]
  | JList items => flat_map strings items
  | JDict pairs => flat_map (fun kv => strings kv.2) pairs
  | _ => []
  end.

(** The keys of the objects of a value, in document order. *)
Fixpoint keys (v : JsonValue) : list (list ascii) :=
  match v with
  | JList items => flat_map keys items
  | JDict pairs => flat_map (fun kv => kv.1 :: keys kv.2) pairs
  | _ => []
  end.

(** The [json] module as the sources use it:
    [loads] is [json.loads] ([None] when it raises),
    [dumps] is [json.dumps(v, ensure_ascii=False, separators=(",", ":"))],
    [representable] holds of the values the two exchange. *)
Class JsonCodec := {
  loads : list ascii -> option JsonValue;
  dumps : JsonValue -> list ascii;
  representable : JsonValue -> Prop }.

(** What the sources rely on: [loads] returns representable values and
    reads back what [dumps] wrote; whether a value is representable
    depends neither on the contents of its string leaves nor on the
    object that holds it. *)
Class JsonCodecLaws (codec : JsonCodec) : Prop := {
  loads_representable x v : loads x = Some v -> representable v;
  loads_dumps v : representable v -> loads (dumps v) = Some v;
  representable_shape v w :
    shape v = shape w -> representable v -> representable w;
  representable_member pairs k v :
    representable (JDict pairs) -> dict_get k pairs = Some v -> representable v }.

End Json.

Import Json.

(* ===================================================================== *)
(** * utils/json_cleanup_utils.py                                        *)
(* ===================================================================== *)

Module JsonCleanupUtils.

(** [re.sub(r"\s+", " ", t)]: every maximal run of white space becomes
    one space; [in_run] tells that the previous character was white
    space. *)
Fixpoint sub_spaces (in_run : bool) (t : list ascii) : list ascii :=
  match t with
  | c :: t' =>
      if isspace c
      then (if in_run then sub_spaces true t' else " "%char :: sub_spaces true t')
      else c :: sub_spaces false t'
  | [] => []
  end.

Definition normalize_spaces (input_str : list ascii) : list ascii :=
  if negb (truthy input_str) then []
  else sub_spaces false (strip input_str).

Fixpoint _clean_element (element : JsonValue) : JsonValue :=
  match element with
  | JDict pairs => JDict (map (fun kv => (kv.1, _clean_element kv.2)) pairs)
  | JList items => JList (map _clean_element items)
  | JStr s => JStr (normalize_spaces s)
  | _ => element
  end.

(** Normal form of [normalize_spaces]: the white space of the string is
    single spaces, none of them first or last ([in_run]: the previous
    character was white space, or the string starts here). *)
Fixpoint single_spaces (in_run : bool) (t : list ascii) : bool :=
  match t with
  | c :: t' =>
      if isspace c
      then negb in_run && bool_decide (c = " "%char) && single_spaces true t'
      else single_spaces false t'
  | [] => negb in_run
  end.

Definition normalized (t : list ascii) : bool :=
  match t with [] => true | _ => single_spaces true t end.

Section WithCodec.
Context {codec : JsonCodec}.

Definition clean_json_spaces (json_content : list ascii) : list ascii :=
  match loads json_content with
  | Some data => dumps (_clean_element data)
  | None => json_content                 (* except Exception *)
  end.

End WithCodec.

End JsonCleanupUtils.

(* ===================================================================== *)
(** * The [json] module on ASCII text with integer numbers                *)
(* ===================================================================== *)

(** An instance of [JsonCodec]: the reader and the compact writer of
    Python's [json] on the fragment this embedding covers.  Outside the
    fragment the reader gives up ([None]): number literals with a
    fraction or an exponent, [NaN] and [Infinity] (Python floats), and
    [\u] escapes above 127. *)

Module PyJson.

Definition is_char (c : ascii) (s : string) : bool :=
  bool_decide ([c] = lit s).

(** The double quote. *)
Definition quote : ascii := ascii_of_nat 34.

Definition is_quote (c : ascii) : bool := bool_decide (c = quote).

(** The white space between JSON tokens: space, TAB, LF, CR. *)
Definition is_ws (c : ascii) : bool :=
  is_char c " " || bool_decide (code c = 9) || bool_decide (code c = 10)
  || bool_decide (code c = 13).

Fixpoint skip_ws (s : list ascii) : list ascii :=
  match s with
  | c :: s' => if is_ws c then skip_ws s' else s
  | [] => []
  end.

(** A JSON text written with ['] for the double quote. *)
Definition jlit (s : string) : list ascii :=
  map (fun c => if bool_decide (c = "'"%char) then quote else c) (lit s).

(** *** Writer *)

Definition hex_digit (n : nat) : ascii :=
  if n <? 10 then ascii_of_nat (48 + n) else ascii_of_nat (87 + n).

(** [ESCAPE_DCT]: the two-character escapes, and [\u00XX] for the other
    control characters; everything else is written as it is. *)
Definition escape_char (c : ascii) : list ascii :=
  if is_quote c then ["\"%char; quote]
  else if is_char c "\" then lit "\\"
  else if bool_decide (code c = 10) then lit "\n"
  else if bool_decide (code c = 13) then lit "\r"
  else if bool_decide (code c = 9) then lit "\t"
  else if bool_decide (code c = 8) then lit "\b"
  else if bool_decide (code c = 12) then lit "\f"
  else if code c <? 32
       then lit "\u00" ++ [hex_digit (code c / 16); hex_digit (code c mod 16)]
  else [c].

Definition encode_str (s : list ascii) : list ascii :=
  [quote] ++ flat_map escape_char s ++ [quote].

Fixpoint digits (u : Decimal.uint) : list ascii :=
  match u with
  | Decimal.Nil => []
  | Decimal.D0 u => "0"%char :: digits u
  | Decimal.D1 u => "1"%char :: digits u
  | Decimal.D2 u => "2"%char :: digits u
  | Decimal.D3 u => "3"%char :: digits u
  | Decimal.D4 u => "4"%char :: digits u
  | Decimal.D5 u => "5"%char :: digits u
  | Decimal.D6 u => "6"%char :: digits u
  | Decimal.D7 u => "7"%char :: digits u
  | Decimal.D8 u => "8"%char :: digits u
  | Decimal.D9 u => "9"%char :: digits u
  end.

(** [int.__repr__] *)
Definition encode_int (n : Z) : list ascii :=
  match Z.to_int n with
  | Decimal.Pos u => digits u
  | Decimal.Neg u => "-"%char :: digits u
  end.

(** [sep.join(parts)] *)
Fixpoint join (sep : list ascii) (parts : list (list ascii)) : list ascii :=
  match parts with
  | [] => []
  | [p] => p
  | p :: rest => p ++ sep ++ join sep rest
  end.

(** [json.dumps(v, ensure_ascii=False, separators=(",", ":"))] *)
Fixpoint encode (v : JsonValue) : list ascii :=
  match v with
  | JNull => lit "null"
  | JBool true => lit "true"
  | JBool false => lit "false"
  | JInt n => encode_int n
  | JFloat r => r
  | JStr s => encode_str s
  | JList items => lit "[" ++ join (lit ",") (map encode items) ++ lit "]"
  | JDict pairs =>
      lit "{" ++
      join (lit ",") (map (fun kv => encode_str kv.1 ++ lit ":" ++ encode kv.2) pairs)
      ++ lit "}"
  end.

(** *** Reader *)

Definition hex_value (c : ascii) : option nat :=
  if isdigit c then Some (code c - 48)
  else if in_range 97 102 c then Some (code c - 87)
  else if in_range 65 70 c then Some (code c - 55)
  else None.

(** The character a backslash escape stands for ([\uXXXX] apart). *)
Definition unescape (e : ascii) : option ascii :=
  if is_quote e then Some e
  else if is_char e "\" then Some e
  else if is_char e "/" then Some e
  else if is_char e "b" then Some (ascii_of_nat 8)
  else if is_char e "f" then Some (ascii_of_nat 12)
  else if is_char e "n" then Some (ascii_of_nat 10)
  else if is_char e "r" then Some (ascii_of_nat 13)
  else if is_char e "t" then Some (ascii_of_nat 9)
  else None.

(** [scanstring] (strict), after the opening quote: the string and what
    follows its closing quote. *)
Fixpoint scanstring (s : list ascii) : option (list ascii * list ascii) :=
  match s with
  | [] => None
  | c :: s' =>
      if is_quote c then Some ([], s')
      else if is_char c "\" then
        match s' with
        | [] => None
        | e :: s'' =>
            if is_char e "u" then
              match s'' with
              | h1 :: h2 :: h3 :: h4 :: r =>
                  match hex_value h1, hex_value h2, hex_value h3, hex_value h4 with
                  | Some a, Some b, Some c', Some d =>
                      let n := ((a * 16 + b) * 16 + c') * 16 + d in
                      if n <? 128 then
                        match scanstring r with
                        | Some (chars, rest) => Some (ascii_of_nat n :: chars, rest)
                        | None => None
                        end
                      else None
                  | _, _, _, _ => None
                  end
              | _ => None
              end
            else
              match unescape e with
              | Some x =>
                  match scanstring s'' with
                  | Some (chars, rest) => Some (x :: chars, rest)
                  | None => None
                  end
              | None => None
              end
        end
      else if code c <? 32 then None
      else
        match scanstring s' with
        | Some (chars, rest) => Some (c :: chars, rest)
        | None => None
        end
  end.

Definition digit_of (c : ascii) : option (Decimal.uint -> Decimal.uint) :=
  if is_char c "0" then Some Decimal.D0
  else if is_char c "1" then Some Decimal.D1
  else if is_char c "2" then Some Decimal.D2
  else if is_char c "3" then Some Decimal.D3
  else if is_char c "4" then Some Decimal.D4
  else if is_char c "5" then Some Decimal.D5
  else if is_char c "6" then Some Decimal.D6
  else if is_char c "7" then Some Decimal.D7
  else if is_char c "8" then Some Decimal.D8
  else if is_char c "9" then Some Decimal.D9
  else None.

(** [\d*] *)
Fixpoint scan_digits (s : list ascii) : Decimal.uint * list ascii :=
  match s with
  | c :: s' =>
      match digit_of c with
      | Some d => let '(u, r) := scan_digits s' in (d u, r)
      | None => (Decimal.Nil, s)
      end
  | [] => (Decimal.Nil, [])
  end.

(** [0|[1-9]\d*] *)
Definition scan_natural (s : list ascii) : option (Decimal.uint * list ascii) :=
  match s with
  | c :: s' =>
      if is_char c "0" then Some (Decimal.D0 Decimal.Nil, s')
      else if isdigit c then Some (scan_digits s)
      else None
  | [] => None
  end.

(** The integer part of [NUMBER_RE], an optional sign and [0|[1-9]\d*],
    read as an [int]. *)
Definition scan_int (s : list ascii) : option (Z * list ascii) :=
  match s with
  | c :: s' =>
      if is_char c "-" then
        match scan_natural s' with
        | Some (u, r) => Some (Z.of_int (Decimal.Neg u), r)
        | None => None
        end
      else
        match scan_natural s with
        | Some (u, r) => Some (Z.of_int (Decimal.Pos u), r)
        | None => None
        end
  | [] => None
  end.

(** [s] starts with the character [c]: what follows it. *)
Definition expect (c : string) (s : list ascii) : option (list ascii) :=
  match s with
  | x :: r => if is_char x c then Some r else None
  | [] => None
  end.

Definition expect_quote (s : list ascii) : option (list ascii) :=
  match s with
  | x :: r => if is_quote x then Some r else None
  | [] => None
  end.

(** [s] starts with the word [w]: what follows it. *)
Definition keyword (w : string) (s : list ascii) : option (list ascii) :=
  if startswith (lit w) s then Some (drop (String.length w) s) else None.

(** [scan_once], [JSONArray] and [JSONObject]; [fuel] bounds the depth of
    the calls. *)
Fixpoint scan_once (fuel : nat) (s : list ascii) : option (JsonValue * list ascii) :=
  match fuel with
  | O => None
  | S fuel' =>
      match s with
      | [] => None
      | c :: s' =>
          if is_quote c then
            match scanstring s' with
            | Some (chars, r) => Some (JStr chars, r)
            | None => None
            end
          else if is_char c "{" then
            match expect "}" (skip_ws s') with
            | Some r => Some (JDict [], r)
            | None =>
                match JSONObject fuel' (skip_ws s') with
                | Some (pairs, r) => Some (JDict (dict_of_pairs pairs), r)
                | None => None
                end
            end
          else if is_char c "[" then
            match expect "]" (skip_ws s') with
            | Some r => Some (JList [], r)
            | None =>
                match JSONArray fuel' (skip_ws s') with
                | Some (items, r) => Some (JList items, r)
                | None => None
                end
            end
          else if is_char c "n" then
            match keyword "null" s with
            | Some r => Some (JNull, r)
            | None => None
            end
          else if is_char c "t" then
            match keyword "true" s with
            | Some r => Some (JBool true, r)
            | None => None
            end
          else if is_char c "f" then
            match keyword "false" s with
            | Some r => Some (JBool false, r)
            | None => None
            end
          else
            match scan_int s with
            | Some (n, r) => Some (JInt n, r)
            | None => None
            end
      end
  end
with JSONArray (fuel : nat) (s : list ascii) : option (list JsonValue * list ascii) :=
  match fuel with
  | O => None
  | S fuel' =>
      match scan_once fuel' s with
      | Some (v, r) =>
          match expect "]" (skip_ws r) with
          | Some r' => Some ([v], r')
          | None =>
              match expect "," (skip_ws r) with
              | Some r' =>
                  match JSONArray fuel' (skip_ws r') with
                  | Some (vs, r'') => Some (v :: vs, r'')
                  | None => None
                  end
              | None => None
              end
          end
      | None => None
      end
  end
with JSONObject (fuel : nat) (s : list ascii)
  : option (list (list ascii * JsonValue) * list ascii) :=
  match fuel with
  | O => None
  | S fuel' =>
      match expect_quote s with
      | Some s' =>
          match scanstring s' with
          | Some (key, r) =>
              match expect ":" (skip_ws r) with
              | Some r1 =>
                  match scan_once fuel' (skip_ws r1) with
                  | Some (v, r2) =>
                      match expect "}" (skip_ws r2) with
                      | Some r3 => Some ([(key, v)], r3)
                      | None =>
                          match expect "," (skip_ws r2) with
                          | Some r3 =>
                              match JSONObject fuel' (skip_ws r3) with
                              | Some (kvs, r4) => Some ((key, v) :: kvs, r4)
                              | None => None
                              end
                          | None => None
                          end
                      end
                  | None => None
                  end
              | None => None
              end
          | None => None
          end
      | None => None
      end
  end.

(** [json.loads]: white space, one value, white space, the end. *)
Definition decode (s : list ascii) : option JsonValue :=
  match scan_once (S (length s)) (skip_ws s) with
  | Some (v, r) => match skip_ws r with [] => Some v | _ => None end
  | None => None
  end.

(** The values of the fragment: no float, and no key twice in a dict. *)
Fixpoint in_fragment (v : JsonValue) : bool :=
  match v with
  | JFloat _ => false
  | JList items => forallb in_fragment items
  | JDict pairs =>
      bool_decide (NoDup (map fst pairs)) && forallb (fun kv => in_fragment kv.2) pairs
  | _ => true
  end.

(** One member of an object, as [encode] writes it. *)
Definition member (kv : list ascii * JsonValue) : list ascii :=
  encode_str kv.1 ++ lit ":" ++ encode kv.2.

(** The calls [scan_once] needs to read a value back. *)
Fixpoint size (v : JsonValue) : nat :=
  match v with
  | JList items => S (list_sum (map (fun x => S (size x)) items))
  | JDict pairs => S (list_sum (map (fun kv => S (size kv.2)) pairs))
  | _ => 1
  end.

(** The characters a JSON value can start with (floats apart). *)
Definition value_start (c : ascii) : bool :=
  is_quote c || is_char c "{" || is_char c "[" || is_char c "n"
  || is_char c "t" || is_char c "f" || is_char c "-" || isdigit c.

(** What may follow a number: anything but a digit. *)
Definition no_digit_ahead (rest : list ascii) : Prop :=
  match rest with c :: _ => isdigit c = false | [] => True end.

(** What the reader makes of what the writer wrote for one value, with
    anything [rest] behind it. *)
Definition reads_back (v : JsonValue) : Prop :=
  in_fragment v = true ->
  forall fuel rest, size v <= fuel -> no_digit_ahead rest ->
  scan_once fuel (encode v ++ rest) = Some (v, rest).

#[global] Instance codec : JsonCodec := {|
  loads := decode;
  dumps := encode;
  representable := fun v => in_fragment v = true |}.

End PyJson.

(* ===================================================================== *)
(** * processors/ndjson_processor.py                                     *)
(* ===================================================================== *)

Module NdjsonProcessor.
Import HashCacheManager JsonCleanupUtils.


(** The scratch directory of one NDJSON file, and what was handed to the
    transfer agent: each call of [RcloneClient.upload_folder_async]
    records the files of the folder it was given. *)
Record world := {
  catalog : HashCacheManager.state;
  temp_dir : option (gmap (list ascii) (list ascii));   (* file name -> content *)
  uploads : list (gmap (list ascii) (list ascii)) }.

Definition set_catalog (st : HashCacheManager.state) (w : world) : world :=
  {| catalog := st; temp_dir := temp_dir w; uploads := uploads w |}.

Definition set_temp_dir (d : option (gmap (list ascii) (list ascii))) (w : world)
  : world :=
  {| catalog := catalog w; temp_dir := d; uploads := uploads w |}.

(** A coroutine of [HashCacheManager] awaited from the processor. *)
Definition lift {A} (m : task HashCacheManager.state A) : task world A :=
  fun w =>
    match m (catalog w) with
    | Returned a st => Returned a (set_catalog st w)
    | Raised e st => Raised e (set_catalog st w)
    | Blocked st => Blocked (set_catalog st w)
    | Outside st => Outside (set_catalog st w)
    end.

(** [os.makedirs(temp_dir, exist_ok=True)] *)
Definition makedirs : task world unit :=
  modify (fun w => set_temp_dir (Some (default ∅ (temp_dir w))) w).

(** [shutil.rmtree(temp_dir, ignore_errors=True)] *)
Definition rmtree : task world unit := modify (set_temp_dir None).

(** [f"{item.cnpj}.json"] *)
Definition json_path (item : ProcessedItem) : list ascii :=
  cnpj item ++ lit ".json".

(** The text of [name] before its first slash, when it has one: the
    first directory that [os.path.join(temp_dir, name)] names below
    [temp_dir], or instead of it when that text is empty. *)
Fixpoint first_directory (name : list ascii) : option (list ascii) :=
  match name with
  | [] => None
  | c :: rest =>
      if bool_decide (c = "/"%char) then Some []
      else option_map (cons c) (first_directory rest)
  end.

(** The longest file name of the file systems of Linux, in bytes. *)
Definition NAME_MAX : nat := 255.

(** A name that [open] takes for a file of the scratch directory
    itself: no NUL, no slash, no more than [NAME_MAX] characters. *)
Definition file_name (name : list ascii) : bool :=
  negb (existsb (fun c => bool_decide (c = "000"%char)) name)
  && negb (bool_decide (is_Some (first_directory name)))
  && (length name <=? NAME_MAX).

(** [json_path = os.path.join(temp_dir, f"{item.cnpj}.json")], then
    [with open(json_path, "w") as f: f.write(item.json)].

    [open] refuses a path with a NUL ([ValueError]).  A name without a
    slash is a file of the scratch directory, which has to exist, and
    the name is no longer than [NAME_MAX].  A name with a slash is a
    path through another directory: the scratch directory holds files
    only, so a path through a directory below it fails ([OSError]: no
    such directory, not a directory, or a name too long); a path that
    starts with a slash, with [.] or with [..] is resolved by the
    operating system from the root, or through the scratch directory and
    possibly out of it, to a file that the state does not hold
    ([Outside]). *)
Definition write_file (item : ProcessedItem) : task world unit :=
  fun w =>
    let name := json_path item in
    if existsb (fun c => bool_decide (c = "000"%char)) name
    then Raised (ValueError "embedded null byte") w
    else
      match first_directory name, temp_dir w with
      | None, Some d =>
          if NAME_MAX <? length name then Raised OSError w
          else Returned tt (set_temp_dir (Some (<[name := json item]> d)) w)
      | None, None => Raised OSError w
      | Some dir, Some d =>
          if bool_decide (dir = []) || bool_decide (dir = lit ".")
             || bool_decide (dir = lit "..")
          then Outside w
          else Raised OSError w
      | Some dir, None =>
          if bool_decide (dir = []) then Outside w else Raised OSError w
      end.

(** The scratch directory [d] after the files of [items] are written,
    when their names are file names. *)
Definition written (d : gmap (list ascii) (list ascii)) (items : list ProcessedItem)
  : gmap (list ascii) (list ascii) :=
  foldl (fun d item => <[json_path item := json item]> d) d items.

(** [await RcloneClient.upload_folder_async(temp_dir, ...)]: the answer
    [ok] is the transfer agent's (its exit code was 0). *)
Definition upload_folder_async (ok : bool) : task world bool :=
  fun w =>
    Returned ok {| catalog := catalog w; temp_dir := temp_dir w;
                   uploads := uploads w ++ [default ∅ (temp_dir w)] |}.

Section WithCodec.
Context {codec : JsonCodec}.

(** [xxhash.xxh3_64().hexdigest()] of the UTF-8 bytes of a string. *)
Variable xxh3_64_hexdigest : list ascii -> list ascii.

Definition _compute_hash (json_str : list ascii) : list ascii :=
  xxh3_64_hexdigest json_str.

(** Every exception of the body is caught and gives [(None, json_line)]. *)
Definition _extract_cnpj_and_json (json_line : list ascii)
  : option JsonValue * list ascii :=
  match loads json_line with
  | None => (None, json_line)
  | Some data =>
      match contains data (lit "json_output") with
      | None => (None, json_line)
      | Some wrapped =>
          let unwrapped :=
            if wrapped then
              match getitem data (lit "json_output") with
              | Some data_element => Some (data_element, dumps data_element)
              | None => None
              end
            else Some (data, json_line) in
          match unwrapped with
          | None => (None, json_line)
          | Some (data_element, raw_json) =>
              match get data_element (lit "cnpj") with
              | None => (None, json_line)
              | Some cnpj =>
                  if negb (truthy_value cnpj) then (None, json_line)
                  else (Some cnpj, clean_json_spaces raw_json)
              end
          end
      end
  end.

(** [process_line].  [ProcessedItem.cnpj] is declared [str], and the
    engine writes the identifier as a JSON string.  A line whose [cnpj]
    is a truthy value of another JSON type gives, in Python, an item
    whose identifier is not a [str]; the typed record has no such item
    and the embedding gives none. *)
Definition process_line (line : list ascii) : option ProcessedItem :=
  let line := strip line in
  if negb (truthy line) then None
  else
    match _extract_cnpj_and_json line with
    | (None, _) => None
    | (Some (JStr cnpj), clean_json) =>
        Some {| cnpj := cnpj; json := clean_json; hash := _compute_hash clean_json |}
    | (Some _, _) => None
    end.

(** [_read_and_process_ndjson], on the lines of the file:
    [[item for item in results if item is not None]].  (The [except]
    around the body has nothing to catch: on ASCII text neither the
    reads nor the hash raise.) *)
Definition _read_and_process_ndjson (lines : list (list ascii)) : list ProcessedItem :=
  omap process_line lines.

Definition process_ndjson_file_to_storage (lines : list (list ascii))
    (upload_ok : bool) : task world unit :=
  let processed_data := _read_and_process_ndjson lines in
  match processed_data with
  | [] => ret tt
  | _ =>
      makedirs ;;;
      try_finally (
        found <- lift (get_items_to_process_async processed_data) ;;
        let all_processed_items := found.1.1 in
        match all_processed_items with
        | [] => ret tt
        | _ =>
            for_each all_processed_items write_file ;;;
            success <- upload_folder_async upload_ok ;;
            if success then lift (add_batch_async all_processed_items)
            else raise (RuntimeError "Falha no upload dos arquivos")
        end)
      rmtree
  end.

(** ** The wording of the claims about dropped lines *)

(** The parsed line after unwrapping an optional [json_output] envelope. *)
Definition unwrap (data : JsonValue) : JsonValue :=
  match data with
  | JDict pairs => default data (dict_get (lit "json_output") pairs)
  | _ => data
  end.

(** The element is an object with a non-empty [cnpj] field. *)
Definition has_cnpj (data_element : JsonValue) : Prop :=
  exists pairs v, data_element = JDict pairs /\
                  dict_get (lit "cnpj") pairs = Some v /\ truthy_value v = true.

(** The line is not parseable as JSON, or its element has no non-empty
    [cnpj] field. *)
Definition droppable (line : list ascii) : Prop :=
  loads line = None \/
  exists data, loads line = Some data /\ ~ has_cnpj (unwrap data).

End WithCodec.

(** The catalog as opened on an empty database, nothing written yet. *)
Definition fresh_world : world :=
  {| catalog := initialized_with ∅; temp_dir := None; uploads := [] |}.

End NdjsonProcessor.

(* ===================================================================== *)
(** * processors/integrity_tester.py                                     *)
(* ===================================================================== *)

Module IntegrityTester.
Import JsonCleanupUtils.

Definition lower_char (c : ascii) : ascii :=
  if isupper c then ascii_of_nat (code c + 32) else c.

(** [s.lower()] *)
Definition lower (s : str) : str := map lower_char s.

Section WithCodec.
Context {codec : JsonCodec}.

(** [xxhash.xxh3_64().hexdigest()] of the UTF-8 bytes of a string. *)
Variable xxh3_64_hexdigest : list ascii -> list ascii.

Definition _compute_hash (json_str : list ascii) : list ascii :=
  xxh3_64_hexdigest json_str.

(** One turn of [for cnpj in sample] in [run_async]: the
    [(local_hash, remote_hash, equal)] of the tuple appended to
    [results].  [local_file] is the content of [local_path] after
    [export_single_cnpj_async], if the file exists; [ok] is the answer
    of [download_file_async] and [remote_file] the content of
    [remote_path], if that file exists.  Every exception of the body
    gives [("-", "-", False)]. *)
Definition compare_sample (local_file : option (list ascii)) (ok : bool)
    (remote_file : option (list ascii)) : list ascii * list ascii * bool :=
  match local_file with
  | None => (lit "-", lit "-", false)
  | Some local_json =>
      let local_json := clean_json_spaces local_json in
      let local_hash := _compute_hash local_json in
      match (if ok then remote_file else None) with
      | None => (lit "-", lit "-", false)
      | Some remote_json =>
          let remote_json := clean_json_spaces remote_json in
          let remote_hash := _compute_hash remote_json in
          let equal := bool_decide (lower local_hash = lower remote_hash) in
          (local_hash, remote_hash, equal)
      end
  end.

End WithCodec.

End IntegrityTester.

(* ===================================================================== *)
(** * Part II: properties                                                 *)
(* ===================================================================== *)

(** ** Python strings *)

Section PyStrFacts.

Lemma lstrip_nil (s : str) : lstrip s = [] -> Forall (fun c => isspace c = true) s.
Proof.
  induction s as [|c s IH]; simpl; [constructor|].
  destruct (isspace c) eqn:E; [|discriminate].
  intros H. constructor; auto.
Qed.

Lemma lstrip_head (s : str) c t : lstrip s = c :: t -> isspace c = false.
Proof.
  induction s as [|d s IH]; simpl; [discriminate|].
  destruct (isspace d) eqn:E; [exact IH|].
  intros [= -> _]. exact E.
Qed.

Lemma lstrip_all_space (s : str) :
  Forall (fun c => isspace c = true) s -> lstrip s = [].
Proof.
  induction 1 as [|c s Hc _ IH]; simpl; [reflexivity|]. now rewrite Hc.
Qed.

Lemma strip_nil (s : str) : strip s = [] -> Forall (fun c => isspace c = true) s.
Proof.
  unfold strip, rstrip. intros H.
  apply lstrip_nil.
  destruct (lstrip s) as [|c t] eqn:E; [reflexivity|exfalso].
  apply lstrip_head in E.
  assert (Hr : lstrip (rev (c :: t)) = []).
  { apply (f_equal (@rev ascii)) in H. now rewrite rev_involutive in H. }
  apply lstrip_nil in Hr. rewrite Forall_forall in Hr.
  specialize (Hr c). rewrite E in Hr. discriminate Hr.
  apply list_elem_of_In, in_rev. rewrite rev_involutive. now left.
Qed.

Lemma strip_all_space (s : str) :
  Forall (fun c => isspace c = true) s -> strip s = [].
Proof. intros H. unfold strip. now rewrite (lstrip_all_space s H). Qed.

End PyStrFacts.

(** ** Python strings of code points *)

Section PyUnicodeFacts.
Import PyUnicode.

Lemma assoc_In {A} (c : N) (table : list (N * A)) v :
  assoc c table = Some v -> In (c, v) table.
Proof.
  induction table as [|[k x] table IH]; simpl; [discriminate|].
  destruct (N.eqb_spec c k) as [->|_]; [intros [= ->]; now left|right; auto].
Qed.

#[local] Arguments assoc : simpl never.
#[local] Arguments isdecimal : simpl never.
#[local] Arguments isspace : simpl never.
#[local] Arguments upper_char : simpl never.

(** A property of the code points below 128, checked on each of them. *)
Lemma below_128 (P : N -> bool) :
  forallb P (map N.of_nat (seq 0 128)) = true ->
  forall c, (c < 128)%N -> P c = true.
Proof.
  intros H c Hc. rewrite forallb_forall in H. apply H.
  apply in_map_iff. exists (N.to_nat c). split; [apply N2Nat.id|].
  apply in_seq. lia.
Qed.

Lemma ulstrip_nil (s : ustr) : lstrip s = [] -> Forall (fun c => isspace c = true) s.
Proof.
  induction s as [|c s IH]; simpl; [constructor|].
  destruct (isspace c) eqn:E; [|discriminate].
  intros H. constructor; auto.
Qed.

Lemma ulstrip_head (s : ustr) c t : lstrip s = c :: t -> isspace c = false.
Proof.
  induction s as [|d s IH]; simpl; [discriminate|].
  destruct (isspace d) eqn:E; [exact IH|].
  intros [= -> _]. exact E.
Qed.

Lemma ustrip_nil (s : ustr) : strip s = [] -> Forall (fun c => isspace c = true) s.
Proof.
  unfold strip, rstrip. intros H.
  apply ulstrip_nil.
  destruct (lstrip s) as [|c t] eqn:E; [reflexivity|exfalso].
  apply ulstrip_head in E.
  assert (Hr : lstrip (rev (c :: t)) = []).
  { apply (f_equal (@rev N)) in H. now rewrite rev_involutive in H. }
  apply ulstrip_nil in Hr. rewrite Forall_forall in Hr.
  specialize (Hr c). rewrite E in Hr. discriminate Hr.
  apply list_elem_of_In, in_rev. rewrite rev_involutive. now left.
Qed.

Lemma isdigit_isdecimal c : isdigit c = true -> isdecimal c = true.
Proof. unfold isdecimal, isdigit. cbn [Nd existsb fst snd]. now intros ->. Qed.

Lemma isdecimal_ascii c : (c < 128)%N -> isdecimal c = isdigit c.
Proof.
  intros Hc.
  pose proof (below_128 (fun c => Bool.eqb (isdecimal c) (isdigit c))
                ltac:(vm_compute; reflexivity) c Hc) as H.
  now apply eqb_prop in H.
Qed.

(** What [upper] makes of a character: every character it writes is one
    it leaves alone, and none is a lowercase letter of [a-z]. *)
Lemma uppercase_values :
  Forall (fun kv : N * list N =>
            Forall (fun d => islower d = false /\ assoc d uppercase = None) kv.2)
         uppercase.
Proof.
  assert (H : forallb (fun kv : N * list N =>
                forallb (fun d => negb (islower d)
                                  && match assoc d uppercase with
                                     | None => true
                                     | Some _ => false
                                     end) kv.2) uppercase = true)
    by (vm_compute; reflexivity).
  rewrite forallb_forall in H. apply Forall_forall. intros kv Hkv%list_elem_of_In%H.
  rewrite forallb_forall in Hkv. apply Forall_forall. intros d Hd%list_elem_of_In%Hkv.
  apply andb_true_iff in Hd as [Hl Ha]. apply negb_true_iff in Hl.
  destruct (assoc d uppercase); [discriminate|auto].
Qed.

Lemma islower_mapped c : islower c = true -> assoc c uppercase <> None.
Proof.
  intros H.
  assert (Hc : (c < 128)%N).
  { unfold islower, between in H. apply andb_true_iff in H as [_ H%N.leb_le]. lia. }
  pose proof (below_128
    (fun c => implb (islower c) match assoc c uppercase with
                                | None => false
                                | Some _ => true
                                end)
    ltac:(vm_compute; reflexivity) c Hc) as Hk.
  cbv beta in Hk. rewrite H in Hk. cbn [implb] in Hk.
  destruct (assoc c uppercase); [discriminate|discriminate Hk].
Qed.

Lemma upper_char_values c :
  Forall (fun d => islower d = false /\ upper_char d = [d]) (upper_char c).
Proof.
  unfold upper_char at 2. destruct (assoc c uppercase) as [v|] eqn:E.
  - pose proof uppercase_values as H. rewrite Forall_forall in H.
    specialize (H (c, v) ltac:(apply list_elem_of_In, assoc_In, E)). cbn [snd] in H.
    eapply Forall_impl; [exact H|]. intros d [Hl Hd]. split; [exact Hl|].
    unfold upper_char. now rewrite Hd.
  - constructor; [|constructor]. split.
    + apply not_true_is_false. intros H%islower_mapped. contradiction.
    + unfold upper_char. now rewrite E.
Qed.

(** [upper] on ASCII text: the letters of [a-z] move to [A-Z], nothing
    else changes. *)
Lemma upper_char_ascii c :
  (c < 128)%N -> upper_char c = [if islower c then (c - 32)%N else c].
Proof.
  intros Hc.
  pose proof (below_128
    (fun c => match upper_char c with
              | [d] => (d =? (if islower c then c - 32 else c))%N
              | _ => false
              end)
    ltac:(vm_compute; reflexivity) c Hc) as H.
  cbv beta in H. destruct (upper_char c) as [|d [|? ?]]; try discriminate H.
  now apply N.eqb_eq in H as ->.
Qed.

End PyUnicodeFacts.

(** ** Identifier codec *)

Section CnpjUtilsFacts.
Import PyUnicode CnpjUtils.

#[local] Arguments assoc : simpl never.
#[local] Arguments isdecimal : simpl never.
#[local] Arguments isspace : simpl never.
#[local] Arguments upper_char : simpl never.
#[local] Arguments INVALID_CHARACTERS : simpl never.

Lemma isspace_invalid c : isspace c = true -> INVALID_CHARACTERS c = true.
Proof.
  unfold isspace. intros (x & Hx & ->%N.eqb_eq)%existsb_exists.
  assert (H : forallb INVALID_CHARACTERS White_Space = true) by (vm_compute; reflexivity).
  rewrite forallb_forall in H. auto.
Qed.

Lemma mask_iff c :
  MASK_CHARACTERS c = false <-> c <> chr "." /\ c <> chr "/" /\ c <> chr "-".
Proof.
  unfold MASK_CHARACTERS. rewrite !orb_false_iff, !bool_decide_eq_false. tauto.
Qed.

Lemma sub_empty_mask s :
  upper (sub_empty MASK_CHARACTERS s) = spec_strip s.
Proof.
  unfold sub_empty, spec_strip. f_equal. apply list_filter_iff, mask_iff.
Qed.

Lemma match_n_Some cls n s r :
  match_n cls n s = Some r <->
  exists a, s = a ++ r /\ length a = n /\ Forall (fun c => cls c = true) a.
Proof.
  revert s. induction n as [|n IH]; intros s; simpl.
  - split.
    + intros [= ->]. exists []. auto.
    + intros (a & -> & Ha & _). destruct a; [reflexivity|discriminate].
  - destruct s as [|c s].
    + split; [discriminate|]. intros ([|d a] & E & Ha & _); discriminate.
    + destruct (cls c) eqn:Ec.
      * rewrite IH. split.
        -- intros (a & -> & <- & Hall). exists (c :: a). auto.
        -- intros ([|d a] & E & Ha & Hall); [discriminate|].
           injection E as -> ->. injection Ha as <-.
           inversion Hall; subst. eauto.
      * split; [discriminate|].
        intros ([|d a] & E & Ha & Hall); [discriminate|].
        injection E as -> ->. inversion Hall; subst. congruence.
Qed.

Lemma FULL_CNPJ_PATTERN_14 r :
  length r = 14 -> (FULL_CNPJ_PATTERN r = true <-> pattern_matches r).
Proof.
  intros Hlen. unfold FULL_CNPJ_PATTERN, pattern_matches. split.
  - destruct (match_n _ 12 r) as [s1|] eqn:E1; [|discriminate].
    destruct (match_n _ 2 s1) as [s2|] eqn:E2; [|discriminate].
    apply match_n_Some in E1 as (a & -> & Ha & Halla).
    apply match_n_Some in E2 as (b & -> & Hb & Hallb).
    intros _. rewrite !length_app in Hlen.
    assert (s2 = []) as -> by (destruct s2; [reflexivity|simpl in Hlen; lia]).
    exists a, b. rewrite app_nil_r. auto.
  - intros (a & b & -> & Ha & Halla & Hb & Hallb).
    assert (E1 : match_n (fun c => isupper c || isdecimal c) 12 (a ++ b) = Some b)
      by (apply match_n_Some; eauto).
    assert (E2 : match_n isdecimal 2 b = Some [])
      by (apply match_n_Some; exists b; rewrite app_nil_r; auto).
    now rewrite E1, E2.
Qed.

Lemma pattern_matches_alnum r :
  pattern_matches r -> Forall (fun c => isupper c || isdecimal c = true) r.
Proof.
  intros (a & b & -> & _ & Ha & _ & Hb). apply Forall_app. split; [exact Ha|].
  eapply Forall_impl; [exact Hb|]. simpl. intros c ->. apply orb_true_r.
Qed.

Lemma spec_matches_pattern r : spec_matches r -> pattern_matches r.
Proof.
  intros (a & b & E & Ha & Halla & Hb & Hallb). exists a, b.
  split; [exact E|]. split; [exact Ha|]. split; [|split; [exact Hb|]].
  - eapply Forall_impl; [exact Halla|]. intros c [H|H]%orb_true_iff.
    + now rewrite H.
    + rewrite (isdigit_isdecimal c H). apply orb_true_r.
  - eapply Forall_impl; [exact Hallb|]. intros c. apply isdigit_isdecimal.
Qed.

Lemma pattern_matches_spec r : isascii r -> pattern_matches r -> spec_matches r.
Proof.
  intros Hr (a & b & -> & Ha & Halla & Hb & Hallb).
  apply Forall_app in Hr as [Hra Hrb]. exists a, b.
  split; [reflexivity|]. split; [exact Ha|]. split; [|split; [exact Hb|]].
  - apply Forall_forall. intros c Hc. rewrite Forall_forall in Halla, Hra.
    rewrite <- (isdecimal_ascii c (Hra c Hc)). auto.
  - apply Forall_forall. intros c Hc. rewrite Forall_forall in Hallb, Hrb.
    rewrite <- (isdecimal_ascii c (Hrb c Hc)). auto.
Qed.

Lemma valid_chars_not_blank s :
  s <> [] -> search INVALID_CHARACTERS s = false -> blank (Some s) = false.
Proof.
  intros Hne Hs. unfold blank. destruct s as [|c s]; [congruence|]. simpl.
  destruct (strip (c :: s)) eqn:E; [|reflexivity].
  apply ustrip_nil in E. inversion E as [|? ? Hc _]; subst.
  apply isspace_invalid in Hc. unfold search in Hs. simpl in Hs.
  now rewrite Hc in Hs.
Qed.

Lemma repeated_sequence_run r : _is_repeated_sequence r = true -> spec_run r.
Proof.
  destruct r as [|c r]; [discriminate|]. unfold _is_repeated_sequence.
  destruct (_ <? 2); [discriminate|]. intros H.
  exists c, (length (c :: r)).
  rewrite forallb_forall in H. symmetry. apply replicate_as_Forall. split; [reflexivity|].
  apply Forall_forall. intros x Hx%list_elem_of_In%H. now apply bool_decide_eq_true in Hx.
Qed.

Lemma run_repeated_sequence r :
  2 <= length r -> spec_run r -> _is_repeated_sequence r = true.
Proof.
  intros Hlen (c & n & ->). rewrite length_replicate in Hlen.
  destruct n as [|n]; [lia|]. unfold _is_repeated_sequence. simpl replicate at 1.
  rewrite length_replicate. destruct (S n <? 2) eqn:E; [apply Nat.ltb_lt in E; lia|].
  apply forallb_forall. intros x Hx%list_elem_of_In%elem_of_replicate.
  apply bool_decide_eq_true. tauto.
Qed.

Lemma is_valid_format_unfold s :
  is_valid_format (Some s) = true <->
  s <> [] /\ search INVALID_CHARACTERS s = false /\
  length (spec_strip s) = 14 /\ FULL_CNPJ_PATTERN (spec_strip s) = true /\
  _is_repeated_sequence (spec_strip s) = false.
Proof.
  unfold is_valid_format, remove_mask. simpl default.
  destruct (blank (Some s)) eqn:Eb.
  - split; [discriminate|]. intros (Hne & Hs & _).
    now rewrite (valid_chars_not_blank s Hne Hs) in Eb.
  - rewrite sub_empty_mask.
    assert (Hne : s <> []) by (intros ->; discriminate Eb).
    destruct (search _ s); [split; [discriminate|intros (_ & ? & _); discriminate]|].
    destruct (length (spec_strip s) =? 14) eqn:El; simpl.
    + apply Nat.eqb_eq in El.
      destruct (FULL_CNPJ_PATTERN _); simpl;
        [|split; [discriminate|intros (_ & _ & _ & ? & _); discriminate]].
      destruct (_is_repeated_sequence _); simpl; intuition congruence.
    + apply Nat.eqb_neq in El. split; [discriminate|]. intros (_ & _ & ? & _). lia.
Qed.

(** The characters of [spec_strip s], for a character of [s]. *)
Lemma spec_strip_elem s c d :
  c ∈ s -> MASK_CHARACTERS c = false -> d ∈ upper_char c -> d ∈ spec_strip s.
Proof.
  intros Hc Hm Hd. unfold spec_strip, upper.
  apply list_elem_of_In, in_flat_map. exists c. split; [|now apply list_elem_of_In].
  apply list_elem_of_In, list_elem_of_filter. split; [now apply mask_iff|exact Hc].
Qed.

Lemma spec_strip_ascii s : isascii s -> isascii (spec_strip s).
Proof.
  unfold isascii, spec_strip, upper. intros H. apply Forall_forall.
  intros d (c & Hc%list_elem_of_In%list_elem_of_filter & Hd)%list_elem_of_In%in_flat_map.
  destruct Hc as [_ Hc]. rewrite Forall_forall in H. specialize (H c Hc).
  rewrite (upper_char_ascii c H) in Hd. destruct Hd as [<-|[]].
  destruct (islower c); lia.
Qed.

(** On an ASCII character that is no separator: when what [upper] makes
    of it is in [[A-Z0-9]], the character is not invalid. *)
Lemma ascii_alnum_valid c :
  (c < 128)%N ->
  Forall (fun d => isupper d || isdigit d = true) (upper_char c) ->
  INVALID_CHARACTERS c = false.
Proof.
  intros Hc H.
  pose proof (below_128
    (fun c => implb (forallb (fun d => isupper d || isdigit d) (upper_char c))
                    (negb (INVALID_CHARACTERS c)))
    ltac:(vm_compute; reflexivity) c Hc) as Hk.
  cbv beta in Hk.
  assert (Hb : forallb (fun d => isupper d || isdigit d) (upper_char c) = true).
  { apply forallb_forall. rewrite Forall_forall in H.
    intros d Hd%list_elem_of_In. auto. }
  rewrite Hb in Hk. cbn [implb] in Hk. now apply negb_true_iff in Hk.
Qed.

Lemma spec_matches_alnum r :
  spec_matches r -> Forall (fun c => isupper c || isdigit c = true) r.
Proof.
  intros (a & b & -> & _ & Ha & _ & Hb). apply Forall_app. split; [exact Ha|].
  eapply Forall_impl; [exact Hb|]. simpl. intros c ->. apply orb_true_r.
Qed.

Lemma spec_strip_alnum_valid s :
  isascii s ->
  Forall (fun c => isupper c || isdigit c = true) (spec_strip s) ->
  search INVALID_CHARACTERS s = false.
Proof.
  intros Hs H. unfold search. apply not_true_is_false.
  intros (c & Hin%list_elem_of_In & Hc)%existsb_exists.
  destruct (MASK_CHARACTERS c) eqn:Em.
  { unfold INVALID_CHARACTERS in Hc. rewrite Em, !orb_true_r in Hc. discriminate Hc. }
  rewrite ascii_alnum_valid in Hc; [discriminate| |].
  - unfold isascii in Hs. rewrite Forall_forall in Hs. auto.
  - apply Forall_forall. intros d Hd. rewrite Forall_forall in H. apply H.
    eapply spec_strip_elem; eauto.
Qed.

Lemma length_flat_map_replicate {A B} (f : A -> list B) n c :
  length (flat_map f (replicate n c)) = n * length (f c).
Proof. induction n as [|n IH]; simpl; [reflexivity|]. rewrite length_app, IH. lia. Qed.

Lemma flat_map_replicate_single {A B} (f : A -> list B) n c u :
  f c = [u] -> flat_map f (replicate n c) = replicate n u.
Proof. intros E. induction n as [|n IH]; simpl; [reflexivity|]. now rewrite E, IH. Qed.

Lemma spec_strip_replicate n c :
  spec_strip (replicate n c) = [] \/
  spec_strip (replicate n c) = flat_map upper_char (replicate n c).
Proof.
  unfold spec_strip, upper.
  destruct (decide (c <> chr "." /\ c <> chr "/" /\ c <> chr "-")) as [Hc|Hc].
  - right. f_equal. induction n as [|n IH]; [reflexivity|]. simpl replicate.
    rewrite filter_cons_True by exact Hc. now rewrite IH.
  - left. replace (filter _ (replicate n c)) with (@nil N); [reflexivity|].
    symmetry. induction n as [|n IH]; [reflexivity|]. simpl replicate.
    rewrite filter_cons_False by exact Hc. exact IH.
Qed.

(** C7, amended.  On text of ASCII characters [is_valid_format] accepts
    a string exactly when, after removing the separators [.], [/], [-]
    and uppercasing, it has 14 characters, matches
    [[A-Z0-9]{12}[0-9]{2}] and is not a run of one repeated character.
    On every string: nothing shorter than 14 characters after the strip
    is accepted, no string [c * 14] is accepted, and what is accepted
    has 14 characters after the strip, twelve of [[A-Z]] or decimal
    digits of any script then two decimal digits of any script, and is
    not a run. *)
Theorem is_valid_format_spec :
  (forall s : ustr, isascii s -> (is_valid_format (Some s) = true <-> spec_valid s)) /\
  (forall s : ustr, length (spec_strip s) < 14 -> is_valid_format (Some s) = false) /\
  (forall c : N, is_valid_format (Some (replicate 14 c)) = false) /\
  (forall s : ustr, is_valid_format (Some s) = true ->
     length (spec_strip s) = 14 /\ pattern_matches (spec_strip s)
     /\ ~ spec_run (spec_strip s)).
Proof.
  assert (Hgen : forall s : ustr, is_valid_format (Some s) = true ->
     length (spec_strip s) = 14 /\ pattern_matches (spec_strip s)
     /\ ~ spec_run (spec_strip s)).
  { intros s (_ & _ & Hl & Hm & Hr)%is_valid_format_unfold.
    split; [exact Hl|]. split; [now apply FULL_CNPJ_PATTERN_14|].
    intros Hrun. rewrite run_repeated_sequence in Hr; [discriminate|lia|exact Hrun]. }
  split; [|split; [|split; [|exact Hgen]]].
  - intros s Hs. unfold spec_valid. cbv zeta. split.
    + intros (Hl & Hm & Hr)%Hgen. split; [exact Hl|]. split; [|exact Hr].
      apply pattern_matches_spec; [now apply spec_strip_ascii|exact Hm].
    + intros (Hl & Hm & Hr). apply is_valid_format_unfold.
      split; [intros ->; discriminate Hl|].
      split; [apply (spec_strip_alnum_valid s Hs), spec_matches_alnum, Hm|].
      split; [exact Hl|].
      split; [apply FULL_CNPJ_PATTERN_14; [exact Hl|apply spec_matches_pattern, Hm]|].
      apply not_true_is_false. intros H. apply Hr. now apply repeated_sequence_run.
  - intros s Hlt. apply not_true_is_false. intros H.
    apply is_valid_format_unfold in H as (_ & _ & Hl & _). lia.
  - intros c. apply not_true_is_false. intros H.
    apply Hgen in H as (Hl & _ & Hr).
    destruct (spec_strip_replicate 14 c) as [E|E]; rewrite E in *.
    + discriminate Hl.
    + rewrite length_flat_map_replicate in Hl.
      destruct (upper_char c) as [|u [|? ?]] eqn:Eu; simpl in Hl; try lia.
      apply Hr. exists u, 14. now apply flat_map_replicate_single.
Qed.

(** C7, counterexample.  Outside ASCII the code and the wording part
    ways.  The string of the ARABIC-INDIC DIGIT ONE (U+0661) followed by
    [2345678000190] is accepted, for [\d] reads a decimal digit of any
    script, and does not match [[A-Z0-9]{12}[0-9]{2}].  The 13
    characters of sharp s (U+00DF) followed by [234567800190] are
    refused, for sharp s is an invalid character, while their uppercase
    [SS234567800190] has 14 characters and matches. *)
Lemma arabic_indic_digit_is_accepted :
  let s := 1633%N :: ulit "2345678000190" in
  let t := 223%N :: ulit "234567800190" in
  is_valid_format (Some s) = true /\ ~ spec_valid s
  /\ is_valid_format (Some t) = false /\ spec_valid t.
Proof.
  cbv zeta. split; [vm_compute; reflexivity|]. split; [|split; [vm_compute; reflexivity|]].
  - intros (_ & (a & b & E & Ha & Hall & _) & _).
    destruct a as [|c a]; [discriminate Ha|].
    vm_compute in E. injection E as <- _.
    inversion Hall as [|? ? Hc _]. discriminate Hc.
  - unfold spec_valid. cbv zeta.
    assert (E : spec_strip (223%N :: ulit "234567800190") = ulit "SS234567800190")
      by (vm_compute; reflexivity).
    rewrite E. split; [reflexivity|]. split.
    + exists (ulit "SS2345678001"), (ulit "90"). split; [reflexivity|].
      split; [reflexivity|]. split; [|split; [reflexivity|]]; repeat constructor.
    + intros (c & n & En). vm_compute in En.
      destruct n as [|[|[|n]]]; try discriminate En. simpl in En.
      injection En as <- _ E2. discriminate E2.
Qed.

(** The codec on the inputs of the repository's tests. *)
Lemma is_valid_format_spec_witness :
  is_valid_format (Some (ulit "12.345.678/0001-90")) = true /\
  is_valid_format (Some (ulit "12abc34501de35")) = true /\
  is_valid_format (Some (ulit "123")) = false /\
  is_valid_format (Some (ulit "11111111111111")) = false.
Proof.
  destruct is_valid_format_spec as (Hiff & Hshort & Hrun & _).
  split; [|split; [|split]].
  - apply Hiff; [apply Forall_forall; intros c Hc; apply N.ltb_lt;
                 revert c Hc; apply Forall_forall; vm_compute; repeat constructor|].
    unfold spec_valid. cbv zeta.
    split; [reflexivity|]. split.
    + exists (ulit "123456780001"), (ulit "90"). split; [reflexivity|].
      split; [reflexivity|]. split; [|split; [reflexivity|]]; repeat constructor.
    + intros (c & n & E). vm_compute in E.
      destruct n as [|[|n]]; try discriminate E. simpl in E. congruence.
  - apply Hiff; [apply Forall_forall; intros c Hc; apply N.ltb_lt;
                 revert c Hc; apply Forall_forall; vm_compute; repeat constructor|].
    unfold spec_valid. cbv zeta.
    split; [reflexivity|]. split.
    + exists (ulit "12ABC34501DE"), (ulit "35"). split; [reflexivity|].
      split; [reflexivity|]. split; [|split; [reflexivity|]]; repeat constructor.
    + intros (c & n & E). vm_compute in E.
      destruct n as [|[|n]]; try discriminate E. simpl in E. congruence.
  - apply Hshort. vm_compute. lia.
  - exact (Hrun (chr "1")).
Defined.

End CnpjUtilsFacts.

(** ** Document projector *)

Section ParquetIngestorFacts.
Import ParquetIngestor.

Lemma COALESCE_not_null x d : is_Some (COALESCE x d).
Proof. destruct x; simpl; eauto. Qed.

Lemma iso_date_not_null x : is_Some (iso_date x).
Proof.
  unfold iso_date. destruct x as [v|]; simpl; [|eauto].
  destruct (_ && _); simpl; eauto.
Qed.

Lemma CASE_not_null x whens els : is_Some els -> is_Some (CASE x whens els).
Proof.
  intros H. induction whens as [|[k v] rest IH]; simpl; [exact H|].
  destruct x as [s|]; [|exact IH]. destruct (bool_decide _); eauto.
Qed.

Lemma LPAD_two_chars (x : str) : LPAD (Some x) 2 (lit "0") = Some (two_chars x).
Proof. destruct x as [|c1 [|c2 x]]; reflexivity. Qed.

Lemma CASE_status (k x : str) :
  CASE (Some k) status_table (Some x) = Some (default x (spec_status k)).
Proof.
  unfold status_table, spec_status. simpl.
  repeat (destruct (bool_decide _); [reflexivity|]). reflexivity.
Qed.

(** Every string field of the document except the identifier, the status
    and the headquarters flag is a string on every row. *)
Lemma coalesced_fields_not_null (r : joined_row) (name : string) (v : option str) :
  In (name, v) (string_fields (_get_json_struct_fields r)) ->
  name <> "cnpj"%string -> name <> "situacao_cadastral"%string ->
  name <> "matriz_filial"%string ->
  is_Some v.
Proof.
  unfold string_fields, _get_json_struct_fields. simpl.
  intros H H1 H2 H3.
  repeat (destruct H as [[= <- <-]|H];
          [first [congruence | apply COALESCE_not_null | apply iso_date_not_null
                 | apply CASE_not_null, COALESCE_not_null]|]).
  destruct H.
Qed.

(** The status and the headquarters flag are [NULL] exactly when their
    column is. *)
Lemma situacao_cadastral_null x :
  situacao_cadastral_expr x = None <-> x = None.
Proof.
  destruct x as [s|]; [|split; reflexivity].
  unfold situacao_cadastral_expr. rewrite LPAD_two_chars, CASE_status.
  split; discriminate.
Qed.

Lemma matriz_filial_null x : matriz_filial_expr x = None <-> x = None.
Proof.
  destruct x as [s|]; [|split; reflexivity].
  unfold matriz_filial_expr. simpl.
  repeat (destruct (bool_decide _); [split; discriminate|]). split; discriminate.
Qed.

(** C4 (the code departs from the claim).  On an establishment row whose
    status and headquarters columns are [NULL], the projected
    [situacao_cadastral] and [matriz_filial] are [NULL], not the empty string: their
    [CASE ... ELSE] branches return the raw column without [COALESCE],
    which the sibling [porte_empresa] and every other field have. *)
Theorem null_columns_project_to_null :
  let d := _get_json_struct_fields
             (bare_row (lit "12345678") (lit "0001") (lit "90")) in
  cnpj d = Some (lit "12345678000190") /\
  situacao_cadastral d = None /\
  matriz_filial d = None /\
  porte_empresa d = Some [] /\
  nome_fantasia d = Some [].
Proof. cbv zeta. repeat split. Qed.

(** C5, counterexample.  The code ["2"] is not one of the table's codes,
    and it is not passed through: it is translated to ["Ativa"]. *)
Lemma status_2_not_passed_through :
  spec_status (lit "2") = None /\
  situacao_cadastral_expr (Some (lit "2")) = Some (lit "Ativa") /\
  situacao_cadastral_expr (Some (lit "2")) <> Some (lit "2").
Proof. repeat split. discriminate. Qed.

(** C5, amended.  The status is translated through the table
    [01 -> Nula, 02 -> Ativa, 03 -> Suspensa, 04 -> Inapta, 08 -> Baixada]
    applied to the code brought to two characters (zeros in front of a
    shorter code, the first two characters of a longer one); a code whose
    two-character form is not in the table is passed through unchanged,
    and a [NULL] code stays [NULL]. *)
Theorem situacao_cadastral_translation :
  (forall code : str,
     situacao_cadastral_expr (Some code)
     = Some (default code (spec_status (two_chars code)))) /\
  (forall code : str,
     length code = 2 ->
     situacao_cadastral_expr (Some code) = Some (default code (spec_status code))) /\
  situacao_cadastral_expr None = None.
Proof.
  split; [|split; [|reflexivity]].
  - intros code. unfold situacao_cadastral_expr.
    now rewrite LPAD_two_chars, CASE_status.
  - intros code Hlen. unfold situacao_cadastral_expr.
    rewrite LPAD_two_chars, CASE_status.
    destruct code as [|c1 [|c2 [|c3 code]]]; try discriminate Hlen. reflexivity.
Qed.

(** The translation on the codes of the table, on a one-digit code and on
    an unknown code. *)
Lemma situacao_cadastral_translation_witness :
  situacao_cadastral_expr (Some (lit "08")) = Some (lit "Baixada") /\
  situacao_cadastral_expr (Some (lit "8")) = Some (lit "Baixada") /\
  situacao_cadastral_expr (Some (lit "05")) = Some (lit "05").
Proof.
  destruct situacao_cadastral_translation as (Hall & H2 & _).
  split; [|split].
  - exact (H2 (lit "08") eq_refl).
  - exact (Hall (lit "8")).
  - exact (H2 (lit "05") eq_refl).
Defined.

End ParquetIngestorFacts.

(** ** Hash catalog *)

Section HashCacheManagerFacts.
Import HashCacheManager.

Implicit Types (c : connection) (items batch : list ProcessedItem).
Implicit Types (catalog : gmap (list ascii) (list ascii)).

Lemma select_in_lookup c (cnpjs : list (list ascii)) k :
  k ∈ cnpjs -> select_in c cnpjs !! k = rows c !! k.
Proof.
  intros Hk. unfold select_in. destruct (rows c !! k) as [h|] eqn:E.
  - apply map_lookup_filter_Some. split; [exact E|exact Hk].
  - apply map_lookup_filter_None. left. exact E.
Qed.

Lemma check_item_spec existing catalog acc item :
  existing !! cnpj item = catalog !! cnpj item ->
  check_item existing acc item =
    (acc.1.1 ++ filter (spec_changed catalog) [item],
     acc.1.2 + length (filter (absent catalog) [item]),
     acc.2 + length (filter (outdated catalog) [item])).
Proof.
  intros E. destruct acc as [[ys n] u]. unfold check_item. rewrite E. simpl.
  rewrite !filter_cons, !filter_nil.
  unfold spec_changed_dec, outdated_dec, absent, outdated, spec_changed.
  destruct (catalog !! cnpj item) as [h|] eqn:Ec.
  - destruct (decide (Some h = None)) as [?|_]; [discriminate|].
    destruct (decide (h = hash item)) as [Eh|Nh].
    + rewrite bool_decide_eq_false_2 by (intros H; contradiction).
      simpl. now rewrite app_nil_r, !Nat.add_0_r.
    + rewrite bool_decide_eq_true_2 by exact Nh. simpl. now rewrite Nat.add_0_r.
  - destruct (decide (None = None)) as [_|?]; [|contradiction].
    simpl. now rewrite Nat.add_0_r.
Qed.

Lemma foldl_check_item existing catalog batch acc :
  (forall item, item ∈ batch -> existing !! cnpj item = catalog !! cnpj item) ->
  foldl (check_item existing) acc batch =
    (acc.1.1 ++ filter (spec_changed catalog) batch,
     acc.1.2 + length (filter (absent catalog) batch),
     acc.2 + length (filter (outdated catalog) batch)).
Proof.
  revert acc. induction batch as [|item batch IH]; intros acc H.
  - simpl. destruct acc as [[ys n] u]. simpl.
    now rewrite app_nil_r, !Nat.add_0_r.
  - simpl foldl. rewrite IH by (intros; apply H; now right).
    rewrite (check_item_spec existing catalog) by (apply H; now left).
    simpl. rewrite <- !app_assoc, <- !Nat.add_assoc, <- !length_app.
    rewrite <- !filter_app. reflexivity.
Qed.

Lemma check_batch_spec c items acc i :
  let batch := take check_batch_size (drop i items) in
  check_batch c items acc i =
    (acc.1.1 ++ filter (spec_changed (rows c)) batch,
     acc.1.2 + length (filter (absent (rows c)) batch),
     acc.2 + length (filter (outdated (rows c)) batch)).
Proof.
  cbv zeta. unfold check_batch. apply foldl_check_item.
  intros item Hin. apply select_in_lookup. now apply list_elem_of_fmap_2.
Qed.

Lemma foldl_check_batch c items m :
  foldl (check_batch c items) ([], 0, 0)
        (map (fun k => k * check_batch_size) (seq 0 m)) =
    (filter (spec_changed (rows c)) (take (m * check_batch_size) items),
     length (filter (absent (rows c)) (take (m * check_batch_size) items)),
     length (filter (outdated (rows c)) (take (m * check_batch_size) items))).
Proof.
  induction m as [|m IH].
  - simpl. now rewrite take_0.
  - rewrite seq_S, map_app, foldl_app, IH. simpl map. simpl foldl.
    rewrite check_batch_spec. cbv zeta. simpl fst. simpl snd.
    replace (S m * check_batch_size) with (m * check_batch_size + check_batch_size)
      by lia.
    rewrite <- (take_take_drop items (m * check_batch_size) check_batch_size).
    now rewrite !filter_app, !length_app.
Qed.

Lemma range_step_covers n :
  n <= (n + check_batch_size - 1) / check_batch_size * check_batch_size.
Proof.
  unfold check_batch_size.
  pose proof (Nat.div_mod_eq (n + 500 - 1) 500) as E.
  pose proof (Nat.mod_upper_bound (n + 500 - 1) 500 ltac:(lia)) as B. lia.
Qed.

Lemma set_lock_release st : _lock st = false -> set_lock false (set_lock true st) = st.
Proof. destruct st. simpl. intros ->. reflexivity. Qed.

(** The generator under the lock: the loop over the chunks, run on the
    rows the connection sees. *)
Lemma get_items_to_process_async_run st c items :
  _initialized st = true ->
  _connection st = Some c ->
  _lock st = false ->
  get_items_to_process_async items st =
    Returned (foldl (check_batch c items) ([], 0, 0)
                    (range_step (length items) check_batch_size)) st.
Proof.
  intros Hi Hc Hl.
  destruct st as [conn tr p ini lk]. simpl in Hi, Hc, Hl. subst conn ini lk.
  unfold get_items_to_process_async, bind at 1, get_state.
  cbn [_initialized _connection negb orb].
  rewrite bool_decide_eq_true_2 by eauto.
  cbv [negb with_lock acquire release the_connection try_finally bind ret
       _lock _connection set_lock _current_transaction _pending_inserts
       _initialized].
  reflexivity.
Qed.

(** The chunks of 500 cover the input, in order. *)
Lemma foldl_check_batch_all c items :
  foldl (check_batch c items) ([], 0, 0)
        (range_step (length items) check_batch_size) =
    (filter (spec_changed (rows c)) items,
     length (filter (absent (rows c)) items),
     length (filter (outdated (rows c)) items)).
Proof.
  unfold range_step.
  rewrite foldl_check_batch, take_ge by (rewrite <- range_step_covers; lia).
  reflexivity.
Qed.

(** C2.  On an initialized catalog, [diff] yields exactly the inputs
    whose identifier is absent from the catalog or present with another
    hash, in input order (the probes by chunks of 500 do not show), and
    leaves the catalog as it found it; the two counters count the absent
    and the changed items. *)
Theorem get_items_to_process_async_spec st c items :
  _initialized st = true ->
  _connection st = Some c ->
  _lock st = false ->
  get_items_to_process_async items st =
    Returned (filter (spec_changed (rows c)) items,
              length (filter (absent (rows c)) items),
              length (filter (outdated (rows c)) items)) st.
Proof.
  intros Hi Hc Hl.
  rewrite (get_items_to_process_async_run st c items Hi Hc Hl).
  f_equal. apply foldl_check_batch_all.
Qed.

Lemma get_items_to_process_async_spec_witness :
  get_items_to_process_async items0 (initialized_with catalog0) =
    Returned (drop 1 items0, 1, 1) (initialized_with catalog0).
Proof.
  exact (get_items_to_process_async_spec (initialized_with catalog0) _ items0
           eq_refl eq_refl eq_refl).
Defined.

(** [add_async] called on its own, with the lock free, inserts or
    replaces the row and leaves the transaction open. *)
Lemma add_async_inserts c tr p k h :
  p + 1 < BATCH_SIZE ->
  add_async k h {| _connection := Some c; _current_transaction := tr;
                   _pending_inserts := p; _initialized := true; _lock := false |} =
    Returned tt {| _connection := Some {| rows := <[k := h]> (rows c);
                                          committed := committed c |};
                   _current_transaction := true;
                   _pending_inserts := p + 1; _initialized := true; _lock := false |}.
Proof.
  intros Hp. unfold add_async, acquire, release, try_finally, bind, get_state, modify, ret,
    the_connection. cbn [_lock set_lock _connection _current_transaction
    _pending_inserts _initialized].
  destruct tr; cbn [_lock set_lock _connection _current_transaction
    _pending_inserts _initialized set_connection set_pending_inserts
    set_current_transaction];
  (destruct (BATCH_SIZE <=? p + 1) eqn:E; [apply Nat.leb_le in E; lia|]);
  reflexivity.
Qed.

(** With no item, [add_batch_async] takes the lock, commits what is
    pending and returns. *)
Lemma add_batch_async_nil c p :
  add_batch_async [] {| _connection := Some c; _current_transaction := true;
                        _pending_inserts := p; _initialized := true; _lock := false |} =
    Returned tt {| _connection := Some {| rows := rows c; committed := rows c |};
                   _current_transaction := false;
                   _pending_inserts := 0; _initialized := true; _lock := false |}.
Proof. reflexivity. Qed.

(** C6 (the code departs from the claim).  With at least one item,
    [add_batch_async] never completes: it holds [cls._lock] and calls
    [add_async], which awaits the same lock.  It stays suspended before
    the first INSERT: the table is untouched and nothing is committed. *)
Theorem add_batch_async_blocks db item items :
  add_batch_async (item :: items) (initialized_with db) =
    Blocked (set_lock true (initialized_with db)).
Proof. reflexivity. Qed.

End HashCacheManagerFacts.

(** ** JSON canonicalizer *)

Section JsonValueFacts.

(** Induction on a JSON value, with the property known of every element
    of a list and every value of a dict. *)
Lemma JsonValue_nested_ind (P : JsonValue -> Prop) :
  P JNull -> (forall b, P (JBool b)) -> (forall n, P (JInt n)) ->
  (forall r, P (JFloat r)) -> (forall s, P (JStr s)) ->
  (forall items, Forall P items -> P (JList items)) ->
  (forall pairs, Forall (fun kv => P kv.2) pairs -> P (JDict pairs)) ->
  forall v, P v.
Proof.
  intros Hnull Hbool Hint Hfloat Hstr Hlist Hdict.
  fix IH 1. intros [ | b | n | r | s | items | pairs].
  - exact Hnull.
  - apply Hbool.
  - apply Hint.
  - apply Hfloat.
  - apply Hstr.
  - apply Hlist. induction items as [|x items IHitems]; constructor.
    + apply IH.
    + exact IHitems.
  - apply Hdict. induction pairs as [|[k x] pairs IHpairs]; constructor.
    + apply IH.
    + exact IHpairs.
Qed.

End JsonValueFacts.

Section JsonCleanupUtilsFacts.
Import JsonCleanupUtils.

Lemma single_spaces_fixed r t :
  single_spaces r t = true -> sub_spaces r t = t.
Proof.
  revert r. induction t as [|c t IH]; intros r; simpl; [reflexivity|].
  destruct (isspace c).
  - destruct r; simpl; [discriminate|].
    intros [Hc Ht]%andb_true_iff. apply bool_decide_eq_true in Hc as ->.
    now rewrite (IH true Ht).
  - intros Ht. now rewrite (IH false Ht).
Qed.

Lemma single_spaces_weaken t :
  single_spaces true t = true -> single_spaces false t = true.
Proof.
  destruct t as [|c t]; simpl; [discriminate|].
  destruct (isspace c); simpl; [discriminate|auto].
Qed.

Lemma single_spaces_last r t :
  single_spaces r t = true -> t <> [] ->
  exists t0 c, t = t0 ++ [c] /\ isspace c = false.
Proof.
  revert r. induction t as [|c t IH]; intros r H Hne; [congruence|].
  simpl in H. destruct (isspace c) eqn:Ec.
  - apply andb_true_iff in H as [_ Ht].
    destruct t as [|d t]; [discriminate Ht|].
    destruct (IH true Ht) as (t0 & e & E & He); [discriminate|].
    exists (c :: t0), e. rewrite E. auto.
  - destruct t as [|d t].
    + exists [], c. auto.
    + destruct (IH false H) as (t0 & e & E & He); [discriminate|].
      exists (c :: t0), e. rewrite E. auto.
Qed.

Lemma lstrip_fixed c t : isspace c = false -> lstrip (c :: t) = c :: t.
Proof. intros H. simpl. now rewrite H. Qed.

Lemma rstrip_fixed t c : isspace c = false -> rstrip (t ++ [c]) = t ++ [c].
Proof.
  intros H. unfold rstrip. rewrite rev_app_distr. simpl.
  rewrite H. simpl. now rewrite rev_involutive.
Qed.

Lemma normalized_strip t : normalized t = true -> strip t = t.
Proof.
  destruct t as [|c t]; [reflexivity|]. unfold normalized. intros H.
  destruct (single_spaces_last true (c :: t) H) as (t0 & e & E & He); [discriminate|].
  unfold strip. simpl in H. destruct (isspace c) eqn:Ec; [discriminate H|].
  rewrite (lstrip_fixed c t Ec), E. now apply rstrip_fixed.
Qed.

Lemma normalized_fixed t : normalized t = true -> normalize_spaces t = t.
Proof.
  intros H. unfold normalize_spaces. rewrite (normalized_strip t H).
  destruct t as [|c t]; [reflexivity|]. simpl negb. cbv iota.
  apply single_spaces_fixed, single_spaces_weaken, H.
Qed.

Lemma lstrip_suffix s : exists p, s = p ++ lstrip s.
Proof.
  induction s as [|c s [p IH]]; [now exists []|]. simpl.
  destruct (isspace c); [|now exists []].
  exists (c :: p). simpl. now rewrite <- IH.
Qed.

(** [strip] leaves nothing, or a string whose first and last characters
    are not white space. *)
Lemma strip_ends s :
  strip s = [] \/
  exists c u d t0, strip s = c :: u /\ isspace c = false /\
                   strip s = t0 ++ [d] /\ isspace d = false.
Proof.
  unfold strip, rstrip.
  destruct (lstrip (rev (lstrip s))) as [|d w] eqn:Ew; [now left|right].
  assert (Hd := lstrip_head _ _ _ Ew).
  destruct (lstrip_suffix (rev (lstrip s))) as [p Hp]. rewrite Ew in Hp.
  apply (f_equal (@rev ascii)) in Hp. rewrite rev_involutive in Hp.
  rewrite rev_app_distr in Hp. simpl rev. simpl rev in Hp.
  destruct (rev w ++ [d]) as [|c u] eqn:Eu.
  { destruct (rev w); discriminate Eu. }
  exists c, u, d, (rev w). split; [reflexivity|]. split; [|auto].
  simpl in Hp. eapply lstrip_head. exact Hp.
Qed.

Lemma sub_spaces_single r u :
  (exists t0 d, u = t0 ++ [d] /\ isspace d = false) ->
  single_spaces r (sub_spaces r u) = true.
Proof.
  revert r. induction u as [|c u IH]; intros r (t0 & d & E & Hd).
  { destruct t0; discriminate E. }
  assert (Htail : u = [] /\ c = d \/ exists t1, u = t1 ++ [d]).
  { destruct t0 as [|c0 t0]; simpl in E; injection E as -> ->; eauto. }
  simpl. destruct (isspace c) eqn:Ec.
  - destruct Htail as [[_ ->]|[t1 E1]]; [congruence|].
    destruct r; simpl.
    + apply IH. eauto.
    + apply IH. eauto.
  - simpl. rewrite Ec. destruct Htail as [[-> _]|[t1 E1]]; [reflexivity|].
    apply IH. eauto.
Qed.

Lemma normalize_spaces_normalized s : normalized (normalize_spaces s) = true.
Proof.
  unfold normalize_spaces. destruct s as [|a s]; [reflexivity|]. simpl negb. cbv iota.
  destruct (strip_ends (a :: s)) as [E|(c & u & d & t0 & E & Hc & E' & Hd)].
  - now rewrite E.
  - assert (H : single_spaces false (sub_spaces false (strip (a :: s))) = true)
      by (apply sub_spaces_single; rewrite E'; eauto).
    rewrite E in H |- *. simpl in H |- *. rewrite Hc in H |- *.
    unfold normalized. simpl. rewrite Hc. simpl in H. rewrite Hc in H. exact H.
Qed.

(** [normalize_spaces] is idempotent. *)
Lemma normalize_spaces_idempotent s :
  normalize_spaces (normalize_spaces s) = normalize_spaces s.
Proof. apply normalized_fixed, normalize_spaces_normalized. Qed.

(** [_clean_element] on values. *)
Lemma _clean_element_idempotent v :
  _clean_element (_clean_element v) = _clean_element v.
Proof.
  induction v as [ | | | | s | items IH | pairs IH] using JsonValue_nested_ind;
    simpl; try reflexivity.
  - now rewrite normalize_spaces_idempotent.
  - f_equal. rewrite map_map. apply map_ext_Forall. exact IH.
  - f_equal. rewrite map_map. apply map_ext_Forall.
    eapply Forall_impl; [exact IH|]. intros [k x] Hx. simpl in *. now rewrite Hx.
Qed.

Lemma _clean_element_shape v : shape (_clean_element v) = shape v.
Proof.
  induction v as [ | | | | s | items IH | pairs IH] using JsonValue_nested_ind;
    simpl; try reflexivity.
  - f_equal. rewrite map_map. apply map_ext_Forall. exact IH.
  - f_equal. rewrite map_map. apply map_ext_Forall.
    eapply Forall_impl; [exact IH|]. intros [k x] Hx. simpl in *. now rewrite Hx.
Qed.

Lemma flat_map_map {A B C} (f : A -> B) (g : B -> list C) l :
  flat_map g (map f l) = flat_map (fun x => g (f x)) l.
Proof. induction l as [|x l IH]; simpl; [reflexivity|]. now rewrite IH. Qed.

Lemma flat_map_ext_Forall {A B} (f g : A -> list B) l :
  Forall (fun x => f x = g x) l -> flat_map f l = flat_map g l.
Proof. induction 1 as [|x l Hx _ IH]; simpl; [reflexivity|]. now rewrite Hx, IH. Qed.

Lemma map_flat_map {A B C} (f : B -> C) (g : A -> list B) l :
  map f (flat_map g l) = flat_map (fun x => map f (g x)) l.
Proof. induction l as [|x l IH]; simpl; [reflexivity|]. now rewrite map_app, IH. Qed.

Lemma _clean_element_keys v : keys (_clean_element v) = keys v.
Proof.
  induction v as [ | | | | s | items IH | pairs IH] using JsonValue_nested_ind;
    simpl; try reflexivity.
  - rewrite flat_map_map. apply flat_map_ext_Forall. exact IH.
  - rewrite flat_map_map. apply flat_map_ext_Forall.
    eapply Forall_impl; [exact IH|]. intros [k x] Hx. simpl in *. now rewrite Hx.
Qed.

Lemma _clean_element_strings v :
  strings (_clean_element v) = map normalize_spaces (strings v).
Proof.
  induction v as [ | | | | s | items IH | pairs IH] using JsonValue_nested_ind;
    simpl; try reflexivity.
  - rewrite flat_map_map, map_flat_map. apply flat_map_ext_Forall. exact IH.
  - rewrite flat_map_map, map_flat_map. apply flat_map_ext_Forall.
    eapply Forall_impl; [exact IH|]. intros [k x] Hx. simpl in *. exact Hx.
Qed.

Lemma _clean_element_dict_keys pairs :
  exists pairs', _clean_element (JDict pairs) = JDict pairs' /\
                 map fst pairs' = map fst pairs.
Proof.
  eexists. split; [reflexivity|]. rewrite map_map. now apply map_ext.
Qed.

End JsonCleanupUtilsFacts.

(** ** The [json] codec on the fragment *)

Section PyJsonFacts.
Import PyJson.

Local Ltac ascii_cases c := destruct c as [[|] [|] [|] [|] [|] [|] [|] [|]].

Lemma scanstring_escape c X :
  scanstring (escape_char c ++ X) =
    match scanstring X with
    | Some (chars, rest) => Some (c :: chars, rest)
    | None => None
    end.
Proof. ascii_cases c; reflexivity. Qed.

Lemma scanstring_encode s rest :
  scanstring (flat_map escape_char s ++ quote :: rest) = Some (s, rest).
Proof.
  induction s as [|c s IH]; [reflexivity|].
  simpl flat_map. rewrite <- app_assoc, scanstring_escape, IH. reflexivity.
Qed.

(** *** Integers *)

Lemma nzhead_not_D0 u u' : Decimal.nzhead u <> Decimal.D0 u'.
Proof. induction u; simpl; try discriminate. exact IHu. Qed.

Lemma to_uint_no_leading_zero p u : Pos.to_uint p <> Decimal.D0 u.
Proof.
  intros E.
  pose proof (DecimalPos.Unsigned.to_of (Pos.to_uint p)) as H.
  rewrite DecimalPos.Unsigned.of_to in H. simpl in H.
  rewrite E, unorm_D0 in H. unfold Decimal.unorm in H.
  destruct (Decimal.nzhead u) eqn:En; try discriminate H.
  - injection H as ->. now apply (DecimalPos.Unsigned.to_uint_nonzero p).
  - now apply nzhead_not_D0 in En.
Qed.

Lemma digit_of_not_digit c : isdigit c = false -> digit_of c = None.
Proof. ascii_cases c; vm_compute; congruence. Qed.

Lemma scan_digits_app u rest :
  no_digit_ahead rest -> scan_digits (digits u ++ rest) = (u, rest).
Proof.
  intros Hrest. induction u; simpl; try (rewrite IHu; reflexivity).
  destruct rest as [|c r]; [reflexivity|]. simpl.
  now rewrite (digit_of_not_digit c Hrest).
Qed.

Lemma scan_natural_app u rest :
  u <> Decimal.Nil -> (forall u', u = Decimal.D0 u' -> u' = Decimal.Nil) ->
  no_digit_ahead rest ->
  scan_natural (digits u ++ rest) = Some (u, rest).
Proof.
  intros Hnil Hzero Hrest.
  destruct u as [|u|u|u|u|u|u|u|u|u|u]; [congruence| |..].
  - rewrite (Hzero u eq_refl). reflexivity.
  - transitivity (Some (scan_digits (digits (Decimal.D1 u) ++ rest)));
      [reflexivity|now rewrite scan_digits_app].
  - transitivity (Some (scan_digits (digits (Decimal.D2 u) ++ rest)));
      [reflexivity|now rewrite scan_digits_app].
  - transitivity (Some (scan_digits (digits (Decimal.D3 u) ++ rest)));
      [reflexivity|now rewrite scan_digits_app].
  - transitivity (Some (scan_digits (digits (Decimal.D4 u) ++ rest)));
      [reflexivity|now rewrite scan_digits_app].
  - transitivity (Some (scan_digits (digits (Decimal.D5 u) ++ rest)));
      [reflexivity|now rewrite scan_digits_app].
  - transitivity (Some (scan_digits (digits (Decimal.D6 u) ++ rest)));
      [reflexivity|now rewrite scan_digits_app].
  - transitivity (Some (scan_digits (digits (Decimal.D7 u) ++ rest)));
      [reflexivity|now rewrite scan_digits_app].
  - transitivity (Some (scan_digits (digits (Decimal.D8 u) ++ rest)));
      [reflexivity|now rewrite scan_digits_app].
  - transitivity (Some (scan_digits (digits (Decimal.D9 u) ++ rest)));
      [reflexivity|now rewrite scan_digits_app].
Qed.

Lemma digits_start u :
  u <> Decimal.Nil -> exists c tl, digits u = c :: tl /\ isdigit c = true.
Proof. destruct u; [congruence|..]; intros _; eexists _, _; split; reflexivity. Qed.

Lemma scan_int_digits u rest :
  u <> Decimal.Nil ->
  scan_int (digits u ++ rest) =
    match scan_natural (digits u ++ rest) with
    | Some (u', r) => Some (Z.of_int (Decimal.Pos u'), r)
    | None => None
    end.
Proof. destruct u; [congruence|..]; intros _; reflexivity. Qed.

Lemma scan_int_encode n rest :
  no_digit_ahead rest -> scan_int (encode_int n ++ rest) = Some (n, rest).
Proof.
  intros Hrest. destruct n as [|p|p]; [reflexivity| |].
  - unfold encode_int. simpl Z.to_int. cbv iota.
    rewrite scan_int_digits by apply DecimalPos.Unsigned.to_uint_nonnil.
    rewrite scan_natural_app;
      [|apply DecimalPos.Unsigned.to_uint_nonnil
       |intros u' E; now apply to_uint_no_leading_zero in E|exact Hrest].
    f_equal. f_equal. exact (DecimalZ.of_to (Z.pos p)).
  - unfold encode_int. simpl Z.to_int. cbv iota.
    transitivity (match scan_natural (digits (Pos.to_uint p) ++ rest) with
                  | Some (u, r) => Some (Z.of_int (Decimal.Neg u), r)
                  | None => None
                  end); [reflexivity|].
    rewrite scan_natural_app;
      [|apply DecimalPos.Unsigned.to_uint_nonnil
       |intros u' E; now apply to_uint_no_leading_zero in E|exact Hrest].
    f_equal. f_equal. exact (DecimalZ.of_to (Z.neg p)).
Qed.

Lemma encode_int_start n :
  exists c tl, encode_int n = c :: tl /\ (is_char c "-" || isdigit c = true).
Proof.
  destruct n as [|p|p].
  - eexists _, _. split; reflexivity.
  - unfold encode_int. simpl Z.to_int. cbv iota.
    destruct (digits_start (Pos.to_uint p)) as (c & tl & E & Hc);
      [apply DecimalPos.Unsigned.to_uint_nonnil|].
    exists c, tl. split; [exact E|]. rewrite Hc. apply orb_true_r.
  - unfold encode_int. simpl Z.to_int. cbv iota.
    eexists _, _. split; reflexivity.
Qed.

(** *** Values *)

Lemma value_start_facts c :
  value_start c = true ->
  is_ws c = false /\ is_char c "]" = false /\ is_char c "}" = false.
Proof. ascii_cases c; vm_compute; intuition congruence. Qed.

Lemma int_start_facts c :
  is_char c "-" || isdigit c = true ->
  is_quote c = false /\ is_char c "{" = false /\ is_char c "[" = false /\
  is_char c "n" = false /\ is_char c "t" = false /\ is_char c "f" = false /\
  value_start c = true.
Proof. ascii_cases c; vm_compute; intuition congruence. Qed.

Lemma skip_ws_start c s : is_ws c = false -> skip_ws (c :: s) = c :: s.
Proof. intros H. simpl. now rewrite H. Qed.

Lemma scan_once_str f s :
  scan_once (S f) (quote :: s) =
    match scanstring s with
    | Some (chars, r) => Some (JStr chars, r)
    | None => None
    end.
Proof. reflexivity. Qed.

Lemma scan_once_int f c s :
  is_char c "-" || isdigit c = true ->
  scan_once (S f) (c :: s) =
    match scan_int (c :: s) with
    | Some (n, r) => Some (JInt n, r)
    | None => None
    end.
Proof.
  intros (H1 & H2 & H3 & H4 & H5 & H6 & _)%int_start_facts.
  simpl. now rewrite H1, H2, H3, H4, H5, H6.
Qed.

Lemma scan_once_list f s :
  scan_once (S f) ("["%char :: s) =
    match expect "]" (skip_ws s) with
    | Some r => Some (JList [], r)
    | None =>
        match JSONArray f (skip_ws s) with
        | Some (items, r) => Some (JList items, r)
        | None => None
        end
    end.
Proof. destruct f; reflexivity. Qed.

Lemma scan_once_dict f s :
  scan_once (S f) ("{"%char :: s) =
    match expect "}" (skip_ws s) with
    | Some r => Some (JDict [], r)
    | None =>
        match JSONObject f (skip_ws s) with
        | Some (pairs, r) => Some (JDict (dict_of_pairs pairs), r)
        | None => None
        end
    end.
Proof. destruct f; reflexivity. Qed.

Lemma JSONArray_unfold f s :
  JSONArray (S f) s =
    match scan_once f s with
    | Some (v, r) =>
        match expect "]" (skip_ws r) with
        | Some r' => Some ([v], r')
        | None =>
            match expect "," (skip_ws r) with
            | Some r' =>
                match JSONArray f (skip_ws r') with
                | Some (vs, r'') => Some (v :: vs, r'')
                | None => None
                end
            | None => None
            end
        end
    | None => None
    end.
Proof. destruct f; reflexivity. Qed.

Lemma JSONObject_unfold f s :
  JSONObject (S f) (quote :: s) =
    match scanstring s with
    | Some (key, r) =>
        match expect ":" (skip_ws r) with
        | Some r1 =>
            match scan_once f (skip_ws r1) with
            | Some (v, r2) =>
                match expect "}" (skip_ws r2) with
                | Some r3 => Some ([(key, v)], r3)
                | None =>
                    match expect "," (skip_ws r2) with
                    | Some r3 =>
                        match JSONObject f (skip_ws r3) with
                        | Some (kvs, r4) => Some ((key, v) :: kvs, r4)
                        | None => None
                        end
                    | None => None
                    end
                end
            | None => None
            end
        | None => None
        end
    | None => None
    end.
Proof. destruct f; reflexivity. Qed.

Lemma encode_start v :
  in_fragment v = true ->
  exists c tl, encode v = c :: tl /\ value_start c = true.
Proof.
  destruct v as [ | [|] | n | r | s | items | pairs]; intros H;
    try (eexists _, _; split; reflexivity); [|discriminate H].
  destruct (encode_int_start n) as (c & tl & E & Hc).
  exists c, tl. split; [exact E|]. now apply int_start_facts in Hc.
Qed.

Lemma skip_ws_encode v rest :
  in_fragment v = true -> skip_ws (encode v ++ rest) = encode v ++ rest.
Proof.
  intros (c & tl & -> & Hc)%encode_start. apply skip_ws_start.
  now apply value_start_facts in Hc.
Qed.

Lemma expect_close_encode (close : string) v rest :
  close = "]"%string \/ close = "}"%string ->
  in_fragment v = true -> expect close (encode v ++ rest) = None.
Proof.
  intros Hclose (c & tl & -> & Hc)%encode_start.
  apply value_start_facts in Hc as (_ & H1 & H2).
  simpl. destruct Hclose as [-> | ->]; [now rewrite H1|now rewrite H2].
Qed.

Lemma dict_set_fresh k v (d : list (list ascii * JsonValue)) :
  k ∉ map fst d -> dict_set k v d = d ++ [(k, v)].
Proof.
  induction d as [|[k' x] d IH]; simpl; [reflexivity|]. intros Hk.
  rewrite bool_decide_eq_false_2 by (intros ->; apply Hk; now left).
  rewrite IH; [reflexivity|]. intros H. apply Hk. now right.
Qed.

Lemma foldl_dict_set_NoDup (pairs acc : list (list ascii * JsonValue)) :
  NoDup (map fst (acc ++ pairs)) ->
  foldl (fun d kv => dict_set kv.1 kv.2 d) acc pairs = acc ++ pairs.
Proof.
  revert acc. induction pairs as [|[k v] pairs IH]; intros acc Hnd; simpl.
  - now rewrite app_nil_r.
  - rewrite dict_set_fresh.
    + rewrite IH; rewrite <- app_assoc; [reflexivity|exact Hnd].
    + rewrite map_app in Hnd. apply NoDup_app in Hnd as (_ & Hdisj & _).
      intros Hin. apply (Hdisj k Hin). now left.
Qed.

Lemma dict_of_pairs_NoDup (pairs : list (list ascii * JsonValue)) :
  NoDup (map fst pairs) -> dict_of_pairs pairs = pairs.
Proof. intros H. unfold dict_of_pairs. now rewrite foldl_dict_set_NoDup. Qed.

Lemma join_cons2 sep (p q : list ascii) rest :
  join sep (p :: q :: rest) = p ++ sep ++ join sep (q :: rest).
Proof. reflexivity. Qed.

Lemma JSONArray_encode items :
  Forall reads_back items -> forallb in_fragment items = true -> items <> [] ->
  forall fuel rest,
    list_sum (map (fun x => S (size x)) items) <= fuel ->
    JSONArray fuel (join (lit ",") (map encode items) ++ "]"%char :: rest)
    = Some (items, rest).
Proof.
  induction 1 as [|v items Hv Hitems IH]; intros Hfrag Hne fuel rest Hfuel;
    [congruence|].
  simpl in Hfrag. apply andb_true_iff in Hfrag as [Hfv Hfitems].
  simpl in Hfuel. destruct fuel as [|f]; [lia|]. rewrite JSONArray_unfold.
  destruct items as [|v2 items].
  - simpl join. rewrite (Hv Hfv f ("]"%char :: rest)); [reflexivity|lia|reflexivity].
  - change (map encode (v :: v2 :: items))
      with (encode v :: encode v2 :: map encode items).
    rewrite join_cons2, <- !app_assoc.
    set (tail := join (lit ",") (encode v2 :: map encode items) ++ "]"%char :: rest).
    change (lit "," ++ tail) with (","%char :: tail).
    rewrite (Hv Hfv f); [|lia|reflexivity].
    rewrite (skip_ws_start ","%char tail eq_refl).
    change (expect "]" (","%char :: tail)) with (@None (list ascii)).
    change (expect "," (","%char :: tail)) with (Some tail). cbv iota.
    assert (Hskip : skip_ws tail = tail).
    { subst tail. simpl in Hfitems. apply andb_true_iff in Hfitems as [Hf2 _].
      destruct (map encode items).
      - now apply skip_ws_encode.
      - rewrite join_cons2, <- app_assoc. now apply skip_ws_encode. }
    rewrite Hskip. subst tail.
    change (encode v2 :: map encode items) with (map encode (v2 :: items)).
    rewrite IH; [reflexivity|exact Hfitems|discriminate|lia].
Qed.

Lemma member_shape k v tail :
  member (k, v) ++ tail =
    quote :: flat_map escape_char k ++ quote :: ":"%char :: encode v ++ tail.
Proof.
  unfold member, encode_str. simpl fst. simpl snd.
  rewrite <- !app_assoc. reflexivity.
Qed.

Lemma JSONObject_encode pairs :
  Forall (fun kv => reads_back kv.2) pairs ->
  forallb (fun kv => in_fragment kv.2) pairs = true -> pairs <> [] ->
  forall fuel rest,
    list_sum (map (fun kv => S (size kv.2)) pairs) <= fuel ->
    JSONObject fuel (join (lit ",") (map member pairs) ++ "}"%char :: rest)
    = Some (pairs, rest).
Proof.
  induction 1 as [|[k v] pairs Hv Hpairs IH]; intros Hfrag Hne fuel rest Hfuel;
    [congruence|].
  simpl in Hfrag, Hv. apply andb_true_iff in Hfrag as [Hfv Hfpairs].
  simpl in Hfuel. destruct fuel as [|f]; [lia|].
  destruct pairs as [|kv2 pairs].
  - simpl map. simpl join. rewrite member_shape, JSONObject_unfold, scanstring_encode.
    rewrite (skip_ws_start ":"%char _ eq_refl).
    change (expect ":" (":"%char :: ?x)) with (Some x). cbv iota.
    rewrite (skip_ws_encode v _ Hfv), (Hv Hfv f); [reflexivity|lia|reflexivity].
  - change (map member ((k, v) :: kv2 :: pairs))
      with (member (k, v) :: member kv2 :: map member pairs).
    rewrite join_cons2, <- !app_assoc.
    set (tail := join (lit ",") (member kv2 :: map member pairs) ++ "}"%char :: rest).
    change (lit "," ++ tail) with (","%char :: tail).
    rewrite member_shape, JSONObject_unfold, scanstring_encode.
    rewrite (skip_ws_start ":"%char _ eq_refl).
    change (expect ":" (":"%char :: ?x)) with (Some x). cbv iota.
    rewrite (skip_ws_encode v _ Hfv), (Hv Hfv f); [|lia|reflexivity].
    rewrite (skip_ws_start ","%char tail eq_refl).
    change (expect "}" (","%char :: tail)) with (@None (list ascii)).
    change (expect "," (","%char :: tail)) with (Some tail). cbv iota.
    assert (Hskip : skip_ws tail = tail).
    { subst tail. destruct kv2 as [k2 v2]. destruct (map member pairs).
      - simpl join. rewrite member_shape. reflexivity.
      - rewrite join_cons2, <- !app_assoc, member_shape. reflexivity. }
    rewrite Hskip. subst tail.
    change (member kv2 :: map member pairs) with (map member (kv2 :: pairs)).
    rewrite IH; [reflexivity|exact Hfpairs|discriminate|lia].
Qed.

Lemma encode_list items rest :
  encode (JList items) ++ rest
  = "["%char :: join (lit ",") (map encode items) ++ "]"%char :: rest.
Proof.
  change (encode (JList items))
    with (lit "[" ++ join (lit ",") (map encode items) ++ lit "]").
  rewrite <- !app_assoc. reflexivity.
Qed.

Lemma encode_dict pairs rest :
  encode (JDict pairs) ++ rest
  = "{"%char :: join (lit ",") (map member pairs) ++ "}"%char :: rest.
Proof.
  change (encode (JDict pairs))
    with (lit "{" ++ join (lit ",") (map member pairs) ++ lit "}").
  rewrite <- !app_assoc. reflexivity.
Qed.

Lemma scan_once_encode v : reads_back v.
Proof.
  induction v as [ | b | n | r | s | items IH | pairs IH] using JsonValue_nested_ind;
    intros Hfrag fuel rest Hfuel Hrest;
    (destruct fuel as [|f]; [simpl in Hfuel; lia|]).
  - reflexivity.
  - destruct b; reflexivity.
  - simpl encode. destruct (encode_int_start n) as (c & tl & E & Hc).
    rewrite E. simpl app. rewrite (scan_once_int f c _ Hc).
    change (c :: tl ++ rest) with ((c :: tl) ++ rest).
    rewrite <- E, scan_int_encode by exact Hrest. reflexivity.
  - discriminate Hfrag.
  - simpl encode. unfold encode_str. rewrite <- !app_assoc. simpl app.
    now rewrite scan_once_str, scanstring_encode.
  - simpl in Hfrag, Hfuel. destruct items as [|v items]; [reflexivity|].
    rewrite encode_list, scan_once_list.
    assert (Hskip : forall tail,
      skip_ws (join (lit ",") (map encode (v :: items)) ++ tail)
      = join (lit ",") (map encode (v :: items)) ++ tail
      /\ expect "]" (join (lit ",") (map encode (v :: items)) ++ tail) = None).
    { intros tail. apply andb_true_iff in Hfrag as [Hfv _].
      change (map encode (v :: items)) with (encode v :: map encode items).
      destruct (map encode items).
      - simpl join. split; [now apply skip_ws_encode|].
        now apply expect_close_encode; [left|].
      - rewrite join_cons2, <- !app_assoc.
        split; [now apply skip_ws_encode|]. now apply expect_close_encode; [left|]. }
    destruct (Hskip ("]"%char :: rest)) as [-> ->].
    rewrite (JSONArray_encode (v :: items) IH Hfrag); [reflexivity|discriminate|lia].
  - simpl in Hfrag, Hfuel. apply andb_true_iff in Hfrag as [Hnd Hfrag].
    apply bool_decide_eq_true in Hnd.
    destruct pairs as [|[k v] pairs]; [reflexivity|].
    rewrite encode_dict, scan_once_dict.
    assert (Hskip : forall tail,
      skip_ws (join (lit ",") (map member ((k, v) :: pairs)) ++ tail)
      = join (lit ",") (map member ((k, v) :: pairs)) ++ tail
      /\ expect "}" (join (lit ",") (map member ((k, v) :: pairs)) ++ tail) = None).
    { intros tail.
      change (map member ((k, v) :: pairs)) with (member (k, v) :: map member pairs).
      destruct (map member pairs).
      - simpl join. rewrite member_shape. split; reflexivity.
      - rewrite join_cons2, <- !app_assoc, member_shape. split; reflexivity. }
    destruct (Hskip ("}"%char :: rest)) as [-> ->].
    rewrite (JSONObject_encode ((k, v) :: pairs) IH Hfrag); [|discriminate|lia].
    now rewrite dict_of_pairs_NoDup.
Qed.

(** *** Enough calls: the size of a value is at most the length of its text *)

Lemma length_join_ge (parts : list (list ascii)) :
  list_sum (map length parts) + length parts <= S (length (join (lit ",") parts)).
Proof.
  induction parts as [|p [|q parts] IH]; [simpl; lia|simpl; lia|].
  rewrite join_cons2, !length_app. simpl in IH |- *. lia.
Qed.

Lemma size_le_length v : in_fragment v = true -> size v <= length (encode v).
Proof.
  induction v as [ | b | n | r | s | items IH | pairs IH] using JsonValue_nested_ind;
    intros Hfrag.
  - simpl. lia.
  - destruct b; simpl; lia.
  - destruct (encode_int_start n) as (c & tl & E & _). simpl encode. rewrite E.
    simpl. lia.
  - discriminate Hfrag.
  - simpl. lia.
  - simpl in Hfrag. pose proof (encode_list items []) as E.
    rewrite app_nil_r in E. rewrite E. simpl size. simpl length.
    rewrite length_app. simpl length.
    pose proof (length_join_ge (map encode items)) as Hj.
    assert (Hs : list_sum (map (fun x => S (size x)) items)
                 <= list_sum (map length (map encode items)) + length (map encode items)).
    { clear E Hj. induction IH as [|x items Hx _ IHitems]; [simpl; lia|].
      simpl in Hfrag. apply andb_true_iff in Hfrag as [Hfx Hfitems].
      specialize (Hx Hfx). specialize (IHitems Hfitems). simpl. lia. }
    change (lit ",") with [","%char] in *. lia.
  - simpl in Hfrag. apply andb_true_iff in Hfrag as [_ Hfrag].
    pose proof (encode_dict pairs []) as E.
    rewrite app_nil_r in E. rewrite E. simpl size. simpl length.
    rewrite length_app. simpl length.
    pose proof (length_join_ge (map member pairs)) as Hj.
    assert (Hs : list_sum (map (fun kv => S (size kv.2)) pairs)
                 <= list_sum (map length (map member pairs)) + length (map member pairs)).
    { clear E Hj. induction IH as [|[k x] pairs Hx _ IHpairs]; [simpl; lia|].
      simpl in Hfrag, Hx. apply andb_true_iff in Hfrag as [Hfx Hfpairs].
      specialize (Hx Hfx). specialize (IHpairs Hfpairs).
      assert (Hm : size x <= length (member (k, x)))
        by (unfold member; rewrite !length_app; simpl; lia).
      cbn [map list_sum fold_right length snd]. unfold list_sum in IHpairs. lia. }
    change (lit ",") with [","%char] in *. lia.
Qed.

(** The reader gets back every value of the fragment from its text. *)
Lemma decode_encode v : in_fragment v = true -> decode (encode v) = Some v.
Proof.
  intros Hfrag. unfold decode.
  pose proof (skip_ws_encode v [] Hfrag) as Hskip. rewrite app_nil_r in Hskip.
  rewrite Hskip.
  pose proof (scan_once_encode v Hfrag (S (length (encode v))) []) as H.
  rewrite app_nil_r in H. rewrite H; [reflexivity| |exact I].
  pose proof (size_le_length v Hfrag). lia.
Qed.

(** *** What the reader returns is in the fragment *)

Lemma dict_set_keys_NoDup k v (d : list (list ascii * JsonValue)) :
  NoDup (map fst d) -> NoDup (map fst (dict_set k v d)).
Proof.
  intros Hnd. destruct (decide (k ∈ map fst d)) as [Hin|Hout].
  - assert (E : map fst (dict_set k v d) = map fst d); [|now rewrite E].
    clear Hnd. induction d as [|[k' x] d IH]; [inversion Hin|]. simpl.
    destruct (bool_decide (k' = k)) eqn:Ek; simpl; [reflexivity|].
    f_equal. apply IH. simpl in Hin. apply elem_of_cons in Hin as [->|Hin];
      [apply bool_decide_eq_false in Ek; congruence|exact Hin].
  - rewrite dict_set_fresh by exact Hout. rewrite map_app. simpl.
    apply NoDup_app. split; [exact Hnd|]. split.
    + intros x Hx [->|[]]%list_elem_of_In. contradiction.
    + apply NoDup_singleton.
Qed.

Lemma dict_set_values k v (d : list (list ascii * JsonValue)) :
  in_fragment v = true ->
  forallb (fun kv => in_fragment kv.2) d = true ->
  forallb (fun kv => in_fragment kv.2) (dict_set k v d) = true.
Proof.
  intros Hv. induction d as [|[k' x] d IH]; simpl; [now rewrite Hv|].
  intros [Hx Hd]%andb_true_iff.
  destruct (bool_decide (k' = k)); simpl.
  - now rewrite Hv, Hd.
  - now rewrite Hx, IH.
Qed.

Lemma dict_of_pairs_fragment pairs :
  forallb (fun kv => in_fragment kv.2) pairs = true ->
  in_fragment (JDict (dict_of_pairs pairs)) = true.
Proof.
  unfold dict_of_pairs.
  assert (H : forall acc,
    NoDup (map fst acc) -> forallb (fun kv => in_fragment kv.2) acc = true ->
    forallb (fun kv => in_fragment kv.2) pairs = true ->
    in_fragment (JDict (foldl (fun d kv => dict_set kv.1 kv.2 d) acc pairs)) = true).
  { induction pairs as [|[k v] pairs IH]; intros acc Hnd Hacc Hpairs.
    - simpl. now rewrite bool_decide_eq_true_2, Hacc.
    - simpl in Hpairs. apply andb_true_iff in Hpairs as [Hv Hpairs]. simpl foldl.
      apply IH; [now apply dict_set_keys_NoDup|now apply dict_set_values|exact Hpairs]. }
  apply H; [constructor|reflexivity].
Qed.

Lemma scan_fragment fuel :
  (forall s v r, scan_once fuel s = Some (v, r) -> in_fragment v = true) /\
  (forall s vs r, JSONArray fuel s = Some (vs, r) -> forallb in_fragment vs = true) /\
  (forall s kvs r, JSONObject fuel s = Some (kvs, r) ->
                   forallb (fun kv => in_fragment kv.2) kvs = true).
Proof.
  induction fuel as [|f (IHv & IHa & IHo)]; [repeat split; discriminate|].
  split; [|split].
  - intros [|c s] v r; [discriminate|]. simpl.
    destruct (is_quote c).
    { destruct (scanstring s) as [[chars r']|]; [|discriminate].
      intros [= <- _]. reflexivity. }
    destruct (is_char c "{").
    { destruct (expect "}" (skip_ws s)); [intros [= <- _]; reflexivity|].
      destruct (JSONObject f (skip_ws s)) as [[pairs r']|] eqn:E; [|discriminate].
      intros [= <- _]. apply dict_of_pairs_fragment. eapply IHo, E. }
    destruct (is_char c "[").
    { destruct (expect "]" (skip_ws s)); [intros [= <- _]; reflexivity|].
      destruct (JSONArray f (skip_ws s)) as [[items r']|] eqn:E; [|discriminate].
      intros [= <- _]. simpl. eapply IHa, E. }
    destruct (is_char c "n").
    { destruct (keyword "null" (c :: s)); [|discriminate]. intros [= <- _]. reflexivity. }
    destruct (is_char c "t").
    { destruct (keyword "true" (c :: s)); [|discriminate]. intros [= <- _]. reflexivity. }
    destruct (is_char c "f").
    { destruct (keyword "false" (c :: s)); [|discriminate]. intros [= <- _]. reflexivity. }
    match goal with
    | |- match ?X with _ => _ end = _ -> _ => destruct X as [[n r']|]
    end; [|discriminate].
    intros [= <- _]. reflexivity.
  - intros s vs r. rewrite JSONArray_unfold.
    destruct (scan_once f s) as [[v r1]|] eqn:Ev; [|discriminate].
    apply IHv in Ev.
    destruct (expect "]" (skip_ws r1)).
    { intros [= <- _]. simpl. now rewrite Ev. }
    destruct (expect "," (skip_ws r1)); [|discriminate].
    destruct (JSONArray f _) as [[vs' r2]|] eqn:Ea; [|discriminate].
    intros [= <- _]. simpl. rewrite Ev. eapply IHa, Ea.
  - intros [|c s] kvs r; [destruct f; discriminate|].
    destruct (is_quote c) eqn:Eq.
    2:{ destruct f; simpl; unfold expect_quote; rewrite Eq; discriminate. }
    apply bool_decide_eq_true in Eq as ->. rewrite JSONObject_unfold.
    destruct (scanstring s) as [[key r1]|]; [|discriminate].
    destruct (expect ":" (skip_ws r1)); [|discriminate].
    destruct (scan_once f _) as [[v r2]|] eqn:Ev; [|discriminate].
    apply IHv in Ev.
    destruct (expect "}" (skip_ws r2)).
    { intros [= <- _]. simpl. now rewrite Ev. }
    destruct (expect "," (skip_ws r2)); [|discriminate].
    destruct (JSONObject f _) as [[kvs' r3]|] eqn:Eo; [|discriminate].
    intros [= <- _]. simpl. rewrite Ev. eapply IHo, Eo.
Qed.

Lemma decode_fragment x v : decode x = Some v -> in_fragment v = true.
Proof.
  unfold decode. destruct (scan_once _ _) as [[v' r]|] eqn:E; [|discriminate].
  destruct (skip_ws r); [|discriminate]. intros [= <-].
  eapply (proj1 (scan_fragment _)), E.
Qed.

(** *** The fragment does not look at string leaves *)

Lemma in_fragment_shape v : in_fragment (shape v) = in_fragment v.
Proof.
  induction v as [ | b | n | r | s | items IH | pairs IH] using JsonValue_nested_ind;
    simpl; try reflexivity.
  - induction IH as [|x items Hx _ IHitems]; simpl; [reflexivity|].
    now rewrite Hx, IHitems.
  - f_equal.
    + rewrite map_map. simpl. reflexivity.
    + induction IH as [|[k x] pairs Hx _ IHpairs]; simpl; [reflexivity|].
      simpl in Hx. now rewrite Hx, IHpairs.
Qed.

Lemma in_fragment_member pairs k v :
  in_fragment (JDict pairs) = true -> dict_get k pairs = Some v ->
  in_fragment v = true.
Proof.
  simpl. intros [_ H]%andb_true_iff. induction pairs as [|[k' x] pairs IH]; simpl;
    [discriminate|].
  simpl in H. apply andb_true_iff in H as [Hx Hpairs].
  destruct (bool_decide (k' = k)); [intros [= <-]; exact Hx|now apply IH].
Qed.

#[global] Instance codec_laws : JsonCodecLaws PyJson.codec.
Proof.
  split.
  - exact decode_fragment.
  - exact decode_encode.
  - intros v w E Hv. simpl in *. now rewrite <- in_fragment_shape, <- E, in_fragment_shape.
  - exact in_fragment_member.
Qed.

End PyJsonFacts.

(** ** The canonicalizer on JSON text *)

Section CanonicalizerFacts.
Import JsonCleanupUtils.
Context {codec : JsonCodec} {laws : JsonCodecLaws codec}.

Lemma representable_clean v : representable v -> representable (_clean_element v).
Proof.
  intros H. eapply representable_shape; [|exact H].
  symmetry. apply _clean_element_shape.
Qed.

Lemma loads_dumps_clean x v :
  loads x = Some v -> loads (dumps (_clean_element v)) = Some (_clean_element v).
Proof.
  intros H. apply loads_dumps, representable_clean.
  eapply loads_representable, H.
Qed.

Lemma loads_clean_json_spaces x v :
  loads x = Some v -> loads (clean_json_spaces x) = Some (_clean_element v).
Proof.
  intros H. unfold clean_json_spaces. rewrite H. eapply loads_dumps_clean, H.
Qed.

(** C8.  [clean_json_spaces] is idempotent on every text: a text that
    does not parse is returned as it is, and the canonical text of a
    value parses back to the cleaned value, which cleaning leaves
    alone. *)
Theorem clean_json_spaces_idempotent (x : list ascii) :
  clean_json_spaces (clean_json_spaces x) = clean_json_spaces x.
Proof.
  destruct (loads x) as [v|] eqn:E.
  - pose proof (loads_clean_json_spaces x v E) as E'.
    unfold clean_json_spaces at 1. rewrite E'.
    rewrite _clean_element_idempotent. unfold clean_json_spaces. now rewrite E.
  - assert (Hx : clean_json_spaces x = x) by (unfold clean_json_spaces; now rewrite E).
    now rewrite !Hx.
Qed.

(** C9.  The canonical text of a parsed input holds the same keys, in
    the same order and at the same places, as the parsed input: the two
    values differ only in their string leaves, each of which is
    whitespace-normalized. *)
Theorem clean_json_spaces_keeps_keys (x : list ascii) (v : JsonValue) :
  loads x = Some v ->
  exists w, loads (clean_json_spaces x) = Some w
    /\ keys w = keys v
    /\ shape w = shape v
    /\ strings w = map normalize_spaces (strings v).
Proof.
  intros E. exists (_clean_element v).
  split; [now apply loads_clean_json_spaces|].
  split; [apply _clean_element_keys|].
  split; [apply _clean_element_shape|apply _clean_element_strings].
Qed.

End CanonicalizerFacts.

Lemma clean_json_spaces_idempotent_witness :
  let x := PyJson.jlit "{ 'nome' : '  A   B ', 'n' : [1, ' c  d '] } " in
  JsonCleanupUtils.clean_json_spaces x = PyJson.jlit "{'nome':'A B','n':[1,'c d']}"
  /\ JsonCleanupUtils.clean_json_spaces (JsonCleanupUtils.clean_json_spaces x)
     = JsonCleanupUtils.clean_json_spaces x
  /\ JsonCleanupUtils.clean_json_spaces (lit "{not json")
     = lit "{not json".
Proof.
  cbv zeta. split; [reflexivity|]. split; [|reflexivity].
  exact (clean_json_spaces_idempotent (laws := codec_laws) _).
Defined.

Lemma clean_json_spaces_keeps_keys_witness :
  let x := PyJson.jlit "{'k  k': ' v   v ', 'a': {' b ': 1}}" in
  exists w, loads (JsonCleanupUtils.clean_json_spaces x) = Some w
    /\ keys w = [lit "k  k"; lit "a"; lit " b "]
    /\ strings w = [lit "v v"].
Proof.
  cbv zeta.
  destruct (clean_json_spaces_keeps_keys (laws := codec_laws)
              (PyJson.jlit "{'k  k': ' v   v ', 'a': {' b ': 1}}")
              (JDict [(lit "k  k", JStr (lit " v   v "));
                      (lit "a", JDict [(lit " b ", JInt 1)])])
              eq_refl) as (w & Hw & Hk & _ & Hs).
  exists w. split; [exact Hw|]. split; [exact Hk|exact Hs].
Defined.

(** ** NDJSON processor *)

Section NdjsonProcessorFacts.
Import HashCacheManager JsonCleanupUtils NdjsonProcessor.
Context {codec : JsonCodec} {laws : JsonCodecLaws codec}.
Variable xxh3 : list ascii -> list ascii.

Lemma dropped_by_extractor (line : list ascii) :
  droppable line -> _extract_cnpj_and_json line = (None, line).
Proof.
  intros [E | (data & E & Hno)]; unfold _extract_cnpj_and_json; rewrite E;
    [reflexivity|].
  destruct data as [ | b | n | r | s | items | pairs]; try reflexivity.
  - simpl. destruct (str_contains _ s); reflexivity.
  - simpl. destruct (existsb _ items); reflexivity.
  - simpl contains. simpl in Hno.
    destruct (dict_get (lit "json_output") pairs) as [el|] eqn:Eo; simpl in Hno.
    + rewrite bool_decide_eq_true_2 by eauto. simpl. rewrite Eo.
      destruct el as [ | | | | | | pairs']; try reflexivity. simpl.
      destruct (dict_get (lit "cnpj") pairs') as [v|] eqn:Ec; [|reflexivity]. simpl.
      destruct (truthy_value v) eqn:Et; [|reflexivity].
      exfalso. apply Hno. now exists pairs', v.
    + rewrite bool_decide_eq_false_2 by (intros [? ?]; discriminate). simpl.
      destruct (dict_get (lit "cnpj") pairs) as [v|] eqn:Ec; [|reflexivity]. simpl.
      destruct (truthy_value v) eqn:Et; [|reflexivity].
      exfalso. apply Hno. now exists pairs, v.
Qed.

(** Conversely, a line that parses to an element with a non-empty
    [cnpj] is not dropped by the extractor. *)
Lemma kept_by_extractor (line : list ascii) (data : JsonValue) :
  loads line = Some data -> has_cnpj (unwrap data) ->
  exists cnpj clean_json,
    _extract_cnpj_and_json line = (Some cnpj, clean_json)
    /\ truthy_value cnpj = true.
Proof.
  intros E (pairs' & v & Eu & Hg & Ht). unfold _extract_cnpj_and_json. rewrite E.
  destruct data as [ | b | n | r | s | items | pairs]; try discriminate Eu.
  simpl contains. simpl in Eu.
  destruct (dict_get (lit "json_output") pairs) as [el|] eqn:Eo; simpl in Eu.
  - rewrite bool_decide_eq_true_2 by eauto. simpl. rewrite Eo, Eu. simpl.
    rewrite Hg. simpl. rewrite Ht. simpl. eauto.
  - rewrite bool_decide_eq_false_2 by (intros [? ?]; discriminate). simpl.
    injection Eu as ->. rewrite Hg. simpl. rewrite Ht. simpl. eauto.
Qed.

Lemma process_line_dropped (line : list ascii) :
  droppable (strip line) -> process_line xxh3 line = None.
Proof.
  intros H. unfold process_line. rewrite (dropped_by_extractor _ H).
  now destruct (negb _).
Qed.

(** C10.  A line that does not parse, or whose element (after the
    optional [json_output] envelope) has no non-empty [cnpj], makes the
    extractor return no identifier and the line itself; [process_line]
    gives no item for it, and the list of items that is hashed, diffed,
    written and uploaded is the one of the file without that line.
    Nothing is raised: the results are values. *)
Theorem droppable_line_gives_no_item (line : list ascii) :
  droppable (strip line) ->
  _extract_cnpj_and_json (strip line) = (None, strip line)
  /\ process_line xxh3 line = None
  /\ forall before after : list (list ascii),
       _read_and_process_ndjson xxh3 (before ++ line :: after)
       = _read_and_process_ndjson xxh3 (before ++ after).
Proof.
  intros H. split; [now apply dropped_by_extractor|].
  split; [now apply process_line_dropped|].
  intros before after. unfold _read_and_process_ndjson.
  rewrite !omap_app. simpl. now rewrite (process_line_dropped line H).
Qed.


(** What the extractor returns with an identifier: the identifier is the
    [cnpj] member of an object [element], and the text is the canonical
    text of that object. *)
Lemma extracted_element (line : list ascii) (cnpj : JsonValue) (clean_json : list ascii) :
  _extract_cnpj_and_json line = (Some cnpj, clean_json) ->
  exists pairs,
    representable (JDict pairs)
    /\ dict_get (lit "cnpj") pairs = Some cnpj
    /\ truthy_value cnpj = true
    /\ clean_json = dumps (_clean_element (JDict pairs)).
Proof.
  unfold _extract_cnpj_and_json.
  destruct (loads line) as [data|] eqn:E; [|discriminate].
  pose proof (loads_representable _ _ E) as Hdata.
  destruct (contains data (lit "json_output")) as [wrapped|] eqn:Ec; [|discriminate].
  assert (Hfinish : forall pairs raw_json,
    representable (JDict pairs) ->
    clean_json_spaces raw_json = dumps (_clean_element (JDict pairs)) ->
    match get (JDict pairs) (lit "cnpj") with
    | Some cnpj0 =>
        if negb (truthy_value cnpj0) then (None, line)
        else (Some cnpj0, clean_json_spaces raw_json)
    | None => (None, line)
    end = (Some cnpj, clean_json) ->
    exists pairs0,
      representable (JDict pairs0)
      /\ dict_get (lit "cnpj") pairs0 = Some cnpj
      /\ truthy_value cnpj = true
      /\ clean_json = dumps (_clean_element (JDict pairs0))).
  { intros pairs raw_json Hrep Hclean. simpl get.
    destruct (dict_get (lit "cnpj") pairs) as [v|] eqn:Eg; simpl; [|discriminate].
    destruct (truthy_value v) eqn:Et; simpl; [|discriminate].
    intros [= <- <-]. exists pairs. rewrite Eg, Hclean. auto. }
  destruct wrapped.
  - destruct (getitem data (lit "json_output")) as [el|] eqn:Eg; [|discriminate].
    destruct data as [ | | | | | | pairs]; try discriminate Eg. simpl in Eg.
    pose proof (representable_member _ _ _ Hdata Eg) as Hel.
    destruct el as [ | | | | | | pairs']; try discriminate.
    apply (Hfinish pairs' (dumps (JDict pairs')) Hel).
    unfold clean_json_spaces. now rewrite (loads_dumps _ Hel).
  - destruct data as [ | | | | | | pairs]; try discriminate.
    apply (Hfinish pairs line Hdata).
    unfold clean_json_spaces. now rewrite E.
Qed.


(** *** The diff-upload-record step *)

Lemma add_batch_async_blocks_unlocked st item items :
  _lock st = false ->
  add_batch_async (item :: items) st = Blocked (set_lock true st).
Proof. destruct st as [c tr p ini lk]. simpl. intros ->. reflexivity. Qed.

Lemma write_file_file_name item w d :
  temp_dir w = Some d ->
  file_name (json_path item) = true ->
  write_file item w
  = Returned tt (set_temp_dir (Some (<[json_path item := json item]> d)) w).
Proof.
  intros Hd Hn. unfold file_name in Hn.
  apply andb_true_iff in Hn as [[Hz%negb_true_iff Hs%negb_true_iff]%andb_true_iff
                                  Hl%Nat.leb_le].
  unfold write_file. cbv zeta. rewrite Hz, Hd.
  destruct (first_directory (json_path item)) as [dir|].
  { rewrite bool_decide_eq_true_2 in Hs by eauto. discriminate Hs. }
  destruct (NAME_MAX <? _) eqn:E; [apply Nat.ltb_lt in E; lia|reflexivity].
Qed.

(** Writing the files touches nothing but the scratch directory. *)
Lemma write_file_frame item w :
  match write_file item w with
  | Returned _ w' | Raised _ w' | Blocked w' | Outside w' =>
      catalog w' = catalog w /\ uploads w' = uploads w
      /\ (is_Some (temp_dir w) -> is_Some (temp_dir w'))
  end.
Proof.
  unfold write_file. cbv zeta.
  destruct (existsb _ _); [repeat split; auto|].
  destruct (first_directory _) as [dir|], (temp_dir w) as [d|] eqn:Ed.
  - destruct (_ || _); repeat split; rewrite ?Ed; auto.
  - destruct (bool_decide _); repeat split; rewrite ?Ed; auto.
  - destruct (_ <? _); repeat split; rewrite ?Ed; eauto.
  - repeat split; rewrite ?Ed; auto.
Qed.

Lemma for_each_write_file_frame items w :
  match for_each items write_file w with
  | Returned _ w' | Raised _ w' | Blocked w' | Outside w' =>
      catalog w' = catalog w /\ uploads w' = uploads w
      /\ (is_Some (temp_dir w) -> is_Some (temp_dir w'))
  end.
Proof.
  revert w. induction items as [|item items IH]; intros w; [simpl; auto|].
  cbn [for_each]. unfold bind. pose proof (write_file_frame item w) as H.
  destruct (write_file item w) as [[] w1|e w1|w1|w1]; try exact H.
  specialize (IH w1). destruct H as (Hc & Hu & Hd).
  destruct (for_each items write_file w1) as [[] w2|e w2|w2|w2];
    destruct IH as (Hc2 & Hu2 & Hd2); rewrite Hc2, Hu2; auto.
Qed.

Lemma for_each_write_file items w d :
  temp_dir w = Some d ->
  Forall (fun item => file_name (json_path item) = true) items ->
  for_each items write_file w
  = Returned tt (set_temp_dir (Some (written d items)) w).
Proof.
  intros Hd Hall. revert w d Hd.
  induction Hall as [|item items Hn _ IH]; intros w d Hd.
  - simpl. unfold ret. f_equal. destruct w. simpl in *. now subst.
  - cbn [for_each]. unfold bind. rewrite (write_file_file_name item w d Hd Hn).
    erewrite IH by reflexivity. f_equal.
Qed.

(** Every outcome of [process_ndjson_file_to_storage] on an initialized
    catalog whose lock is free. *)
Lemma process_ndjson_file_to_storage_outcome lines ok w c :
  _initialized (catalog w) = true ->
  _connection (catalog w) = Some c ->
  _lock (catalog w) = false ->
  let processed_data := _read_and_process_ndjson xxh3 lines in
  let items := filter (spec_changed (rows c)) processed_data in
  let files := written (default ∅ (temp_dir w)) items in
  Forall (fun item => file_name (json_path item) = true) items ->
  process_ndjson_file_to_storage xxh3 lines ok w =
    match processed_data, items with
    | [], _ => Returned tt w
    | _ :: _, [] => Returned tt (set_temp_dir None w)
    | _ :: _, _ :: _ =>
        if ok
        then Blocked {| catalog := set_lock true (catalog w);
                        temp_dir := Some files;
                        uploads := uploads w ++ [files] |}
        else Raised (RuntimeError "Falha no upload dos arquivos")
                    {| catalog := catalog w; temp_dir := None;
                       uploads := uploads w ++ [files] |}
    end.
Proof.
  intros Hi Hc Hl. cbv zeta. intros Hf. unfold process_ndjson_file_to_storage.
  destruct (_read_and_process_ndjson xxh3 lines) as [|p processed] eqn:Ep;
    [reflexivity|].
  unfold bind at 1, makedirs, modify.
  set (w1 := set_temp_dir (Some (default ∅ (temp_dir w))) w).
  unfold try_finally, bind at 1, lift.
  change (catalog w1) with (catalog w).
  rewrite (get_items_to_process_async_run _ c _ Hi Hc Hl), foldl_check_batch_all.
  assert (Hw1 : set_catalog (catalog w) w1 = w1) by (destruct w; reflexivity).
  rewrite Hw1. cbn [fst].
  destruct (filter (spec_changed (rows c)) (p :: processed)) as [|item items] eqn:Ef.
  - reflexivity.
  - unfold bind at 1.
    rewrite (for_each_write_file (item :: items) w1 (default ∅ (temp_dir w)) eq_refl Hf).
    unfold bind at 1, upload_folder_async. cbn [catalog temp_dir uploads set_temp_dir w1].
    destruct ok.
    + unfold lift. cbn [catalog]. rewrite (add_batch_async_blocks_unlocked _ _ _ Hl).
      reflexivity.
    + reflexivity.
Qed.

(** Whatever the transfer agent answers, the step leaves the rows of the
    catalog as they were and commits nothing. *)
Lemma process_ndjson_file_to_storage_catalog lines ok w c :
  _initialized (catalog w) = true ->
  _connection (catalog w) = Some c ->
  _lock (catalog w) = false ->
  match process_ndjson_file_to_storage xxh3 lines ok w with
  | Returned _ w' | Raised _ w' | Blocked w' | Outside w' =>
      _connection (catalog w') = Some c
  end.
Proof.
  intros Hi Hc Hl. unfold process_ndjson_file_to_storage.
  destruct (_read_and_process_ndjson xxh3 lines) as [|p processed] eqn:Ep;
    [exact Hc|].
  unfold bind at 1, makedirs, modify.
  set (w1 := set_temp_dir (Some (default ∅ (temp_dir w))) w).
  unfold try_finally, bind at 1, lift.
  change (catalog w1) with (catalog w).
  rewrite (get_items_to_process_async_run _ c _ Hi Hc Hl), foldl_check_batch_all.
  assert (Hw1 : set_catalog (catalog w) w1 = w1) by (destruct w; reflexivity).
  rewrite Hw1. cbn [fst].
  destruct (filter (spec_changed (rows c)) (p :: processed)) as [|item items] eqn:Ef;
    [exact Hc|].
  unfold bind at 1.
  pose proof (for_each_write_file_frame (item :: items) w1) as Hfr.
  destruct (for_each (item :: items) write_file w1) as [[] w2|e w2|w2|w2];
    destruct Hfr as (Hcat & _ & _); change (catalog w1) with (catalog w) in Hcat;
    try (cbn [rmtree modify set_temp_dir catalog]; rewrite Hcat; exact Hc).
  unfold bind at 1, upload_folder_async. destruct ok.
  - unfold lift. cbn [catalog].
    rewrite add_batch_async_blocks_unlocked by (rewrite Hcat; exact Hl).
    cbn [set_catalog catalog set_lock _connection]. rewrite Hcat. exact Hc.
  - cbn [raise rmtree modify set_temp_dir catalog]. rewrite Hcat. exact Hc.
Qed.

End NdjsonProcessorFacts.

(** *** The processor on concrete lines, with the [json] codec of the
    fragment *)

(** C10 on a line that is no JSON and on a line with an empty [cnpj]. *)
Lemma droppable_line_gives_no_item_witness :
  NdjsonProcessor.process_line (fun _ => []) (lit "  not json ") = None
  /\ NdjsonProcessor.process_line (fun _ => [])
       (PyJson.jlit "{'json_output':{'cnpj':'','uf':'SP'}}") = None.
Proof.
  split.
  - destruct (droppable_line_gives_no_item (codec := PyJson.codec) (fun _ => [])
                (lit "  not json ")) as (_ & H & _); [|exact H].
    left. reflexivity.
  - destruct (droppable_line_gives_no_item (codec := PyJson.codec) (fun _ => [])
                (PyJson.jlit "{'json_output':{'cnpj':'','uf':'SP'}}"))
      as (_ & H & _); [|exact H].
    right. eexists. split; [reflexivity|].
    intros (pairs & v & E & Hg & Ht). vm_compute in E. injection E as <-.
    vm_compute in Hg. injection Hg as <-. discriminate Ht.
Defined.



(** C3 (the code departs from the claim).  One new document and a
    successful upload: the step never returns, suspended in
    [add_batch_async] with the lock held and the catalog as it was, so
    the batch is not recorded.  With a failed upload the step raises and
    the catalog is as it was. *)
Theorem successful_upload_is_not_recorded (xxh3 : list ascii -> list ascii) :
  let line := PyJson.jlit "{'cnpj':'11222333000181'}" in
  let files : gmap (list ascii) (list ascii) :=
    {[ lit "11222333000181.json" := line ]} in
  NdjsonProcessor.process_ndjson_file_to_storage xxh3 [line] true
    NdjsonProcessor.fresh_world
  = Blocked {| NdjsonProcessor.catalog :=
                 HashCacheManager.set_lock true (HashCacheManager.initialized_with ∅);
               NdjsonProcessor.temp_dir := Some files;
               NdjsonProcessor.uploads := [files] |}
  /\ NdjsonProcessor.process_ndjson_file_to_storage xxh3 [line] false
       NdjsonProcessor.fresh_world
     = Raised (RuntimeError "Falha no upload dos arquivos")
              {| NdjsonProcessor.catalog := HashCacheManager.initialized_with ∅;
                 NdjsonProcessor.temp_dir := None;
                 NdjsonProcessor.uploads := [files] |}.
Proof.
  cbv zeta. split.
  - rewrite (process_ndjson_file_to_storage_outcome xxh3 _ true
               NdjsonProcessor.fresh_world _ eq_refl eq_refl eq_refl)
      by (vm_compute; repeat constructor).
    vm_compute. reflexivity.
  - rewrite (process_ndjson_file_to_storage_outcome xxh3 _ false
               NdjsonProcessor.fresh_world _ eq_refl eq_refl eq_refl)
      by (vm_compute; repeat constructor).
    vm_compute. reflexivity.
Qed.

(* ===================================================================== *)
(** * Part II, continued: further properties of the code                  *)
(* ===================================================================== *)

(** ** Identifier codec: [remove_mask] and [parse_cnpj] *)

Section CnpjUtilsMore.
Import PyUnicode CnpjUtils.

#[local] Arguments assoc : simpl never.
#[local] Arguments isdecimal : simpl never.
#[local] Arguments isspace : simpl never.
#[local] Arguments upper_char : simpl never.
#[local] Arguments INVALID_CHARACTERS : simpl never.

(** No separator comes out of [upper]. *)
Lemma uppercase_no_mask :
  Forall (fun kv : N * list N => Forall (fun d => MASK_CHARACTERS d = false) kv.2)
         uppercase.
Proof.
  assert (H : forallb (fun kv : N * list N =>
                         forallb (fun d => negb (MASK_CHARACTERS d)) kv.2) uppercase = true)
    by (vm_compute; reflexivity).
  rewrite forallb_forall in H. apply Forall_forall. intros kv Hkv%list_elem_of_In%H.
  rewrite forallb_forall in Hkv. apply Forall_forall. intros d Hd%list_elem_of_In%Hkv.
  now apply negb_true_iff in Hd.
Qed.

Lemma upper_char_clean c :
  MASK_CHARACTERS c = false ->
  Forall (fun d => MASK_CHARACTERS d = false /\ islower d = false /\ upper_char d = [d])
         (upper_char c).
Proof.
  intros Hm. pose proof (upper_char_values c) as Hv.
  assert (Hk : Forall (fun d => MASK_CHARACTERS d = false) (upper_char c)).
  { unfold upper_char. destruct (assoc c uppercase) as [v|] eqn:E.
    - pose proof uppercase_no_mask as H. rewrite Forall_forall in H.
      exact (H (c, v) ltac:(apply list_elem_of_In, assoc_In, E)).
    - now repeat constructor. }
  rewrite Forall_forall in Hv, Hk. apply Forall_forall. intros d Hd.
  destruct (Hv d Hd). auto.
Qed.

Lemma remove_mask_clean (cnpj : option ustr) :
  Forall (fun c => MASK_CHARACTERS c = false /\ islower c = false /\ upper_char c = [c])
         (remove_mask cnpj).
Proof.
  destruct cnpj as [s|]; [|constructor]. unfold remove_mask.
  destruct (blank (Some s)); [constructor|].
  unfold upper, sub_empty. apply Forall_forall.
  intros d (c & Hc%list_elem_of_In%list_elem_of_filter & Hd%list_elem_of_In)%list_elem_of_In%in_flat_map.
  destruct Hc as [Hm _]. pose proof (upper_char_clean c Hm) as H.
  rewrite Forall_forall in H. auto.
Qed.

Lemma clean_fixed (r : ustr) :
  Forall (fun c => MASK_CHARACTERS c = false /\ islower c = false /\ upper_char c = [c]) r ->
  upper (sub_empty MASK_CHARACTERS r) = r.
Proof.
  unfold upper, sub_empty.
  induction 1 as [|c r (Hm & _ & Hu) _ IH]; [reflexivity|].
  rewrite filter_cons_True by exact Hm.
  cbn [flat_map]. now rewrite IH, Hu.
Qed.

(** X1.  Whatever its argument, [remove_mask] returns a string with none
    of the separators [.], [/], [-], no lowercase letter of [a-z] and no
    character that [upper] would change; [None], the empty string and a
    string of white space give the empty string. *)
Theorem remove_mask_output (cnpj : option ustr) :
  Forall (fun c => MASK_CHARACTERS c = false /\ islower c = false /\ upper_char c = [c])
         (remove_mask cnpj)
  /\ (blank cnpj = true -> remove_mask cnpj = []).
Proof.
  split; [apply remove_mask_clean|].
  destruct cnpj as [s|]; [|reflexivity].
  unfold remove_mask. now intros ->.
Qed.

(** X2.  [remove_mask] applied to its own result changes nothing, unless
    that result is made of white space only (as for [" . "], whose
    result is two spaces, which [remove_mask] then sends to the empty
    string). *)
Theorem remove_mask_idempotent (cnpj : option ustr) :
  blank (Some (remove_mask cnpj)) = false ->
  remove_mask (Some (remove_mask cnpj)) = remove_mask cnpj.
Proof.
  intros Hb. unfold remove_mask at 1. rewrite Hb.
  apply clean_fixed, remove_mask_clean.
Qed.

Lemma remove_mask_idempotent_witness :
  remove_mask (Some (remove_mask (Some (ulit "12.345.678/0001-9a")))) = ulit "1234567800019A"
  /\ remove_mask (Some (ulit " . ")) = ulit "  "
  /\ remove_mask (Some (ulit "  ")) = [].
Proof.
  split; [|split; vm_compute; reflexivity].
  rewrite (remove_mask_idempotent (Some (ulit "12.345.678/0001-9a")))
    by (vm_compute; reflexivity).
  vm_compute. reflexivity.
Defined.

Lemma parse_cnpj_concat (s b o d : ustr) :
  parse_cnpj s = Parsed b o d -> b ++ o ++ d = remove_mask (Some s).
Proof.
  unfold parse_cnpj. cbv zeta. generalize (remove_mask (Some s)). intros raw.
  destruct (length raw =? 14) eqn:E; cbn [negb]; [|discriminate].
  apply Nat.eqb_eq in E. intros [= <- <- <-].
  rewrite <- (take_drop 8 raw) at 4. f_equal.
  rewrite <- (take_drop 4 (drop 8 raw)) at 2. f_equal.
  rewrite drop_drop. simpl. apply take_ge. rewrite length_drop. lia.
Qed.

(** X3.  [parse_cnpj] returns three parts of 8, 4 and 2 characters whose
    concatenation is the unmasked, uppercased argument, exactly when
    that string has 14 characters; otherwise it raises [ValueError]
    with the length it found.  Nothing else about the characters is
    checked. *)
Theorem parse_cnpj_parts (cnpj : ustr) :
  match parse_cnpj cnpj with
  | Parsed basico ordem dv =>
      basico ++ ordem ++ dv = remove_mask (Some cnpj)
      /\ length basico = 8 /\ length ordem = 4 /\ length dv = 2
  | ValueError received =>
      received = length (remove_mask (Some cnpj)) /\ received <> 14
  end.
Proof.
  destruct (parse_cnpj cnpj) as [b o d|n] eqn:E.
  - split; [now apply parse_cnpj_concat|]. revert E.
    unfold parse_cnpj. cbv zeta. generalize (remove_mask (Some cnpj)). intros raw.
    destruct (length raw =? 14) eqn:El; cbn [negb]; [|discriminate].
    apply Nat.eqb_eq in El. intros [= <- <- <-].
    rewrite !length_take, !length_drop. lia.
  - revert E. unfold parse_cnpj. cbv zeta.
    destruct (length (remove_mask (Some cnpj)) =? 14) eqn:El; cbn [negb];
      [discriminate|].
    apply Nat.eqb_neq in El. intros [= <-]. auto.
Qed.

Lemma remove_mask_spec_strip s :
  blank (Some s) = false -> remove_mask (Some s) = spec_strip s.
Proof. intros Hb. unfold remove_mask. rewrite Hb. apply sub_empty_mask. Qed.

Lemma valid_remove_mask s :
  is_valid_format (Some s) = true ->
  remove_mask (Some s) = spec_strip s /\ length (spec_strip s) = 14
  /\ pattern_matches (spec_strip s).
Proof.
  intros (Hne & Hs & Hl & Hm & _)%is_valid_format_unfold.
  split; [apply remove_mask_spec_strip, valid_chars_not_blank; assumption|].
  split; [exact Hl|]. now apply FULL_CNPJ_PATTERN_14.
Qed.

(** X4.  An identifier that [is_valid_format] accepts is always parsed
    by [parse_cnpj] (no [ValueError]): the base and the order are 12
    characters that are letters of [A-Z] or decimal digits, the check
    digits are two decimal digits, and together they are the unmasked
    identifier.  A decimal digit is what [\d] matches: a digit of any
    script, as in the accepted string of U+0661 followed by
    [2345678000190], whose base starts with U+0661.  ([SingleCommand]
    checks the format before the export parses the identifier.) *)
Theorem valid_format_parses (s : ustr) :
  is_valid_format (Some s) = true ->
  exists basico ordem dv,
    parse_cnpj s = Parsed basico ordem dv
    /\ basico ++ ordem ++ dv = remove_mask (Some s)
    /\ length basico = 8 /\ length ordem = 4 /\ length dv = 2
    /\ Forall (fun c => isupper c || isdecimal c = true) (basico ++ ordem)
    /\ Forall (fun c => isdecimal c = true) dv.
Proof.
  intros (Er & Hl & a & b & Eab & Ha & Halla & Hb & Hallb)%valid_remove_mask.
  unfold parse_cnpj. cbv zeta. rewrite Er, Hl. simpl. rewrite Eab.
  exists (take 8 a), (drop 8 a), b.
  assert (E1 : take 8 (a ++ b) = take 8 a) by (rewrite take_app_le; [reflexivity|lia]).
  assert (E2 : take 4 (drop 8 (a ++ b)) = drop 8 a).
  { rewrite drop_app_le by lia. rewrite take_app_le by (rewrite length_drop; lia).
    apply take_ge. rewrite length_drop. lia. }
  assert (E3 : take 2 (drop 12 (a ++ b)) = b).
  { rewrite drop_app_ge by lia. rewrite Ha. simpl. apply take_ge. lia. }
  rewrite E1, E2, E3. split; [reflexivity|].
  rewrite app_assoc, take_drop. split; [reflexivity|].
  rewrite length_take, length_drop. repeat split; try lia; assumption.
Qed.

Lemma valid_format_parses_witness :
  (exists basico ordem dv,
     parse_cnpj (ulit "12.345.678/0001-90") = Parsed basico ordem dv
     /\ basico = ulit "12345678" /\ ordem = ulit "0001" /\ dv = ulit "90")
  /\ (exists basico ordem dv,
        parse_cnpj (1633%N :: ulit "2345678000190") = Parsed basico ordem dv
        /\ basico = 1633%N :: ulit "2345678").
Proof.
  split.
  - destruct (valid_format_parses (ulit "12.345.678/0001-90"))
      as (b & o & d & E & _); [vm_compute; reflexivity|].
    exists b, o, d. split; [exact E|]. vm_compute in E. now injection E as <- <- <-.
  - destruct (valid_format_parses (1633%N :: ulit "2345678000190"))
      as (b & o & d & E & _); [vm_compute; reflexivity|].
    exists b, o, d. split; [exact E|]. vm_compute in E. now injection E as <- _ _.
Defined.

Lemma alnum_not_invalid (r : ustr) :
  Forall (fun c => isupper c || isdecimal c = true) r ->
  search INVALID_CHARACTERS r = false.
Proof.
  intros H. unfold search. apply not_true_is_false.
  intros (c & Hin%list_elem_of_In & Hc)%existsb_exists.
  rewrite Forall_forall in H. specialize (H c Hin).
  unfold INVALID_CHARACTERS, isalpha_ignorecase in Hc.
  apply negb_true_iff in Hc. apply orb_true_iff in H as [H|H]; rewrite H in Hc;
    rewrite ?orb_true_r in Hc; discriminate Hc.
Qed.

(** X5.  An identifier that [is_valid_format] accepts is still accepted
    after [remove_mask]; on ASCII text the converse holds too, so that
    validity depends only on the unmasked, uppercased form.  Outside
    ASCII the converse fails: sharp s (U+00DF) is an invalid character,
    and [upper] turns it into [SS]. *)
Theorem is_valid_format_remove_mask :
  (forall s : ustr, is_valid_format (Some s) = true ->
     is_valid_format (Some (remove_mask (Some s))) = true)
  /\ (forall s : ustr, isascii s ->
        is_valid_format (Some (remove_mask (Some s))) = is_valid_format (Some s))
  /\ is_valid_format (Some (223%N :: ulit "234567800190")) = false
  /\ is_valid_format (Some (remove_mask (Some (223%N :: ulit "234567800190")))) = true.
Proof.
  assert (Hfix : forall s, blank (Some s) = false ->
            spec_strip (remove_mask (Some s)) = remove_mask (Some s)).
  { intros s0 Hb. rewrite <- sub_empty_mask. apply clean_fixed, remove_mask_clean. }
  assert (Hfwd : forall s : ustr, is_valid_format (Some s) = true ->
            is_valid_format (Some (remove_mask (Some s))) = true).
  { intros s H. pose proof H as (Hne & Hs & Hl & Hm & Hr)%is_valid_format_unfold.
    pose proof (valid_chars_not_blank s Hne Hs) as Eb.
    apply is_valid_format_unfold. rewrite (Hfix s Eb).
    rewrite (remove_mask_spec_strip s Eb).
    split; [intros E; rewrite E in Hl; discriminate Hl|].
    split; [|auto].
    apply alnum_not_invalid, pattern_matches_alnum. now apply FULL_CNPJ_PATTERN_14. }
  split; [exact Hfwd|]. split; [|split; vm_compute; reflexivity].
  intros s Hs. apply eq_true_iff_eq. split; [|apply Hfwd].
  intros H. destruct (blank (Some s)) eqn:Eb.
  { unfold remove_mask in H. rewrite Eb in H. discriminate H. }
  apply is_valid_format_unfold in H as (Hne & Hinv & Hl & Hm & Hr).
  rewrite (Hfix s Eb) in *. rewrite (remove_mask_spec_strip s Eb) in *.
  apply is_valid_format_unfold.
  split; [intros ->; discriminate Eb|].
  split; [|auto].
  apply (spec_strip_alnum_valid s Hs), spec_matches_alnum, pattern_matches_spec;
    [now apply spec_strip_ascii|now apply FULL_CNPJ_PATTERN_14].
Qed.

(** X6.  [_is_repeated_sequence] holds exactly of the strings made of one
    character repeated at least twice: the empty string and a single
    character are not repeated sequences. *)
Theorem _is_repeated_sequence_iff (r : ustr) :
  _is_repeated_sequence r = true <-> exists c n, r = replicate (S (S n)) c.
Proof.
  split.
  - intros H. pose proof (repeated_sequence_run r H) as (c & n & ->).
    destruct n as [|[|n]]; [discriminate H|discriminate H|]. eauto.
  - intros (c & n & ->). apply run_repeated_sequence.
    + rewrite length_replicate. lia.
    + now exists c, (S (S n)).
Qed.

End CnpjUtilsMore.

(** ** Canonicalizer: [normalize_spaces] *)

Section NormalizeSpacesMore.
Import JsonCleanupUtils.

Lemma single_spaces_only_space r t :
  single_spaces r t = true -> Forall (fun c => isspace c = true -> c = " "%char) t.
Proof.
  revert r. induction t as [|c t IH]; intros r H; [constructor|].
  simpl in H. destruct (isspace c) eqn:Ec.
  - apply andb_true_iff in H as [[_ Hc%bool_decide_eq_true]%andb_true_iff Ht].
    constructor; [auto|]. eapply IH, Ht.
  - constructor; [congruence|]. eapply IH, H.
Qed.

Lemma single_spaces_no_double r t pre post :
  single_spaces r t = true -> t <> pre ++ " "%char :: " "%char :: post.
Proof.
  revert r t. induction pre as [|p pre IH]; intros r t H E; subst t.
  - change (single_spaces r (" "%char :: " "%char :: post))
      with (negb r && bool_decide (" "%char = " "%char)
            && (negb true && bool_decide (" "%char = " "%char) && single_spaces true post))
      in H.
    apply andb_true_iff in H as [_ H]. discriminate H.
  - simpl in H. destruct (isspace p).
    + apply andb_true_iff in H as [_ H]. now apply (IH true _ H).
    + now apply (IH false _ H).
Qed.

Lemma explicit_single_spaces r t :
  Forall (fun c => isspace c = true -> c = " "%char) t ->
  (forall pre post, t <> pre ++ " "%char :: " "%char :: post) ->
  (exists t0 d, t = t0 ++ [d] /\ isspace d = false) ->
  (r = true -> exists c u, t = c :: u /\ isspace c = false) ->
  single_spaces r t = true.
Proof.
  revert r. induction t as [|c u IH]; intros r Hall Hnd (t0 & d & E & Hd) Hhead.
  { destruct t0; discriminate E. }
  assert (Htail : u = [] /\ c = d \/ exists t1, u = t1 ++ [d]).
  { destruct t0 as [|c0 t0]; simpl in E; injection E as -> ->; eauto. }
  inversion Hall as [|? ? Hc Hall']; subst.
  assert (Hnd' : forall pre post, u <> pre ++ " "%char :: " "%char :: post).
  { intros pre post ->. now apply (Hnd (c :: pre) post). }
  simpl. destruct (isspace c) eqn:Ec.
  - specialize (Hc eq_refl). subst c.
    destruct r.
    { destruct (Hhead eq_refl) as (c & u' & [= <- <-] & Hc). congruence. }
    simpl. try rewrite bool_decide_eq_true_2 by reflexivity. simpl.
    destruct Htail as [[_ <-]|[t1 E1]]; [congruence|].
    apply IH; eauto.
    intros _. destruct u as [|e u']; [destruct t1; discriminate E1|].
    exists e, u'. split; [reflexivity|].
    destruct (isspace e) eqn:Ee; [|reflexivity].
    inversion Hall' as [|? ? He _]; subst. rewrite (He Ee) in Hnd.
    now destruct (Hnd [] u').
  - destruct Htail as [[-> _]|[t1 E1]]; [reflexivity|].
    apply IH; eauto. discriminate.
Qed.

(** X7.  The result of [normalize_spaces] has no white space at either
    end, no white-space character other than the space, and no two
    spaces in a row; [normalize_spaces] leaves its own results
    unchanged, and the strings it leaves unchanged are exactly the
    strings of that form. *)
Theorem normalize_spaces_normal_form :
  (forall s : str,
     let t := normalize_spaces s in
     strip t = t
     /\ Forall (fun c => isspace c = true -> c = " "%char) t
     /\ (forall pre post, t <> pre ++ " "%char :: " "%char :: post)
     /\ normalize_spaces t = t)
  /\ (forall t : str,
        normalize_spaces t = t <->
        strip t = t
        /\ Forall (fun c => isspace c = true -> c = " "%char) t
        /\ (forall pre post, t <> pre ++ " "%char :: " "%char :: post)).
Proof.
  assert (Himg : forall s : str,
     let t := normalize_spaces s in
     strip t = t
     /\ Forall (fun c => isspace c = true -> c = " "%char) t
     /\ (forall pre post, t <> pre ++ " "%char :: " "%char :: post)).
  { intros s t. pose proof (normalize_spaces_normalized s) as H. fold t in H.
    split; [now apply normalized_strip|].
    destruct t as [|c t]; [split; [constructor|intros [|? ?] ?; discriminate]|].
    unfold normalized in H. split.
    - eapply single_spaces_only_space, H.
    - intros pre post. eapply single_spaces_no_double, H. }
  split.
  - intros s t. destruct (Himg s) as (H1 & H2 & H3). fold t in H1, H2, H3.
    repeat split; try assumption. apply normalize_spaces_idempotent.
  - intros t. split.
    + intros E. rewrite <- E. apply Himg.
    + intros (Hs & Hall & Hnd). apply normalized_fixed.
      destruct t as [|a t]; [reflexivity|]. unfold normalized.
      destruct (strip_ends (a :: t)) as [E|(c & u & d & t0 & E & Hc & E' & Hd)];
        rewrite Hs in *; [discriminate E|].
      apply explicit_single_spaces; eauto.
Qed.

Lemma lstrip_split (s : str) :
  exists p, s = p ++ lstrip s /\ Forall (fun c => isspace c = true) p.
Proof.
  induction s as [|c s (p & IH & Hp)]; [now exists []|]. simpl.
  destruct (isspace c) eqn:Ec; [|now exists []].
  exists (c :: p). simpl. rewrite <- IH. auto.
Qed.

Lemma rstrip_split (s : str) :
  exists q, s = rstrip s ++ q /\ Forall (fun c => isspace c = true) q.
Proof.
  destruct (lstrip_split (rev s)) as (p & E & Hp). exists (rev p). split.
  - unfold rstrip. rewrite <- rev_app_distr, <- E. now rewrite rev_involutive.
  - apply Forall_forall. intros c Hc%list_elem_of_In%In_rev%list_elem_of_In.
    rewrite Forall_forall in Hp. auto.
Qed.

Lemma strip_split (s : str) :
  exists p q, s = p ++ strip s ++ q
    /\ Forall (fun c => isspace c = true) p /\ Forall (fun c => isspace c = true) q.
Proof.
  destruct (lstrip_split s) as (p & E & Hp).
  destruct (rstrip_split (lstrip s)) as (q & E' & Hq).
  exists p, q. unfold strip. rewrite <- E', <- E. auto.
Qed.

Lemma filter_spaces (p : str) :
  Forall (fun c => isspace c = true) p -> filter (fun c => isspace c = false) p = [].
Proof.
  induction 1 as [|c p Hc _ IH]; [reflexivity|].
  rewrite filter_cons_False by congruence. exact IH.
Qed.

Lemma sub_spaces_text r t :
  filter (fun c => isspace c = false) (sub_spaces r t)
  = filter (fun c => isspace c = false) t
  /\ length (sub_spaces r t) <= length t.
Proof.
  revert r. induction t as [|c t IH]; intros r; simpl; [auto|].
  destruct (isspace c) eqn:Ec.
  - rewrite (filter_cons_False _ c t) by congruence.
    destruct r.
    + destruct (IH true). split; [assumption|lia].
    + destruct (IH true) as [E L]. simpl.
      rewrite filter_cons_False by (vm_compute; congruence). split; [assumption|lia].
  - destruct (IH false) as [E L]. rewrite !filter_cons_True by exact Ec.
    simpl. rewrite E. split; [reflexivity|lia].
Qed.

(** X8.  [normalize_spaces] removes or replaces white space only: the
    characters that are not white space are kept, all of them and in
    their order, and the result is never longer than the argument. *)
Theorem normalize_spaces_keeps_text (s : str) :
  filter (fun c => isspace c = false) (normalize_spaces s)
  = filter (fun c => isspace c = false) s
  /\ length (normalize_spaces s) <= length s.
Proof.
  unfold normalize_spaces. destruct s as [|a s]; [auto|]. simpl negb. cbv iota.
  destruct (strip_split (a :: s)) as (p & q & E & Hp & Hq).
  destruct (sub_spaces_text false (strip (a :: s))) as [Ef El].
  rewrite Ef. split.
  - rewrite E at 2. rewrite !filter_app, (filter_spaces p Hp), (filter_spaces q Hq).
    now rewrite app_nil_r.
  - rewrite E at 2. rewrite !length_app. lia.
Qed.

End NormalizeSpacesMore.

(** ** Hash catalog: [add_async], [close_connections] and the counters *)

Section HashCacheManagerMore.
Import HashCacheManager.

Implicit Types (c : connection) (items : list ProcessedItem).

Lemma BATCH_SIZE_pos : 0 < BATCH_SIZE.
Proof. apply Nat.ltb_lt. vm_compute. reflexivity. Qed.

Lemma add_async_outcome c tr p ini k h :
  add_async k h {| _connection := Some c; _current_transaction := tr;
                   _pending_inserts := p; _initialized := ini; _lock := false |} =
    Returned tt
      (if BATCH_SIZE <=? p + 1
       then {| _connection := Some {| rows := <[k := h]> (rows c);
                                      committed := <[k := h]> (rows c) |};
               _current_transaction := false; _pending_inserts := 0;
               _initialized := ini; _lock := false |}
       else {| _connection := Some {| rows := <[k := h]> (rows c);
                                      committed := committed c |};
               _current_transaction := true; _pending_inserts := p + 1;
               _initialized := ini; _lock := false |}).
Proof.
  unfold add_async, _commit_batch_async, acquire, release, try_finally, bind,
    get_state, modify, ret, the_connection.
  cbn [_lock set_lock _connection _current_transaction _pending_inserts _initialized].
  destruct tr; cbn [_lock set_lock _connection _current_transaction
    _pending_inserts _initialized set_connection set_pending_inserts
    set_current_transaction rows committed];
  destruct (BATCH_SIZE <=? p + 1) eqn:E;
  cbn [_lock set_lock _connection _current_transaction
    _pending_inserts _initialized set_connection set_pending_inserts
    set_current_transaction rows committed];
  reflexivity.
Qed.

(** X9.  Called with the lock free on an open connection, [add_async]
    returns with the row inserted or replaced and the lock free again.
    The insert that brings the pending count to [BATCH_SIZE] (10000)
    commits: what is durable is then the whole table, the count is back
    to 0 and no transaction is open.  An earlier insert commits nothing:
    it leaves a transaction open and the count one higher. *)
Theorem add_async_commits_at_batch_size st c k h :
  _connection st = Some c ->
  _lock st = false ->
  add_async k h st =
    Returned tt
      (if BATCH_SIZE <=? _pending_inserts st + 1
       then {| _connection := Some {| rows := <[k := h]> (rows c);
                                      committed := <[k := h]> (rows c) |};
               _current_transaction := false; _pending_inserts := 0;
               _initialized := _initialized st; _lock := false |}
       else {| _connection := Some {| rows := <[k := h]> (rows c);
                                      committed := committed c |};
               _current_transaction := true;
               _pending_inserts := _pending_inserts st + 1;
               _initialized := _initialized st; _lock := false |}).
Proof.
  destruct st as [conn tr p ini lk]. simpl. intros -> ->. apply add_async_outcome.
Qed.

Lemma add_async_commits_at_batch_size_witness :
  add_async (lit "11222333000424") (lit "eeee") (initialized_with catalog0) =
    Returned tt
      {| _connection :=
           Some {| rows := <[lit "11222333000424" := lit "eeee"]> catalog0;
                   committed := catalog0 |};
         _current_transaction := true; _pending_inserts := 1;
         _initialized := true; _lock := false |}
  /\ add_async (lit "11222333000424") (lit "eeee")
       (set_pending_inserts 9999
          (set_current_transaction true (initialized_with catalog0))) =
       Returned tt
         {| _connection :=
              Some {| rows := <[lit "11222333000424" := lit "eeee"]> catalog0;
                      committed := <[lit "11222333000424" := lit "eeee"]> catalog0 |};
            _current_transaction := false; _pending_inserts := 0;
            _initialized := true; _lock := false |}.
Proof.
  split.
  - exact (add_async_commits_at_batch_size (initialized_with catalog0) _ _ _
             eq_refl eq_refl).
  - exact (add_async_commits_at_batch_size
             (set_pending_inserts 9999
                (set_current_transaction true (initialized_with catalog0))) _ _ _
             eq_refl eq_refl).
Defined.

Lemma for_each_app {S A} (l1 l2 : list A) (body : A -> task S unit) s :
  for_each (l1 ++ l2) body s = bind (for_each l1 body) (fun _ => for_each l2 body) s.
Proof.
  revert s. induction l1 as [|x l1 IH]; intros s; [reflexivity|].
  cbn [for_each app]. unfold bind.
  destruct (body x s) as [[] s'|e s'|s'|s']; try reflexivity.
  rewrite IH. reflexivity.
Qed.

Lemma batch_boundary n :
  (BATCH_SIZE <=? n mod BATCH_SIZE + 1) = true ->
  (n + 1) mod BATCH_SIZE = 0 /\ (n + 1) / BATCH_SIZE * BATCH_SIZE = n + 1.
Proof.
  pose proof BATCH_SIZE_pos as HB. intros H%Nat.leb_le.
  pose proof (Nat.mod_upper_bound n BATCH_SIZE ltac:(lia)) as Hm.
  pose proof (Nat.div_mod_eq n BATCH_SIZE) as Hn.
  assert (E : n + 1 = BATCH_SIZE * (n / BATCH_SIZE + 1) + 0) by lia.
  split.
  - symmetry. apply (Nat.mod_unique _ _ (n / BATCH_SIZE + 1)); [lia|exact E].
  - rewrite <- (Nat.div_unique _ _ (n / BATCH_SIZE + 1) 0); [lia|lia|exact E].
Qed.

Lemma batch_inside n :
  (BATCH_SIZE <=? n mod BATCH_SIZE + 1) = false ->
  (n + 1) mod BATCH_SIZE = n mod BATCH_SIZE + 1
  /\ (n + 1) / BATCH_SIZE = n / BATCH_SIZE.
Proof.
  pose proof BATCH_SIZE_pos as HB. intros H%Nat.leb_gt.
  pose proof (Nat.div_mod_eq n BATCH_SIZE) as Hn.
  assert (E : n + 1 = BATCH_SIZE * (n / BATCH_SIZE) + (n mod BATCH_SIZE + 1)) by lia.
  split.
  - symmetry. apply (Nat.mod_unique _ _ (n / BATCH_SIZE)); [lia|exact E].
  - symmetry. apply (Nat.div_unique _ _ _ (n mod BATCH_SIZE + 1)); [lia|exact E].
Qed.

Lemma recorded_snoc db items item :
  recorded db (items ++ [item]) = <[cnpj item := hash item]> (recorded db items).
Proof. unfold recorded. now rewrite foldl_app. Qed.

(** The state after [add_async] was awaited for each item in turn,
    starting on a freshly opened catalog. *)
Lemma add_async_for_each db items :
  for_each items (fun item => add_async (cnpj item) (hash item)) (initialized_with db) =
    Returned tt
      {| _connection :=
           Some {| rows := recorded db items;
                   committed :=
                     recorded db (take (length items / BATCH_SIZE * BATCH_SIZE) items) |};
         _current_transaction := negb (length items mod BATCH_SIZE =? 0);
         _pending_inserts := length items mod BATCH_SIZE;
         _initialized := true; _lock := false |}.
Proof.
  pose proof BATCH_SIZE_pos as HB.
  induction items as [|item items IH] using rev_ind.
  - simpl length. rewrite Nat.Div0.mod_0_l, Nat.Div0.div_0_l. reflexivity.
  - rewrite for_each_app. unfold bind at 1. rewrite IH.
    cbn [for_each]. unfold bind at 1. rewrite add_async_outcome.
    cbn [rows committed ret]. rewrite length_app. simpl length.
    rewrite <- recorded_snoc.
    destruct (BATCH_SIZE <=? length items mod BATCH_SIZE + 1) eqn:E.
    + apply batch_boundary in E as [Em Ed]. rewrite Em, Ed.
      rewrite take_ge by (rewrite length_app; simpl; lia). reflexivity.
    + apply batch_inside in E as [Em Ed]. rewrite Em, Ed.
      rewrite take_app_le.
      2:{ pose proof (Nat.div_mod_eq (length items) BATCH_SIZE). lia. }
      replace (length items mod BATCH_SIZE + 1 =? 0) with false
        by (symmetry; apply Nat.eqb_neq; lia).
      reflexivity.
Qed.

(** X10.  Awaiting [add_async] for each item of a list in turn (the loop
    of [add_batch_async], run by a caller that does not hold the lock)
    on a freshly opened catalog returns; the table then holds every
    item, a later item replacing an earlier one with the same
    identifier.  What is durable is the table after the longest prefix
    of the list whose length is a multiple of 10000: the inserts after
    it, fewer than 10000, are pending in an open transaction. *)
Theorem add_async_sequence db items :
  let batches := length items / BATCH_SIZE in
  for_each items (fun item => add_async (cnpj item) (hash item)) (initialized_with db) =
    Returned tt
      {| _connection :=
           Some {| rows := recorded db items;
                   committed := recorded db (take (batches * BATCH_SIZE) items) |};
         _current_transaction := negb (length items mod BATCH_SIZE =? 0);
         _pending_inserts := length items mod BATCH_SIZE;
         _initialized := true; _lock := false |}.
Proof. apply add_async_for_each. Qed.

Lemma recorded_lookup db items item :
  NoDup (map cnpj items) -> item ∈ items ->
  recorded db items !! cnpj item = Some (hash item).
Proof.
  induction items as [|x items IH] using rev_ind; intros Hnd Hin.
  - inversion Hin.
  - rewrite recorded_snoc. rewrite map_app in Hnd. simpl in Hnd.
    apply NoDup_app in Hnd as (Hnd & Hx & _).
    apply elem_of_app in Hin as [Hin|Hin%list_elem_of_singleton].
    + rewrite lookup_insert_ne; [now apply IH|].
      intros E. apply (Hx (cnpj item)).
      * now apply list_elem_of_fmap_2.
      * rewrite E. now left.
    + subst. apply lookup_insert_eq.
Qed.

Lemma filter_nil_Forall {A} (P : A -> Prop) `{!forall x, Decision (P x)} (l : list A) :
  Forall (fun x => ~ P x) l -> filter P l = [].
Proof.
  induction 1 as [|x l Hx _ IH]; [reflexivity|].
  now rewrite filter_cons_False.
Qed.

(** X11.  Insert, then look up: once [add_async] has recorded each item
    of a list of distinct identifiers, [get_items_to_process_async] on
    the same list yields nothing and counts nothing: the inserted rows
    are seen before any commit. *)
Theorem recorded_items_are_not_yielded db items :
  NoDup (map cnpj items) ->
  exists st,
    (for_each items (fun item => add_async (cnpj item) (hash item)) ;;;
     get_items_to_process_async items) (initialized_with db)
    = Returned ([], 0, 0) st
    /\ (rows <$> _connection st) = Some (recorded db items).
Proof.
  intros Hnd. eexists. unfold bind at 1. rewrite add_async_for_each.
  erewrite get_items_to_process_async_run; [|reflexivity..].
  rewrite foldl_check_batch_all. cbn [rows].
  assert (Hsame : Forall (fun item => ~ spec_changed (recorded db items) item) items).
  { apply Forall_forall. intros item Hin.
    pose proof (recorded_lookup db items item Hnd Hin) as E.
    intros [H|(h & H & Hne)]; rewrite E in H; [discriminate|]. now injection H as <-. }
  rewrite (filter_nil_Forall _ _ Hsame).
  rewrite !filter_nil_Forall; [split; reflexivity| |].
  - eapply Forall_impl; [exact Hsame|]. intros item H Ho. apply H. now right.
  - eapply Forall_impl; [exact Hsame|]. intros item H Ho. apply H. now left.
Qed.

Lemma recorded_items_are_not_yielded_witness :
  exists st,
    (for_each items0 (fun item => add_async (cnpj item) (hash item)) ;;;
     get_items_to_process_async items0) (initialized_with catalog0)
    = Returned ([], 0, 0) st
    /\ (rows <$> _connection st) = Some (recorded catalog0 items0).
Proof.
  apply (recorded_items_are_not_yielded catalog0 items0).
  apply (bool_decide_unpack _). vm_compute. exact I.
Defined.

(** X12.  After [close_connections] the catalog refuses work:
    [get_items_to_process_async] raises [RuntimeError] with the message
    "Database not initialized" before it takes the lock, yielding
    nothing; [add_async] raises [AttributeError] on the missing
    connection and releases the lock it took, but leaves
    [_current_transaction] set. *)
Theorem closed_catalog_raises st items k h :
  _lock st = false ->
  let closed := set_initialized false (set_connection None st) in
  (close_connections ;;; get_items_to_process_async items) st
  = Raised (RuntimeError "Database not initialized") closed
  /\ (close_connections ;;; add_async k h) st
     = Raised (AttributeError "'NoneType' object has no attribute")
              (set_current_transaction true closed).
Proof.
  destruct st as [conn tr p ini lk]. simpl. intros ->.
  split; [reflexivity|]. destruct tr; reflexivity.
Qed.

Lemma closed_catalog_raises_witness :
  (close_connections ;;; get_items_to_process_async items0) (initialized_with catalog0)
  = Raised (RuntimeError "Database not initialized")
           {| _connection := None; _current_transaction := false;
              _pending_inserts := 0; _initialized := false; _lock := false |}
  /\ (close_connections ;;; add_async (lit "11222333000181") (lit "aaaa"))
       (initialized_with catalog0)
     = Raised (AttributeError "'NoneType' object has no attribute")
              {| _connection := None; _current_transaction := true;
                 _pending_inserts := 0; _initialized := false; _lock := false |}.
Proof.
  exact (closed_catalog_raises (initialized_with catalog0) items0
           (lit "11222333000181") (lit "aaaa") eq_refl).
Defined.

Lemma changed_split (catalog : gmap (list ascii) (list ascii)) items :
  length (filter (absent catalog) items) + length (filter (outdated catalog) items)
  = length (filter (spec_changed catalog) items).
Proof.
  induction items as [|item items IH]; [reflexivity|].
  rewrite !filter_cons. repeat case_decide; simpl; try lia; exfalso;
    unfold absent, outdated, spec_changed in *; clear IH; firstorder congruence.
Qed.

(** X13.  On an initialized catalog the two counters of
    [get_items_to_process_async] add up to the number of items it
    yields, and the items yielded are items of the input, in the order
    of the input. *)
Theorem diff_counters_add_up st c items :
  _initialized st = true ->
  _connection st = Some c ->
  _lock st = false ->
  exists yielded new_count update_count,
    get_items_to_process_async items st
    = Returned (yielded, new_count, update_count) st
    /\ new_count + update_count = length yielded
    /\ sublist yielded items.
Proof.
  intros Hi Hc Hl. do 3 eexists.
  rewrite (get_items_to_process_async_run st c items Hi Hc Hl), foldl_check_batch_all.
  split; [reflexivity|]. split; [apply changed_split|apply sublist_filter].
Qed.

Lemma diff_counters_add_up_witness :
  exists yielded new_count update_count,
    get_items_to_process_async items0 (initialized_with catalog0)
    = Returned (yielded, new_count, update_count) (initialized_with catalog0)
    /\ new_count + update_count = length yielded
    /\ sublist yielded items0.
Proof.
  exact (diff_counters_add_up (initialized_with catalog0) _ items0
           eq_refl eq_refl eq_refl).
Defined.

End HashCacheManagerMore.

(** ** Python strings: [strip] under surrounding white space *)

Section StripMore.

Lemma lstrip_app_spaces (p s : str) :
  Forall (fun c => isspace c = true) p -> lstrip (p ++ s) = lstrip s.
Proof. induction 1 as [|c p Hc _ IH]; simpl; [reflexivity|]. now rewrite Hc. Qed.

Lemma lstrip_app (s t : str) : lstrip s <> [] -> lstrip (s ++ t) = lstrip s ++ t.
Proof.
  induction s as [|c s IH]; simpl; [congruence|].
  destruct (isspace c); [exact IH|reflexivity].
Qed.

Lemma rstrip_app_spaces (s q : str) :
  Forall (fun c => isspace c = true) q -> rstrip (s ++ q) = rstrip s.
Proof.
  intros Hq. unfold rstrip. rewrite rev_app_distr, lstrip_app_spaces; [reflexivity|].
  apply Forall_forall. intros c Hc%list_elem_of_In%In_rev%list_elem_of_In.
  rewrite Forall_forall in Hq. auto.
Qed.

Lemma strip_surrounded (pre s post : str) :
  Forall (fun c => isspace c = true) pre ->
  Forall (fun c => isspace c = true) post ->
  strip (pre ++ s ++ post) = strip s.
Proof.
  intros Hpre Hpost. unfold strip. rewrite (lstrip_app_spaces pre _ Hpre).
  destruct (lstrip s) as [|c u] eqn:E.
  - apply lstrip_nil in E. rewrite lstrip_all_space; [reflexivity|].
    apply Forall_app. auto.
  - rewrite lstrip_app by (rewrite E; discriminate). rewrite E.
    now apply rstrip_app_spaces.
Qed.

End StripMore.

(** ** NDJSON processor: lines, items and the folder uploaded *)

Section NdjsonProcessorMore.
Import HashCacheManager JsonCleanupUtils NdjsonProcessor.
Context {codec : JsonCodec} {laws : JsonCodecLaws codec}.
Variable xxh3 : list ascii -> list ascii.

(** X14.  [process_line] does not see the white space around a line (the
    newline that ends each line read from the file, in particular), and
    a line of white space only gives no item. *)
Theorem process_line_ignores_surrounding_whitespace (pre line post : list ascii) :
  Forall (fun c => isspace c = true) pre ->
  Forall (fun c => isspace c = true) post ->
  process_line xxh3 (pre ++ line ++ post) = process_line xxh3 line
  /\ process_line xxh3 (pre ++ post) = None.
Proof.
  intros Hpre Hpost. split.
  - unfold process_line. now rewrite (strip_surrounded pre line post Hpre Hpost).
  - unfold process_line. rewrite strip_all_space; [reflexivity|].
    apply Forall_app. auto.
Qed.

Lemma clean_json_spaces_dumps v :
  representable v -> clean_json_spaces (dumps v) = dumps (_clean_element v).
Proof. intros H. unfold clean_json_spaces. now rewrite (loads_dumps v H). Qed.

Lemma clean_json_spaces_twice x v :
  loads x = Some v ->
  clean_json_spaces (clean_json_spaces x) = dumps (_clean_element v).
Proof.
  intros E. unfold clean_json_spaces at 1.
  rewrite (loads_clean_json_spaces x v E). now rewrite _clean_element_idempotent.
Qed.

(** X15.  Both shapes of a line are accepted and give the same result: a
    line that holds a record under [json_output] and a line that is the
    record itself (an object with a non-empty [cnpj] and no
    [json_output] key of its own) give the same identifier and the same
    canonical text, the compact text of the cleaned record, however the
    two lines are spaced. *)
Theorem wrapped_and_direct_lines_agree
    (wrapped direct : list ascii)
    (envelope pairs : list (list ascii * JsonValue)) (cnpj : JsonValue) :
  loads wrapped = Some (JDict envelope) ->
  dict_get (lit "json_output") envelope = Some (JDict pairs) ->
  loads direct = Some (JDict pairs) ->
  dict_get (lit "json_output") pairs = None ->
  dict_get (lit "cnpj") pairs = Some cnpj ->
  truthy_value cnpj = true ->
  _extract_cnpj_and_json wrapped = (Some cnpj, dumps (_clean_element (JDict pairs)))
  /\ _extract_cnpj_and_json direct = (Some cnpj, dumps (_clean_element (JDict pairs))).
Proof.
  intros Hw Hout Hd Hno Hc Ht.
  assert (Hel : representable (JDict pairs)) by (eapply loads_representable, Hd).
  split; unfold _extract_cnpj_and_json.
  - rewrite Hw. simpl contains. rewrite Hout.
    rewrite bool_decide_eq_true_2 by eauto. cbn [getitem]. rewrite Hout. cbn [get].
    rewrite Hc. simpl. rewrite Ht. simpl. now rewrite (clean_json_spaces_dumps _ Hel).
  - rewrite Hd. simpl contains. rewrite Hno.
    rewrite bool_decide_eq_false_2 by (intros [? ?]; discriminate). simpl.
    rewrite Hc. simpl. rewrite Ht. simpl. unfold clean_json_spaces. now rewrite Hd.
Qed.

(** X16.  Every item that [process_line] gives is canonical: its hash is
    the hash of its text, its text is left unchanged by
    [clean_json_spaces] (so hashing the stored document again after
    cleaning gives the recorded hash), and its identifier is not
    empty. *)
Theorem processed_item_is_canonical (line : list ascii) (item : ProcessedItem) :
  process_line xxh3 line = Some item ->
  hash item = _compute_hash xxh3 (json item)
  /\ clean_json_spaces (json item) = json item
  /\ cnpj item <> [].
Proof.
  unfold process_line. destruct (negb _); [discriminate|].
  destruct (_extract_cnpj_and_json (strip line)) as [[v|] clean_json] eqn:E;
    [|discriminate].
  destruct v as [ | | | | s | | ]; try discriminate. intros [= <-]. simpl.
  split; [reflexivity|].
  apply extracted_element in E as (pairs & Hrep & Hget & Ht & ->).
  split.
  - rewrite clean_json_spaces_dumps by now apply representable_clean.
    now rewrite _clean_element_idempotent.
  - intros ->. discriminate Ht.
Qed.

(** X17.  A file whose items are all in the catalog with their hash is
    processed without effect: the step returns, nothing is handed to
    the transfer agent, the catalog is as it was and the scratch
    directory is gone. *)
Theorem unchanged_file_uploads_nothing lines ok w c :
  _initialized (catalog w) = true ->
  _connection (catalog w) = Some c ->
  _lock (catalog w) = false ->
  Forall (fun item => rows c !! cnpj item = Some (hash item))
         (_read_and_process_ndjson xxh3 lines) ->
  exists w',
    process_ndjson_file_to_storage xxh3 lines ok w = Returned tt w'
    /\ uploads w' = uploads w
    /\ catalog w' = catalog w
    /\ (w' = w \/ temp_dir w' = None).
Proof.
  intros Hi Hc Hl Hsame.
  assert (E : filter (spec_changed (rows c)) (_read_and_process_ndjson xxh3 lines) = []).
  { induction Hsame as [|item items Hitem _ IH]; [reflexivity|].
    rewrite filter_cons_False; [exact IH|].
    intros [H|(h & H & Hne)]; rewrite Hitem in H; [discriminate|].
    now injection H as <-. }
  rewrite (process_ndjson_file_to_storage_outcome xxh3 lines ok w c Hi Hc Hl)
    by (cbv zeta; rewrite E; constructor).
  cbv zeta. rewrite E. destruct (_read_and_process_ndjson xxh3 lines).
  - exists w. auto.
  - eexists. split; [reflexivity|]. simpl. auto.
Qed.

(** X18.  On a catalog that is not initialized (never opened, or closed
    by [close_connections]) a file with no item is still processed
    without effect; a file with an item makes the step raise
    [RuntimeError] "Database not initialized", after which the scratch
    directory is removed and nothing has been uploaded. *)
Theorem process_on_closed_catalog lines ok w :
  _initialized (catalog w) = false ->
  process_ndjson_file_to_storage xxh3 lines ok w =
    match _read_and_process_ndjson xxh3 lines with
    | [] => Returned tt w
    | _ :: _ => Raised (RuntimeError "Database not initialized") (set_temp_dir None w)
    end.
Proof.
  intros Hi. unfold process_ndjson_file_to_storage.
  destruct (_read_and_process_ndjson xxh3 lines) as [|p processed]; [reflexivity|].
  destruct w as [st d u]. simpl in Hi.
  unfold bind at 1, makedirs, modify, try_finally, bind at 1, lift,
    get_items_to_process_async, bind at 1, get_state.
  cbn [catalog set_temp_dir temp_dir uploads]. rewrite Hi. reflexivity.
Qed.





(** X20.  The integrity test passes on an unchanged record: when the
    stored document is the text [process_line] gave for a line whose
    [json_output] is the record, and the local file is the cleaned text
    that the single-identifier export writes for the same record, the
    two hashes compared are both the recorded hash. *)
Theorem stored_document_passes_comparison
    (line x : list ascii) (pairs : list (list ascii * JsonValue)) (el : JsonValue)
    (item : ProcessedItem) :
  loads (strip line) = Some (JDict pairs) ->
  dict_get (lit "json_output") pairs = Some el ->
  loads x = Some el ->
  process_line xxh3 line = Some item ->
  IntegrityTester.compare_sample xxh3 (Some (clean_json_spaces x)) true (Some (json item))
  = (hash item, hash item, true).
Proof.
  intros Hline Hout Hx Hitem.
  assert (Hel : representable el).
  { eapply representable_member; [|exact Hout]. eapply loads_representable, Hline. }
  assert (Hjson : json item = dumps (_clean_element el)
                  /\ hash item = xxh3 (dumps (_clean_element el))).
  { revert Hitem. unfold process_line. destruct (negb _); [discriminate|].
    unfold _extract_cnpj_and_json. rewrite Hline. simpl contains. rewrite Hout.
    rewrite bool_decide_eq_true_2 by eauto. cbn [getitem]. rewrite Hout.
    destruct (get el (lit "cnpj")) as [c|]; [|discriminate].
    destruct (negb (truthy_value c)); [discriminate|].
    rewrite (clean_json_spaces_dumps el Hel).
    destruct c; try discriminate. intros [= <-]. split; reflexivity. }
  destruct Hjson as [Hj Hh].
  unfold IntegrityTester.compare_sample, IntegrityTester._compute_hash.
  rewrite (clean_json_spaces_twice x el Hx), Hj.
  rewrite clean_json_spaces_dumps by now apply representable_clean.
  rewrite _clean_element_idempotent, <- Hh.
  now rewrite bool_decide_eq_true_2.
Qed.

End NdjsonProcessorMore.

(** *** The processor and the integrity test on concrete lines *)

Lemma process_line_ignores_surrounding_whitespace_witness :
  let line := PyJson.jlit "{'cnpj':'11222333000181'}" in
  NdjsonProcessor.process_line (fun _ => []) (lit "  " ++ line ++ [ascii_of_nat 10])
  = NdjsonProcessor.process_line (fun _ => []) line
  /\ NdjsonProcessor.process_line (fun _ => []) (lit "  " ++ [ascii_of_nat 10]) = None.
Proof.
  cbv zeta.
  apply (process_line_ignores_surrounding_whitespace (codec := PyJson.codec)
           (fun _ => []) (lit "  ") _ [ascii_of_nat 10]).
  - repeat constructor.
  - repeat constructor.
Defined.

Lemma wrapped_and_direct_lines_agree_witness :
  let clean := PyJson.jlit "{'cnpj':'11222333000181','uf':'SP'}" in
  NdjsonProcessor._extract_cnpj_and_json
    (PyJson.jlit "{'json_output': {'cnpj': '11222333000181', 'uf': ' SP '}}")
  = (Some (JStr (lit "11222333000181")), clean)
  /\ NdjsonProcessor._extract_cnpj_and_json
       (PyJson.jlit "{'cnpj':'11222333000181','uf':' SP '}")
     = (Some (JStr (lit "11222333000181")), clean).
Proof.
  cbv zeta.
  exact (wrapped_and_direct_lines_agree (laws := codec_laws)
           (PyJson.jlit "{'json_output': {'cnpj': '11222333000181', 'uf': ' SP '}}")
           (PyJson.jlit "{'cnpj':'11222333000181','uf':' SP '}")
           [(lit "json_output",
             JDict [(lit "cnpj", JStr (lit "11222333000181"));
                    (lit "uf", JStr (lit " SP "))])]
           [(lit "cnpj", JStr (lit "11222333000181")); (lit "uf", JStr (lit " SP "))]
           (JStr (lit "11222333000181"))
           eq_refl eq_refl eq_refl eq_refl eq_refl eq_refl).
Defined.

Lemma processed_item_is_canonical_witness :
  let item := {| HashCacheManager.cnpj := lit "11222333000181";
                 HashCacheManager.json := PyJson.jlit "{'cnpj':'11222333000181','uf':'SP'}";
                 HashCacheManager.hash := lit "h" |} in
  NdjsonProcessor.process_line (fun _ => lit "h")
    (PyJson.jlit "{'cnpj':'11222333000181','uf':' SP '}") = Some item
  /\ JsonCleanupUtils.clean_json_spaces (HashCacheManager.json item)
     = HashCacheManager.json item.
Proof.
  cbv zeta. split; [reflexivity|].
  apply (processed_item_is_canonical (laws := codec_laws) (fun _ => lit "h")
           (PyJson.jlit "{'cnpj':'11222333000181','uf':' SP '}") _ eq_refl).
Defined.

Lemma unchanged_file_uploads_nothing_witness :
  let w := {| NdjsonProcessor.catalog :=
                HashCacheManager.initialized_with
                  {[ lit "11222333000181" := lit "h" ]};
              NdjsonProcessor.temp_dir := None;
              NdjsonProcessor.uploads := [] |} in
  exists w',
    NdjsonProcessor.process_ndjson_file_to_storage (fun _ => lit "h")
      [PyJson.jlit "{'cnpj':'11222333000181'}"] true w = Returned tt w'
    /\ NdjsonProcessor.uploads w' = []
    /\ NdjsonProcessor.catalog w' = NdjsonProcessor.catalog w
    /\ (w' = w \/ NdjsonProcessor.temp_dir w' = None).
Proof.
  cbv zeta.
  apply (unchanged_file_uploads_nothing (codec := PyJson.codec) (fun _ => lit "h")
           [PyJson.jlit "{'cnpj':'11222333000181'}"] true
           {| NdjsonProcessor.catalog :=
                HashCacheManager.initialized_with {[ lit "11222333000181" := lit "h" ]};
              NdjsonProcessor.temp_dir := None;
              NdjsonProcessor.uploads := [] |}
           {| HashCacheManager.rows := {[ lit "11222333000181" := lit "h" ]};
              HashCacheManager.committed := {[ lit "11222333000181" := lit "h" ]} |}
           eq_refl eq_refl eq_refl).
  repeat constructor.
Defined.

Lemma process_on_closed_catalog_witness :
  let w := {| NdjsonProcessor.catalog :=
                HashCacheManager.set_initialized false
                  (HashCacheManager.set_connection None
                     (HashCacheManager.initialized_with ∅));
              NdjsonProcessor.temp_dir := None;
              NdjsonProcessor.uploads := [] |} in
  NdjsonProcessor.process_ndjson_file_to_storage (fun _ => [])
    [PyJson.jlit "{'cnpj':'11222333000181'}"] true w
  = Raised (RuntimeError "Database not initialized") w
  /\ NdjsonProcessor.process_ndjson_file_to_storage (fun _ => [])
       [lit "not json"] true w
     = Returned tt w.
Proof.
  cbv zeta. split.
  - exact (process_on_closed_catalog (codec := PyJson.codec) (fun _ => [])
             [PyJson.jlit "{'cnpj':'11222333000181'}"] true
             {| NdjsonProcessor.catalog :=
                  HashCacheManager.set_initialized false
                    (HashCacheManager.set_connection None
                       (HashCacheManager.initialized_with ∅));
                NdjsonProcessor.temp_dir := None;
                NdjsonProcessor.uploads := [] |} eq_refl).
  - exact (process_on_closed_catalog (codec := PyJson.codec) (fun _ => [])
             [lit "not json"] true
             {| NdjsonProcessor.catalog :=
                  HashCacheManager.set_initialized false
                    (HashCacheManager.set_connection None
                       (HashCacheManager.initialized_with ∅));
                NdjsonProcessor.temp_dir := None;
                NdjsonProcessor.uploads := [] |} eq_refl).
Defined.


Lemma stored_document_passes_comparison_witness :
  let line := PyJson.jlit "{'json_output':{'cnpj':'11222333000181','uf':' SP '}}" in
  let x := PyJson.jlit "{ 'cnpj': '11222333000181', 'uf': ' SP ' }" in
  exists item,
    NdjsonProcessor.process_line (fun _ => lit "AbC") line = Some item
    /\ IntegrityTester.compare_sample (fun _ => lit "AbC")
         (Some (JsonCleanupUtils.clean_json_spaces x)) true
         (Some (HashCacheManager.json item))
       = (lit "AbC", lit "AbC", true).
Proof.
  cbv zeta. eexists. split; [reflexivity|].
  exact (stored_document_passes_comparison (laws := codec_laws) (fun _ => lit "AbC")
           (PyJson.jlit "{'json_output':{'cnpj':'11222333000181','uf':' SP '}}")
           (PyJson.jlit "{ 'cnpj': '11222333000181', 'uf': ' SP ' }")
           _ _ _ eq_refl eq_refl eq_refl eq_refl).
Defined.

(** ** Document projector: dates, phones, activities, partitions and
    partners *)

Section ProjectionMore.
Import CnpjUtils ParquetIngestor.

Lemma eight_digits_split (s : str) :
  length s = 8 ->
  s = take 4 s ++ take 2 (drop 4 s) ++ take 2 (drop 6 s).
Proof.
  intros H. do 8 (destruct s as [|? s]; [discriminate H|]).
  destruct s; [reflexivity|discriminate H].
Qed.

(** X21.  The date expression: a value of exactly eight decimal digits
    [YYYYMMDD] becomes [YYYY-MM-DD], the same digits with a hyphen
    after the fourth and the sixth; any other value is passed through
    unchanged, and [NULL] becomes the empty string. *)
Theorem iso_date_reformats (x : varchar) :
  match x with
  | None => iso_date x = Some []
  | Some s =>
      if (length s =? 8) && forallb isdigit s
      then exists y m d,
             s = y ++ m ++ d /\ length y = 4 /\ length m = 2 /\ length d = 2
             /\ iso_date x = Some (y ++ lit "-" ++ m ++ lit "-" ++ d)
      else iso_date x = Some s
  end.
Proof.
  destruct x as [s|]; [|reflexivity]. unfold iso_date, matches_8_digits.
  destruct ((length s =? 8) && forallb isdigit s) eqn:E; [|reflexivity].
  apply andb_true_iff in E as [El%Nat.eqb_eq _].
  exists (take 4 s), (take 2 (drop 4 s)), (take 2 (drop 6 s)).
  split; [now apply eight_digits_split|].
  rewrite !length_take, !length_drop. repeat split; try lia.
  simpl. now rewrite <- !app_assoc.
Qed.

(** X22.  [telefones] has one entry for each of the three pairs (ddd1,
    telefone1), (ddd2, telefone2), (ddd_fax, fax) of which a column is
    not [NULL], at most three; it is empty exactly when the six columns
    are [NULL]; no entry has a [NULL] member, and an entry marked
    [is_fax] is the one of the fax pair. *)
Theorem telefones_listed (r : joined_row) :
  let t := telefones (_get_json_struct_fields r) in
  length t <= 3
  /\ Forall (fun x => is_Some (ddd x) /\ is_Some (tel_numero x)) t
  /\ (t = [] <->
      e_ddd1 r = None /\ e_telefone1 r = None /\ e_ddd2 r = None
      /\ e_telefone2 r = None /\ e_ddd_fax r = None /\ e_fax r = None)
  /\ length t
     = length (filter (fun s => s.1 <> None \/ s.2 <> None)
                 [ (e_ddd1 r, e_telefone1 r); (e_ddd2 r, e_telefone2 r);
                   (e_ddd_fax r, e_fax r) ])
  /\ (forall x, x ∈ t -> is_fax x = true ->
        x = {| ddd := COALESCE (e_ddd_fax r) []; tel_numero := COALESCE (e_fax r) [];
               is_fax := true |}).
Proof.
  cbv zeta. unfold _get_json_struct_fields, telefones, phone_slot.
  destruct (e_ddd1 r), (e_telefone1 r), (e_ddd2 r), (e_telefone2 r),
    (e_ddd_fax r), (e_fax r); simpl; split_and!;
  lazymatch goal with
  | |- _ <= _ => lia
  | |- Forall _ _ =>
      repeat first [exact I | apply Forall_nil | apply Forall_cons; split; [split; eauto|]]
  | |- _ <-> _ =>
      split; [intros H; first [discriminate H | repeat split]
             |intros (?&?&?&?&?&?); congruence]
  | |- _ = _ => reflexivity
  | |- forall _, _ =>
      intros x Hx Hf;
      repeat (apply elem_of_cons in Hx as [->|Hx];
              [first [discriminate Hf | reflexivity]|]);
      inversion Hx
  end.
Qed.

Lemma string_split_aux_cons sep cur s :
  exists p rest, string_split_aux sep cur s = p :: rest.
Proof.
  revert cur. induction s as [|c s IH]; intros cur; simpl; [eauto|].
  destruct (bool_decide (c = sep)); eauto.
Qed.

Lemma join_string_split_aux sep cur s :
  PyJson.join [sep] (string_split_aux sep cur s) = rev cur ++ s.
Proof.
  revert cur. induction s as [|c s IH]; intros cur; simpl string_split_aux.
  - simpl. now rewrite app_nil_r.
  - destruct (bool_decide (c = sep)) eqn:E.
    + apply bool_decide_eq_true in E as ->.
      pose proof (IH []) as IH0.
      destruct (string_split_aux_cons sep [] s) as (p & rest & Ep).
      rewrite Ep in IH0 |- *.
      change (PyJson.join [sep] (rev cur :: p :: rest))
        with (rev cur ++ [sep] ++ PyJson.join [sep] (p :: rest)).
      now rewrite IH0.
    + rewrite IH. simpl. now rewrite <- app_assoc.
Qed.

Lemma string_split_aux_no_sep sep cur s :
  sep ∉ cur -> Forall (fun p => sep ∉ p) (string_split_aux sep cur s).
Proof.
  revert cur. induction s as [|c s IH]; intros cur Hcur; simpl.
  - constructor; [|constructor]. intros H%list_elem_of_In%In_rev%list_elem_of_In. auto.
  - destruct (bool_decide (c = sep)) eqn:E.
    + constructor.
      * intros H%list_elem_of_In%In_rev%list_elem_of_In. auto.
      * apply IH. apply not_elem_of_nil.
    + apply bool_decide_eq_false in E. apply IH.
      intros [->|H]%elem_of_cons; [now apply E|auto].
Qed.

(** X23.  [cnaes_secundarios] loses nothing of its column: joined again
    with commas, the list is the column (the empty string for [NULL]);
    no element contains a comma, and the list is empty exactly when the
    column is [NULL] or empty. *)
Theorem cnaes_secundarios_round_trip (r : joined_row) :
  let parts := cnaes_secundarios (_get_json_struct_fields r) in
  Forall (fun p => ","%char ∉ p) parts
  /\ PyJson.join (lit ",") parts = default [] (e_cnaes_secundarios r)
  /\ (parts = [] <-> e_cnaes_secundarios r = None \/ e_cnaes_secundarios r = Some []).
Proof.
  cbv zeta. unfold _get_json_struct_fields, cnaes_secundarios.
  destruct (e_cnaes_secundarios r) as [[|c s]|].
  - split; [constructor|]. split; [reflexivity|]. split; auto.
  - split; [apply string_split_aux_no_sep, not_elem_of_nil|].
    split; [apply (join_string_split_aux ","%char [] (c :: s))|].
    split.
    + destruct (string_split_aux_cons ","%char [] (c :: s)) as (p & rest & E).
      unfold string_split. rewrite E. discriminate.
    + intros [H|H]; discriminate H.
  - split; [constructor|]. split; [reflexivity|]. split; auto.
Qed.

Lemma prefixes_two_digits :
  Forall (fun p => exists a b, p = [a; b] /\ isdigit a = true /\ isdigit b = true) prefixes.
Proof.
  assert (H : forallb (fun p => match p with
                                | [a; b] => isdigit a && isdigit b
                                | _ => false
                                end) prefixes = true) by (vm_compute; reflexivity).
  rewrite forallb_forall in H. apply Forall_forall. intros p Hp%list_elem_of_In%H.
  destruct p as [|a [|b [|? ?]]]; try discriminate Hp.
  apply andb_true_iff in Hp as [? ?]. eauto.
Qed.

Lemma digit_char a : isdigit a = true -> exists n, n < 10 /\ a = ascii_of_nat (48 + n).
Proof.
  intros H. exists (code a - 48). unfold isdigit, in_range in H.
  apply andb_true_iff in H as [H1%Nat.leb_le H2%Nat.leb_le]. split; [lia|].
  replace (48 + (code a - 48)) with (code a) by lia. unfold code.
  now rewrite ascii_nat_embedding.
Qed.

Lemma two_digits_prefix a b :
  isdigit a = true -> isdigit b = true -> [a; b] ∈ prefixes.
Proof.
  intros (n & Hn & ->)%digit_char (m & Hm & ->)%digit_char.
  unfold prefixes. apply list_elem_of_fmap. exists (10 * n + m). split.
  - do 10 (destruct n as [|n]; [do 10 (destruct m as [|m]; [reflexivity|]); lia|]). lia.
  - apply list_elem_of_In, in_seq. lia.
Qed.

Lemma prefixes_NoDup : NoDup prefixes.
Proof. apply (bool_decide_unpack _). vm_compute. exact I. Qed.

(** X24.  The partition loop visits the strings of two decimal digits,
    ["00"] to ["99"], each once and nothing else. *)
Theorem prefixes_are_the_two_digit_strings :
  NoDup prefixes
  /\ forall p : str,
       p ∈ prefixes <-> exists a b, p = [a; b] /\ isdigit a = true /\ isdigit b = true.
Proof.
  split; [exact prefixes_NoDup|]. intros p. split.
  - intros Hp. pose proof prefixes_two_digits as H. rewrite Forall_forall in H. auto.
  - intros (a & b & -> & Ha & Hb). now apply two_digits_prefix.
Qed.

Lemma filter_eq_NoDup {A} `{EqDecision A} (l : list A) (x : A) :
  NoDup l -> filter (fun y => x = y) l = if bool_decide (x ∈ l) then [x] else [].
Proof.
  induction 1 as [|y l Hy Hnd IH].
  - reflexivity.
  - rewrite filter_cons. destruct (decide (x = y)) as [<-|N].
    + rewrite bool_decide_eq_true_2 by now left. f_equal.
      rewrite IH. now rewrite bool_decide_eq_false_2.
    + rewrite IH. destruct (decide (x ∈ l)).
      * rewrite !bool_decide_eq_true_2; [reflexivity|now right|assumption].
      * rewrite !bool_decide_eq_false_2; [reflexivity| |assumption].
        intros [?|?]%elem_of_cons; contradiction.
Qed.

(** X25.  An establishment whose base has at least two characters is
    selected by exactly one prefix of the partition loop when the first
    two characters of the base are decimal digits, and by none
    otherwise: a base that starts with a letter, which the identifier
    codec accepts, is in no partition that the loop exports. *)
Theorem row_is_in_one_partition_or_none (r : joined_row) (b : str) :
  e_cnpj_basico r = Some b ->
  2 <= length b ->
  filter (fun p => in_partition p r = true) prefixes
  = if forallb isdigit (take 2 b) then [take 2 b] else [].
Proof.
  intros Hb Hlen.
  assert (E : filter (fun p => in_partition p r = true) prefixes
              = filter (fun p => take 2 b = p) prefixes).
  { apply list_filter_iff. intros p. unfold in_partition, cnpj_prefix. rewrite Hb.
    simpl. now rewrite bool_decide_eq_true. }
  rewrite E, (filter_eq_NoDup _ _ prefixes_NoDup).
  destruct b as [|a [|c b]]; simpl in Hlen; try lia. simpl take. simpl forallb.
  rewrite andb_true_r.
  destruct (isdigit a && isdigit c) eqn:Ed.
  - apply andb_true_iff in Ed as [Ha Hc].
    now rewrite bool_decide_eq_true_2 by now apply two_digits_prefix.
  - rewrite bool_decide_eq_false_2; [reflexivity|]. intros Hin.
    pose proof prefixes_two_digits as H. rewrite Forall_forall in H.
    destruct (H _ Hin) as (a' & c' & [= <- <-] & Ha & Hc).
    now rewrite Ha, Hc in Ed.
Qed.

Lemma row_is_in_one_partition_or_none_witness :
  filter (fun p => in_partition p (bare_row (lit "11222333") (lit "0001") (lit "81")) = true)
         prefixes = [lit "11"]
  /\ filter (fun p => in_partition p (bare_row (lit "AB345678") (lit "0001") (lit "90")) = true)
            prefixes = []
  /\ is_valid_format (Some (PyUnicode.ulit "AB.345.678/0001-90")) = true.
Proof.
  split; [|split; [|vm_compute; reflexivity]].
  - exact (row_is_in_one_partition_or_none
             (bare_row (lit "11222333") (lit "0001") (lit "81")) (lit "11222333")
             eq_refl ltac:(vm_compute; lia)).
  - exact (row_is_in_one_partition_or_none
             (bare_row (lit "AB345678") (lit "0001") (lit "90")) (lit "AB345678")
             eq_refl ltac:(vm_compute; lia)).
Defined.

Lemma socio_struct_not_null (s : socio_row) :
  let q := socio_struct s in
  is_Some (nome_socio q) /\ is_Some (cnpj_cpf_socio q)
  /\ is_Some (qualificacao_socio q) /\ is_Some (data_entrada_sociedade q)
  /\ is_Some (identificador_socio q) /\ is_Some (faixa_etaria q).
Proof.
  cbv zeta. unfold socio_struct. simpl.
  repeat split; try apply COALESCE_not_null; try apply iso_date_not_null;
    apply CASE_not_null, COALESCE_not_null.
Qed.

(** X26.  In whatever order the engine lists a group, [QSA] has one
    entry for each selected partner row of the establishment's
    [cnpj_basico] (none when that is [NULL] or no row has it), and no
    member of an entry is [NULL]. *)
Theorem qsa_entries_not_null (arrange : list socio_row -> list socio_row)
    (selected : list socio_row) (e_cnpj_basico : varchar) :
  arrangement arrange ->
  let QSA := default [] (qsa_data arrange selected e_cnpj_basico) in
  Forall (fun q =>
            is_Some (nome_socio q) /\ is_Some (cnpj_cpf_socio q)
            /\ is_Some (qualificacao_socio q) /\ is_Some (data_entrada_sociedade q)
            /\ is_Some (identificador_socio q) /\ is_Some (faixa_etaria q)) QSA
  /\ length QSA
     = length (filter (fun s => is_Some e_cnpj_basico /\ s_cnpj_basico s = e_cnpj_basico)
                      selected).
Proof.
  intros Harr. cbv zeta. unfold qsa_data. destruct e_cnpj_basico as [b|].
  - match goal with
    | |- context [match ?f with [] => None | _ => _ end] => set (group := f)
    end.
    assert (E : filter (fun s => is_Some (Some b) /\ s_cnpj_basico s = Some b) selected
                = group).
    { apply list_filter_iff. intros s. split; [tauto|eauto]. }
    rewrite E. destruct group as [|s g]; [split; [constructor|reflexivity]|].
    change (default [] (Some (map socio_struct (arrange (s :: g)))))
      with (map socio_struct (arrange (s :: g))).
    split; [|now rewrite length_map, (Permutation_length (Harr (s :: g)))].
    apply Forall_forall. intros q (s' & -> & _)%list_elem_of_fmap.
    apply socio_struct_not_null.
  - split; [constructor|]. simpl. symmetry. apply length_zero_iff_nil.
    induction selected as [|s l IH]; [reflexivity|].
    rewrite filter_cons_False; [exact IH|]. intros [[? H] _]. discriminate H.
Qed.

Lemma qsa_entries_not_null_witness :
  let a := {| s_cnpj_basico := Some (lit "11222333"); s_nome_socio := Some (lit "A");
              s_cnpj_cpf_socio := None; qs_descricao := None;
              s_data_entrada_sociedade := None;
              s_identificador_socio := None; s_faixa_etaria := None |} in
  let b := {| s_cnpj_basico := Some (lit "11222333"); s_nome_socio := Some (lit "B");
              s_cnpj_cpf_socio := None; qs_descricao := None;
              s_data_entrada_sociedade := None;
              s_identificador_socio := None; s_faixa_etaria := None |} in
  let QSA := default [] (qsa_data (@rev socio_row) [a; b] (Some (lit "11222333"))) in
  map nome_socio QSA = [Some (lit "B"); Some (lit "A")]
  /\ Forall (fun q => is_Some (cnpj_cpf_socio q) /\ is_Some (faixa_etaria q)) QSA.
Proof.
  cbv zeta. split; [reflexivity|].
  match goal with
  | |- Forall _ (default [] (qsa_data _ ?sel ?e)) =>
      destruct (qsa_entries_not_null (@rev socio_row) sel e
                  (fun group => Permutation_sym (Permutation_rev group))) as [H _]
  end.
  eapply Forall_impl; [exact H|]. cbv beta. tauto.
Defined.

Lemma quoted_chr (part : PyUnicode.ustr) (text : str) :
  quoted part = Some text -> map PyUnicode.chr text = part.
Proof.
  unfold quoted. destruct (forallb _ part) eqn:E; [|discriminate].
  intros [= <-]. rewrite forallb_forall in E.
  rewrite map_map. rewrite <- (map_id part) at 2. apply map_ext_in.
  intros c Hc%E. unfold PyUnicode.chr.
  apply andb_true_iff in Hc as [[_ Hc%N.ltb_lt]%andb_true_iff _].
  apply N_ascii_embedding. lia.
Qed.

(** X27.  The two queries join the same partners to an establishment:
    for an establishment of the partition [prefix] whose base, pasted
    into the single-identifier query, is read as a literal (it holds no
    quote), the aggregate of the per-prefix query (partners of that
    prefix) and the aggregate of the single-identifier query (partners
    of the establishment's base) are both [NULL], or hold the same
    entries, each in the order the engine gave it. *)
Theorem qsa_same_in_both_queries
    (arrange1 arrange2 : list socio_row -> list socio_row)
    (socios : list socio_row) (prefix b : str) (cnpj_basico : PyUnicode.ustr) :
  arrangement arrange1 -> arrangement arrange2 ->
  take 2 b = prefix ->
  quoted cnpj_basico = Some b ->
  exists sd,
    socios_data_for_cnpj arrange2 socios cnpj_basico = Some sd
    /\ match socios_data_for_prefix arrange1 socios prefix (Some b), sd (Some b) with
       | Some by_prefix, Some by_cnpj => by_prefix ≡ₚ by_cnpj
       | None, None => True
       | _, _ => False
       end.
Proof.
  intros H1 H2 Hp Hq. unfold socios_data_for_cnpj. rewrite Hq.
  eexists. split; [reflexivity|].
  unfold socios_data_for_prefix, qsa_data.
  assert (E : filter (fun s => s_cnpj_basico s = Some b)
                (filter (fun s => cnpj_prefix (s_cnpj_basico s) = Some prefix) socios)
              = filter (fun s => s_cnpj_basico s = Some b)
                  (filter (fun s => s_cnpj_basico s = Some b) socios)).
  { rewrite !list_filter_filter. apply list_filter_iff. intros s. split.
    - tauto.
    - intros [H _]. split; [exact H|]. rewrite H, <- Hp. reflexivity. }
  rewrite E.
  destruct (filter (fun s => s_cnpj_basico s = Some b)
              (filter (fun s => s_cnpj_basico s = Some b) socios)) as [|s g];
    [exact I|].
  apply Permutation_map. now rewrite (H1 (s :: g)), (H2 (s :: g)).
Qed.

Lemma qsa_same_in_both_queries_witness :
  let a := {| s_cnpj_basico := Some (lit "11222333"); s_nome_socio := Some (lit "A");
              s_cnpj_cpf_socio := None; qs_descricao := None;
              s_data_entrada_sociedade := Some (lit "20200131");
              s_identificador_socio := Some (lit "2"); s_faixa_etaria := None |} in
  let b := {| s_cnpj_basico := Some (lit "11222333"); s_nome_socio := Some (lit "B");
              s_cnpj_cpf_socio := None; qs_descricao := None;
              s_data_entrada_sociedade := None;
              s_identificador_socio := None; s_faixa_etaria := None |} in
  let other := {| s_cnpj_basico := Some (lit "11999999"); s_nome_socio := Some (lit "C");
              s_cnpj_cpf_socio := None; qs_descricao := None;
              s_data_entrada_sociedade := None;
              s_identificador_socio := None; s_faixa_etaria := None |} in
  (exists sd,
     socios_data_for_cnpj (@rev socio_row) [a; other; b] (PyUnicode.ulit "11222333")
     = Some sd
     /\ match socios_data_for_prefix id [a; other; b] (lit "11")
                 (Some (lit "11222333")),
              sd (Some (lit "11222333")) with
        | Some by_prefix, Some by_cnpj => by_prefix ≡ₚ by_cnpj
        | None, None => True
        | _, _ => False
        end)
  /\ map nome_socio
       <$> socios_data_for_prefix id [a; other; b] (lit "11") (Some (lit "11222333"))
     = Some [Some (lit "A"); Some (lit "B")]
  /\ map nome_socio
       <$> (socios_data_for_cnpj (@rev socio_row) [a; other; b]
              (PyUnicode.ulit "11222333")
            ≫= fun sd => sd (Some (lit "11222333")))
     = Some [Some (lit "B"); Some (lit "A")].
Proof.
  cbv zeta. split; [|split; vm_compute; reflexivity].
  exact (qsa_same_in_both_queries id (@rev socio_row) _
           (lit "11") (lit "11222333") (PyUnicode.ulit "11222333")
           (fun group => Permutation_refl group)
           (fun group => Permutation_sym (Permutation_rev group))
           eq_refl eq_refl).
Defined.

(** X28.  The single-identifier export finds the document of its
    argument: when the three parts that [parse_cnpj] gives for an
    identifier are read as literals in the text of the query (none
    holds a quote), a row that the [WHERE] clause selects is projected
    to a document whose [cnpj] is that identifier, unmasked and
    uppercased.  (A part with a quote makes the text another query:
    the parts of ['OR ''||||  >'], which [parse_cnpj] returns, are not
    read as literals.) *)
Theorem exported_document_identifier (s b o d : PyUnicode.ustr) (r : joined_row) :
  parse_cnpj s = Parsed b o d ->
  is_cnpj b o d r = Some true ->
  exists text,
    cnpj (_get_json_struct_fields r) = Some text
    /\ map PyUnicode.chr text = remove_mask (Some s).
Proof.
  intros Hp H. unfold is_cnpj in H.
  destruct (quoted b) as [b'|] eqn:Eb; [|discriminate H].
  destruct (quoted o) as [o'|] eqn:Eo; [|discriminate H].
  destruct (quoted d) as [d'|] eqn:Ed; [|discriminate H].
  injection H as H.
  apply andb_true_iff in H as [[Hb%bool_decide_eq_true Ho%bool_decide_eq_true]%andb_true_iff
                                 Hd%bool_decide_eq_true].
  unfold _get_json_struct_fields. cbn [cnpj]. rewrite Hb, Ho, Hd. cbn [concat].
  eexists. split; [reflexivity|].
  rewrite !map_app, (quoted_chr b b' Eb), (quoted_chr o o' Eo), (quoted_chr d d' Ed).
  now rewrite <- (parse_cnpj_concat s b o d Hp), app_assoc.
Qed.

Lemma exported_document_identifier_witness :
  (exists text,
     cnpj (_get_json_struct_fields (bare_row (lit "11222333") (lit "0001") (lit "81")))
     = Some text
     /\ map PyUnicode.chr text = PyUnicode.ulit "11222333000181")
  /\ parse_cnpj (PyUnicode.ulit "11.222.333/0001-81")
     = Parsed (PyUnicode.ulit "11222333") (PyUnicode.ulit "0001") (PyUnicode.ulit "81")
  /\ parse_cnpj (PyUnicode.ulit "'OR ''||||  >'")
     = Parsed (PyUnicode.ulit "'OR ''||") (PyUnicode.ulit "||  ") (PyUnicode.ulit ">'")
  /\ is_cnpj (PyUnicode.ulit "'OR ''||") (PyUnicode.ulit "||  ") (PyUnicode.ulit ">'")
       (bare_row (lit "11222333") (lit "0001") (lit "81")) = None.
Proof.
  split; [|split; [|split]]; try (vm_compute; reflexivity).
  exact (exported_document_identifier (PyUnicode.ulit "11.222.333/0001-81")
           (PyUnicode.ulit "11222333") (PyUnicode.ulit "0001") (PyUnicode.ulit "81")
           (bare_row (lit "11222333") (lit "0001") (lit "81"))
           ltac:(vm_compute; reflexivity) ltac:(vm_compute; reflexivity)).
Defined.

End ProjectionMore.
